(** * iv.c -- a terminal image viewer with vi-style navigation

    A shallow embedding of [src/iv.c] and the proofs of the properties its
    specification states about it.

    - C [int] values are integers of [Z] kept in range by [to_int], the
      two's-complement wrap-around of a 32-bit signed integer; [size_t],
      [unsigned int] and [unsigned short] wrap with [to_size_t], [to_uint]
      and [to_ushort].  Signed division is [Z.quot], the remainder [Z.rem].
    - A C string is the [string] of its bytes before the terminator.
    - The operating system is a [World] of answers to the calls the program
      makes (keystrokes, window sizes, exit statuses of the converter,
      allocation results, the file system).  The program threads a [State]
      holding what it has written, its globals and how many answers of each
      kind it has consumed.
    - A computation ends in [Ret] (returned), [Exit] (the process ended
      through [exit] or a [return] from [main]), [Fault] (an array read out
      of bounds) or [OutOfFuel] (the fuel of an unbounded loop ran out). *)

From Stdlib Require Import ZArith Lia List String Ascii Bool DecimalString.
From Stdlib Require DecimalPos.
Import ListNotations.
Local Open Scope string_scope.
Local Open Scope Z_scope.

(** ** C integers *)

Definition INT_MIN : Z := -2147483648.
Definition INT_MAX : Z := 2147483647.
Definition EOF : Z := -1.
Definition EXIT_FAILURE : Z := 1.

Definition to_int (z : Z) : Z := (z + 2147483648) mod 4294967296 - 2147483648.
Definition to_uint (z : Z) : Z := z mod 4294967296.
Definition to_size_t (z : Z) : Z := z mod 18446744073709551616.
Definition to_ushort (z : Z) : Z := z mod 65536.

Definition int_add (a b : Z) : Z := to_int (a + b).
Definition int_sub (a b : Z) : Z := to_int (a - b).
Definition int_mul (a b : Z) : Z := to_int (a * b).
Definition int_div (a b : Z) : Z := to_int (Z.quot a b).
Definition int_rem (a b : Z) : Z := to_int (Z.rem a b).

Definition is_int (z : Z) : Prop := INT_MIN <= z <= INT_MAX.

(** ** Configuration (lines 18-40) *)

Definition THUMB_ROWS : Z := 5.
Definition THUMB_COLS : Z := 10.
Definition SPACING_ROWS : Z := 1.
Definition SPACING_COLS : Z := 2.
Definition THUMB_PIXEL_WIDTH : Z := 180.
Definition THUMB_PIXEL_HEIGHT : Z := 120.
Definition FOCUS_WIDTH : Z := 800.
Definition FOCUS_HEIGHT : Z := 600.
Definition TMP_DIR : string := "/tmp".

(** ** Data structures (lines 45-56) *)

Record ImageEntry : Type := mkEntry {
  original_path : string;
  thumb_path : option string;   (* [None] is the NULL pointer *)
  generated : bool
}.

(** [ImageList]: the entries in order; [count] is their number. *)
Definition ImageList : Type := list ImageEntry.
Definition count (l : ImageList) : Z := Z.of_nat (List.length l).

Inductive ViewerMode : Type := MODE_GRID | MODE_FOCUS.

(** ** Text: characters, [printf] formats, [snprintf], [strrchr] *)

Definition ESC : ascii := "027"%char.
Definition NL : ascii := "010"%char.
Definition DQ : string := String "034"%char "".

Definition code (c : ascii) : Z := Z.of_N (N_of_ascii c).

(** [%d] *)
Definition fmt_d (z : Z) : string := NilZero.string_of_int (Z.to_int z).

Inductive fmt_arg : Type := ArgD (z : Z) | ArgS (s : string).

(** The conversions the program's format strings use: [%d] and [%s]. *)
Fixpoint sprintf (fmt : string) (args : list fmt_arg) : string :=
  match fmt with
  | EmptyString => EmptyString
  | String "%"%char (String "d"%char rest) =>
      match args with
      | ArgD z :: tl => fmt_d z ++ sprintf rest tl
      | _ :: tl => sprintf rest tl
      | [] => sprintf rest []
      end
  | String "%"%char (String "s"%char rest) =>
      match args with
      | ArgS s :: tl => s ++ sprintf rest tl
      | _ :: tl => sprintf rest tl
      | [] => sprintf rest []
      end
  | String c rest => String c (sprintf rest args)
  end.

(** [snprintf(buf, size, fmt, ...)]: at most [size - 1] bytes are kept. *)
Definition snprintf (size : Z) (fmt : string) (args : list fmt_arg) : string :=
  substring 0 (Z.to_nat (size - 1)) (sprintf fmt args).

(** What follows the last ['/'] of [s], if there is one: the result of
    [strrchr(s, '/')] moved one byte forward. *)
Fixpoint after_last_slash (s : string) : option string :=
  match s with
  | EmptyString => None
  | String c rest =>
      match after_last_slash rest with
      | Some t => Some t
      | None => if Ascii.eqb c "/"%char then Some rest else None
      end
  end.

(** Lines 175-179 and 206-210. *)
Definition file_name (orig : string) : string :=
  match after_last_slash orig with
  | None => orig
  | Some t => t
  end.

(** ** The operating system *)

Record World : Type := mkWorld {
  (* what successive [getopt] calls return before -1: the option character
     ['c'] with [optarg]; or another character, which is the ['?'] of an
     option [getopt] rejects, with the diagnostic [getopt] has then written
     to standard error ([opterr] is never cleared) *)
  w_getopt : list (Z * string);
  (* [optind] once [getopt] has returned -1 *)
  w_optind : Z;
  (* [stat(path) == 0 && S_ISDIR] *)
  w_isdir : string -> bool;
  (* [opendir] and the names [readdir] then yields; [None] when it fails *)
  w_opendir : string -> option (list string);
  (* [stat(path) == 0 && S_ISREG] *)
  w_isreg : string -> bool;
  (* the text [perror] prints for the current [errno] *)
  w_strerror : string;
  (* whether [tcgetattr] and the [tcsetattr] of [enable_raw_mode] succeed *)
  w_tcgetattr : bool;
  w_tcsetattr : bool;
  (* the status of the n-th [system] call, run on the given command *)
  w_system : nat -> string -> Z;
  (* the n-th [read] of one byte from standard input: the byte when it
     returns 1 *)
  w_read : nat -> option ascii;
  (* the n-th [ioctl(TIOCGWINSZ)]: [ws_row] and [ws_col] when it returns 0 *)
  w_ioctl : nat -> option (Z * Z);
  (* whether the n-th checked allocation succeeds *)
  w_alloc : nat -> bool
}.

Record State : Type := mkState {
  stdout : string;
  stderr : string;
  scroll_offset : Z;        (* the global of line 330 *)
  raw_mode : bool;          (* the terminal is in raw mode *)
  atexit_hook : bool;       (* [disable_raw_mode] is registered *)
  reads : nat;
  ioctls : nat;
  systems : nat;
  allocs : nat;
  removed : list string     (* files passed to [remove] *)
}.

Definition initial_state : State :=
  mkState "" "" 0 false false 0 0 0 0 [].

Definition set_stdout (v : string) (s : State) : State :=
  mkState v (stderr s) (scroll_offset s) (raw_mode s) (atexit_hook s)
          (reads s) (ioctls s) (systems s) (allocs s) (removed s).
Definition set_stderr (v : string) (s : State) : State :=
  mkState (stdout s) v (scroll_offset s) (raw_mode s) (atexit_hook s)
          (reads s) (ioctls s) (systems s) (allocs s) (removed s).
Definition set_scroll_offset (v : Z) (s : State) : State :=
  mkState (stdout s) (stderr s) v (raw_mode s) (atexit_hook s)
          (reads s) (ioctls s) (systems s) (allocs s) (removed s).
Definition set_raw_mode (v : bool) (s : State) : State :=
  mkState (stdout s) (stderr s) (scroll_offset s) v (atexit_hook s)
          (reads s) (ioctls s) (systems s) (allocs s) (removed s).
Definition set_atexit_hook (v : bool) (s : State) : State :=
  mkState (stdout s) (stderr s) (scroll_offset s) (raw_mode s) v
          (reads s) (ioctls s) (systems s) (allocs s) (removed s).
Definition set_reads (v : nat) (s : State) : State :=
  mkState (stdout s) (stderr s) (scroll_offset s) (raw_mode s) (atexit_hook s)
          v (ioctls s) (systems s) (allocs s) (removed s).
Definition set_ioctls (v : nat) (s : State) : State :=
  mkState (stdout s) (stderr s) (scroll_offset s) (raw_mode s) (atexit_hook s)
          (reads s) v (systems s) (allocs s) (removed s).
Definition set_systems (v : nat) (s : State) : State :=
  mkState (stdout s) (stderr s) (scroll_offset s) (raw_mode s) (atexit_hook s)
          (reads s) (ioctls s) v (allocs s) (removed s).
Definition set_allocs (v : nat) (s : State) : State :=
  mkState (stdout s) (stderr s) (scroll_offset s) (raw_mode s) (atexit_hook s)
          (reads s) (ioctls s) (systems s) v (removed s).
Definition set_removed (v : list string) (s : State) : State :=
  mkState (stdout s) (stderr s) (scroll_offset s) (raw_mode s) (atexit_hook s)
          (reads s) (ioctls s) (systems s) (allocs s) v.

(** ** Computations *)

Inductive Res (A : Type) : Type :=
| Ret (a : A) (s : State)
| Exit (status : Z) (s : State)
| Fault (s : State)
| OutOfFuel.
Arguments Ret {A} a s.
Arguments Exit {A} status s.
Arguments Fault {A} s.
Arguments OutOfFuel {A}.

Definition M (A : Type) : Type := State -> Res A.

Definition ret {A : Type} (a : A) : M A := fun s => Ret a s.

Definition bind {A B : Type} (c : M A) (k : A -> M B) : M B :=
  fun s =>
    match c s with
    | Ret a s' => k a s'
    | Exit st s' => Exit st s'
    | Fault s' => Fault s'
    | OutOfFuel => OutOfFuel
    end.

Notation "x <- c1 ;; c2" := (bind c1 (fun x => c2))
  (at level 61, c1 at next level, right associativity).
Notation "c1 ;; c2" := (bind c1 (fun _ => c2))
  (at level 61, right associativity).

Definition get_scroll : M Z := fun s => Ret (scroll_offset s) s.
Definition put_scroll (v : Z) : M unit := fun s => Ret tt (set_scroll_offset v s).
Definition fault {A : Type} : M A := fun s => Fault s.
Definition out_of_fuel {A : Type} : M A := fun _ => OutOfFuel.

(** [printf] to standard output and [fprintf(stderr, ...)]; [fflush] changes
    nothing here, the buffer being the output. *)
Definition printf (fmt : string) (args : list fmt_arg) : M unit :=
  fun s => Ret tt (set_stdout (stdout s ++ sprintf fmt args) s).
Definition eprintf (fmt : string) (args : list fmt_arg) : M unit :=
  fun s => Ret tt (set_stderr (stderr s ++ sprintf fmt args) s).

(** [perror(tag)] *)
Definition perror (W : World) (tag : string) : M unit :=
  eprintf "%s: %s%s" [ArgS tag; ArgS (w_strerror W); ArgS (String NL "")].

(** Handlers registered with [atexit] run when the process ends. *)
Definition run_atexit (s : State) : State :=
  if atexit_hook s then set_raw_mode false s else s.

Definition exit {A : Type} (status : Z) : M A :=
  fun s => Exit status (run_atexit s).

Definition sys_read (W : World) : M (option ascii) :=
  fun s => Ret (w_read W (reads s)) (set_reads (S (reads s)) s).

Definition sys_ioctl (W : World) : M (option (Z * Z)) :=
  fun s => Ret (w_ioctl W (ioctls s)) (set_ioctls (S (ioctls s)) s).

Definition sys_system (W : World) (cmd : string) : M Z :=
  fun s => Ret (w_system W (systems s) cmd) (set_systems (S (systems s)) s).

Definition sys_alloc (W : World) : M bool :=
  fun s => Ret (w_alloc W (allocs s)) (set_allocs (S (allocs s)) s).

Definition sys_remove (path : string) : M unit :=
  fun s => Ret tt (set_removed (removed s ++ [path])%list s).

(** ** Raw terminal mode and the keyboard (lines 60-102) *)

Definition disable_raw_mode : M unit :=
  fun s => Ret tt (set_raw_mode false s).

Definition enable_raw_mode (W : World) : M unit :=
  if negb (w_tcgetattr W) then
    perror W "tcgetattr" ;; exit EXIT_FAILURE
  else if negb (w_tcsetattr W) then
    perror W "tcsetattr" ;; exit EXIT_FAILURE
  else
    fun s => Ret tt (set_atexit_hook true (set_raw_mode true s)).

(** What [read_keypress] returns for the outcome of its [read]. *)
Definition key_of (r : option ascii) : Z :=
  match r with
  | Some ch => code ch
  | None => EOF
  end.

Definition read_keypress (W : World) : M Z :=
  r <- sys_read W ;;
  ret (key_of r).

(** ** Base64 of a path (lines 235-273) *)

Definition tbl : string :=
  "ABCDEFGHIJKLMNOPQRSTUVWXYZabcdefghijklmnopqrstuvwxyz0123456789+/".

Definition tbl_at (k : Z) : ascii :=
  match String.get (Z.to_nat k) tbl with
  | Some c => c
  | None => zero
  end.

(** One turn of the inner loop (lines 250-257): [v <<= 8], then either the
    next byte is or-ed in or [pad] grows. *)
Definition feed (vp : Z * Z) (next : option ascii) : Z * Z :=
  let '(v, pad) := vp in
  let v := to_uint (Z.shiftl v 8) in
  match next with
  | Some ch => (Z.lor v (code ch), pad)
  | None => (v, int_add pad 1)
  end.

(** The four characters written for one group (lines 258-269). *)
Definition quad (vp : Z * Z) : string :=
  let '(v, pad) := vp in
  String (tbl_at (Z.land (Z.shiftr v 18) 63))
  (String (tbl_at (Z.land (Z.shiftr v 12) 63))
  (String (if pad <? 2 then tbl_at (Z.land (Z.shiftr v 6) 63) else "="%char)
  (String (if pad <? 1 then tbl_at (Z.land v 63) else "="%char)
   EmptyString))).

(** The outer loop (lines 247-270): each turn takes up to three bytes. *)
Fixpoint b64_groups (path : string) : string :=
  match path with
  | EmptyString => EmptyString
  | String a EmptyString =>
      quad (feed (feed (feed (0, 0) (Some a)) None) None)
  | String a (String b EmptyString) =>
      quad (feed (feed (feed (0, 0) (Some a)) (Some b)) None)
  | String a (String b (String c rest)) =>
      quad (feed (feed (feed (0, 0) (Some a)) (Some b)) (Some c))
      ++ b64_groups rest
  end.

Definition b64encode_path (W : World) (path : string) : M (option string) :=
  ok <- sys_alloc W ;;
  if ok then ret (Some (b64_groups path)) else ret None.

(** ** The kitty graphics protocol (lines 279-325) *)

Definition kitty_display_fmt : string :=
  String ESC "_Ga=T,f=100,t=f,c=%d,r=%d,C=1;%s" ++ String ESC "\".

Definition display_thumbnail_kitty (W : World) (thumb : option string) : M unit :=
  match thumb with
  | None => printf "[?]" []
  | Some p =>
      b64 <- b64encode_path W p ;;
      match b64 with
      | None => printf "[b64-fail]" []
      | Some b =>
          printf kitty_display_fmt [ArgD THUMB_COLS; ArgD THUMB_ROWS; ArgS b]
      end
  end.

Definition display_focus_kitty (W : World) (focus : option string) : M unit :=
  match focus with
  | None => ret tt
  | Some p =>
      let c := 80 in
      let r := 24 in
      b64 <- b64encode_path W p ;;
      match b64 with
      | None => ret tt
      | Some b => printf kitty_display_fmt [ArgD c; ArgD r; ArgS b]
      end
  end.

Definition kitty_delete_all : M unit :=
  printf (String ESC "_Ga=d" ++ String ESC "\") [].

(** ** Vertical scrolling (lines 330-370) *)

(** [ws.ws_row] after the [ioctl] of lines 339-342. *)
Definition ws_row_of (answer : option (Z * Z)) : Z :=
  match answer with
  | Some (row, _) => to_ushort row
  | None => 24
  end.

(** Lines 345-352. *)
Definition visible_rows (ws_row : Z) : Z :=
  let row_height := int_add THUMB_ROWS SPACING_ROWS in
  let row_height := if row_height <? 1 then 1 else row_height in
  let visible := int_div ws_row row_height in
  if visible <? 1 then 1 else visible.

(** Line 354 (and 393): the sum and the quotient are computed in [size_t],
    the result is converted to [int]. *)
Definition total_rows (l : ImageList) (grid_cols : Z) : Z :=
  to_int (to_size_t (to_size_t (count l + to_size_t grid_cols) - 1)
          / to_size_t grid_cols).

(** The grid position of an item (lines 355 and 585) and the item at a grid
    position (line 413). *)
Definition row_of (i grid_cols : Z) : Z := int_div i grid_cols.
Definition col_of (i grid_cols : Z) : Z := int_rem i grid_cols.
Definition grid_index (row grid_cols col : Z) : Z :=
  int_add (int_mul row grid_cols) col.

(** Lines 363-369, repeated at lines 394-400. *)
Definition clamp_scroll (total visible : Z) : M unit :=
  so <- get_scroll ;;
  (if so <? 0 then put_scroll 0 else ret tt) ;;
  so <- get_scroll ;;
  (if so >? int_sub total visible then put_scroll (int_sub total visible)
   else ret tt) ;;
  so <- get_scroll ;;
  (if so <? 0 then put_scroll 0 else ret tt).

Definition adjust_scroll_for_selection
    (W : World) (l : ImageList) (selected grid_cols : Z) : M unit :=
  answer <- sys_ioctl W ;;
  let visible := visible_rows (ws_row_of answer) in
  let total := total_rows l grid_cols in
  let sel_row := row_of selected grid_cols in
  so <- get_scroll ;;
  (if sel_row <? so then put_scroll sel_row
   else if sel_row >=? int_add so visible
        then put_scroll (int_add (int_sub sel_row visible) 1)
        else ret tt) ;;
  clamp_scroll total visible.

(** ** Grid rendering (lines 378-452) *)

(** [list->entries[i]]; reading outside the array is a [Fault]. *)
Definition entry_at (l : ImageList) (i : Z) : option ImageEntry :=
  if i <? 0 then None else nth_error l (Z.to_nat i).

Definition clear_home : string := String ESC "[2J" ++ String ESC "[H".
Definition cursor_fmt : string := String ESC "[%d;%dH".

(** The inner loop of lines 412-431; [n] counts the columns still to visit. *)
Fixpoint render_cols (W : World) (n : nat) (l : ImageList)
    (grid_cols selected start_row row_height col_width row col : Z) : M unit :=
  match n with
  | O => ret tt
  | S n' =>
      if col <? grid_cols then
        let i := grid_index row grid_cols col in
        if i >=? to_int (count l) then ret tt
        else
          let screen_row := int_add (int_mul (int_sub row start_row) row_height) 1 in
          let screen_col := int_add (int_mul col col_width) 1 in
          printf cursor_fmt [ArgD screen_row; ArgD screen_col] ;;
          match entry_at l i with
          | Some e => display_thumbnail_kitty W (thumb_path e)
          | None => fault
          end ;;
          (if i =? selected then
             let star_row := int_add screen_row THUMB_ROWS in
             let star_col := int_add screen_col (int_div THUMB_COLS 2) in
             printf (cursor_fmt ++ "*") [ArgD star_row; ArgD star_col]
           else ret tt) ;;
          render_cols W n' l grid_cols selected start_row row_height col_width
                      row (int_add col 1)
      else ret tt
  end.

(** The outer loop of line 411; [n] counts the rows still to visit. *)
Fixpoint render_rows (W : World) (n : nat) (l : ImageList)
    (grid_cols selected start_row end_row row_height col_width row : Z) : M unit :=
  match n with
  | O => ret tt
  | S n' =>
      if row <? end_row then
        render_cols W (Z.to_nat grid_cols) l grid_cols selected start_row
                    row_height col_width row 0 ;;
        render_rows W n' l grid_cols selected start_row end_row
                    row_height col_width (int_add row 1)
      else ret tt
  end.

Definition render_grid
    (W : World) (l : ImageList) (grid_cols selected : Z) : M unit :=
  answer <- sys_ioctl W ;;
  let ws_row := match answer with Some (r, _) => to_ushort r | None => 24 end in
  let ws_col := match answer with Some (_, c) => to_ushort c | None => 80 end in
  let row_height := int_add THUMB_ROWS SPACING_ROWS in
  let col_width := int_add THUMB_COLS SPACING_COLS in
  let visible := int_div ws_row row_height in
  let visible := if visible <? 1 then 1 else visible in
  let total := total_rows l grid_cols in
  clamp_scroll total visible ;;
  printf clear_home [] ;;
  start_row <- get_scroll ;;
  let end_row := int_add start_row visible in
  let end_row := if end_row >? total then total else end_row in
  render_rows W (Z.to_nat (end_row - start_row)) l grid_cols selected
              start_row end_row row_height col_width start_row ;;
  let bottom_line := int_add (int_mul visible row_height) 1 in
  (if bottom_line <? ws_row
   then printf (String ESC "[%d;1H") [ArgD bottom_line]
   else printf (String ESC "[%d;1H") [ArgD ws_row]) ;;
  (if (selected >=? 0) && (selected <? to_int (count l)) then
     match entry_at l selected with
     | Some e => printf ("Selected: %s" ++ String NL "") [ArgS (original_path e)]
     | None => fault
     end
   else printf (String NL "") []) ;;
  printf ("[h/l/j/k: move | Enter=focus | q=quit]" ++ String NL "") [].

(** ** Thumbnail and focus generation (lines 172-230) *)

Definition convert_fmt : string :=
  "magick convert " ++ DQ ++ "%s" ++ DQ
  ++ " -resize %dx%d -auto-orient -filter Lanczos " ++ DQ ++ "%s" ++ DQ.

(** Both generators return their status together with the value of the
    output pointer afterwards; [out] is its value before the call. *)
Definition generate_thumbnail (W : World) (orig : string) (out : option string)
    : M (Z * option string) :=
  let fname := file_name orig in
  let tmp := snprintf 4096 "%s/iv_%s.thumb.png" [ArgS TMP_DIR; ArgS fname] in
  let cmd := snprintf 8192 convert_fmt
               [ArgS orig; ArgD THUMB_PIXEL_WIDTH; ArgD THUMB_PIXEL_HEIGHT; ArgS tmp] in
  status <- sys_system W cmd ;;
  if negb (status =? 0) then
    eprintf ("Failed to create thumbnail for %s" ++ String NL "") [ArgS orig] ;;
    ret (-1, out)
  else
    ok <- sys_alloc W ;;
    if ok then ret (0, Some tmp)
    else
      eprintf ("Out of memory duplicating thumb path." ++ String NL "") [] ;;
      ret (-1, None).

Definition generate_focus (W : World) (orig : string) (out : option string)
    : M (Z * option string) :=
  let fname := file_name orig in
  let tmp := snprintf 4096 "%s/iv_%s.focus.png" [ArgS TMP_DIR; ArgS fname] in
  let cmd := snprintf 8192 convert_fmt
               [ArgS orig; ArgD FOCUS_WIDTH; ArgD FOCUS_HEIGHT; ArgS tmp] in
  status <- sys_system W cmd ;;
  if negb (status =? 0) then
    eprintf ("Failed to create focus image for %s" ++ String NL "") [ArgS orig] ;;
    ret (-1, out)
  else
    ok <- sys_alloc W ;;
    if ok then ret (0, Some tmp)
    else
      eprintf ("Out of memory for focus path." ++ String NL "") [] ;;
      ret (-1, None).

(** ** Focus view (lines 457-481) *)

(** The test of line 472. *)
Definition focus_exit_key (ch : Z) : bool :=
  (ch =? 27) || (ch =? code "q") || (ch =? EOF).

(** The [while (1)] of lines 470-475: the loop ends with the first read that
    yields ESC, ['q'] or EOF. *)
Fixpoint focus_wait (W : World) (fuel : nat) : M unit :=
  match fuel with
  | O => out_of_fuel
  | S fuel' =>
      ch <- read_keypress W ;;
      if focus_exit_key ch then ret tt
      else focus_wait W fuel'
  end.

Definition focus_view (W : World) (fuel : nat) (orig_path : string) : M unit :=
  r <- generate_focus W orig_path None ;;
  let '(status, focus_path) := r in
  if negb (status =? 0) then ret tt
  else
    printf clear_home [] ;;
    display_focus_kitty W focus_path ;;
    focus_wait W fuel ;;
    match focus_path with
    | Some p => sys_remove p
    | None => ret tt
    end.

(** ** Image loading (lines 107-164) *)

(** The [strdup] of line 115 is not checked by the program and is taken to
    succeed. *)
Definition add_image_entry (W : World) (l : ImageList) (path : string) : M ImageList :=
  ok <- sys_alloc W ;;
  if ok then ret (l ++ [mkEntry path None false])%list
  else eprintf ("Out of memory." ++ String NL "") [] ;; exit EXIT_FAILURE.

(** Line 141: [de->d_name[0] == '.']. *)
Definition is_hidden (name : string) : bool :=
  match name with
  | String c _ => Ascii.eqb c "."
  | EmptyString => false
  end.

(** The [readdir] loop of lines 140-152 over the names of the directory. *)
Fixpoint load_dir_entries (W : World) (dir_path : string) (names : list string)
    (l : ImageList) : M ImageList :=
  match names with
  | [] => ret l
  | name :: rest =>
      if is_hidden name then load_dir_entries W dir_path rest l
      else
        let fullpath := snprintf 4096 "%s/%s" [ArgS dir_path; ArgS name] in
        if w_isreg W fullpath then
          l' <- add_image_entry W l fullpath ;;
          load_dir_entries W dir_path rest l'
        else load_dir_entries W dir_path rest l
  end.

Definition load_images_from_dir (W : World) (dir_path : string) (l : ImageList)
    : M (Z * ImageList) :=
  match w_opendir W dir_path with
  | None => perror W "opendir" ;; ret (-1, l)
  | Some names =>
      l' <- load_dir_entries W dir_path names l ;;
      ret (0, l')
  end.

Fixpoint load_images_from_argv (W : World) (paths : list string) (l : ImageList)
    : M ImageList :=
  match paths with
  | [] => ret l
  | p :: rest =>
      l' <- add_image_entry W l p ;;
      load_images_from_argv W rest l'
  end.

(** ** Cleanup (lines 486-511) *)

Fixpoint remove_thumbnails (l : ImageList) : M unit :=
  match l with
  | [] => ret tt
  | e :: rest =>
      match generated e, thumb_path e with
      | true, Some p => sys_remove p
      | _, _ => ret tt
      end ;;
      remove_thumbnails rest
  end.

(** ** The main loop (lines 570-611) *)

Record LoopVars : Type := mkLoop {
  mode : ViewerMode;
  selected : Z;
  running : Z
}.

(** Lines 570-572. *)
Definition loop_start : LoopVars := mkLoop MODE_GRID 0 1.

(** The key dispatch of grid mode (lines 580-602). *)
Definition grid_key (l : ImageList) (grid_cols ch : Z) (v : LoopVars) : LoopVars :=
  let sel := selected v in
  if ch =? EOF then mkLoop (mode v) sel 0
  else if ch =? code "q" then mkLoop (mode v) sel 0
  else if ch =? code "h" then
    if col_of sel grid_cols >? 0
    then mkLoop (mode v) (int_sub sel 1) (running v) else v
  else if ch =? code "l" then
    if (int_add sel 1 <? to_int (count l))
       && (col_of sel grid_cols <? int_sub grid_cols 1)
    then mkLoop (mode v) (int_add sel 1) (running v) else v
  else if ch =? code "k" then
    if int_sub sel grid_cols >=? 0
    then mkLoop (mode v) (int_sub sel grid_cols) (running v) else v
  else if ch =? code "j" then
    if int_add sel grid_cols <? to_int (count l)
    then mkLoop (mode v) (int_add sel grid_cols) (running v) else v
  else if (ch =? 10) || (ch =? 13) then mkLoop MODE_FOCUS sel (running v)
  else v.

(** One turn of the [while (running)] loop (lines 575-610). *)
Definition loop_body (W : World) (fuel : nat) (l : ImageList) (grid_cols : Z)
    (v : LoopVars) : M LoopVars :=
  match mode v with
  | MODE_GRID =>
      adjust_scroll_for_selection W l (selected v) grid_cols ;;
      render_grid W l grid_cols (selected v) ;;
      ch <- read_keypress W ;;
      ret (grid_key l grid_cols ch v)
  | MODE_FOCUS =>
      match entry_at l (selected v) with
      | Some e =>
          focus_view W fuel (original_path e) ;;
          ret (mkLoop MODE_GRID (selected v) (running v))
      | None => fault
      end
  end.

Fixpoint main_loop (W : World) (fuel : nat) (l : ImageList) (grid_cols : Z)
    (v : LoopVars) : M LoopVars :=
  match fuel with
  | O => out_of_fuel
  | S fuel' =>
      if running v =? 0 then ret v
      else
        v' <- loop_body W fuel' l grid_cols v ;;
        main_loop W fuel' l grid_cols v'
  end.

(** ** [main] (lines 516-626) *)

Definition isspace (c : ascii) : bool :=
  let n := code c in (n =? 32) || ((9 <=? n) && (n <=? 13)).

Definition isdigit (c : ascii) : bool :=
  let n := code c in (48 <=? n) && (n <=? 57).

Fixpoint skip_spaces (s : string) : string :=
  match s with
  | String c rest => if isspace c then skip_spaces rest else s
  | EmptyString => s
  end.

Fixpoint digits_value (s : string) (acc : Z) : Z :=
  match s with
  | String c rest =>
      if isdigit c then digits_value rest (acc * 10 + (code c - 48)) else acc
  | EmptyString => acc
  end.

(** [long] has 64 bits. *)
Definition LONG_MIN : Z := - 2 ^ 63.
Definition LONG_MAX : Z := 2 ^ 63 - 1.

(** [strtol(s, NULL, 10)]: blanks, an optional sign, digits; a value outside
    [long] is replaced by the nearer of [LONG_MIN] and [LONG_MAX]. *)
Definition strtol (s : string) : Z :=
  let value :=
    match skip_spaces s with
    | String "-"%char rest => - digits_value rest 0
    | String "+"%char rest => digits_value rest 0
    | t => digits_value t 0
    end in
  Z.max LONG_MIN (Z.min LONG_MAX value).

(** [atoi(s)] is [(int) strtol(s, NULL, 10)], as the C library has it: a
    value that fits [long] but not [int] is cut to its low 32 bits, and one
    beyond [long] is first replaced by [strtol]. *)
Definition atoi (s : string) : Z := to_int (strtol s).

Definition usage_fmt : string :=
  "Usage: %s [-c columns] [directory or imagefiles...]" ++ String NL "".

Definition argv0 (argv : list string) : string := nth 0 argv "".

(** The option loop of lines 522-533 over what [getopt] returns.  With an
    option it rejects, [getopt] has written its own diagnostic to standard
    error by the time it returns. *)
Fixpoint parse_options (argv : list string) (opts : list (Z * string))
    (grid_cols : Z) : M Z :=
  match opts with
  | [] => ret grid_cols
  | (opt, text) :: rest =>
      if opt =? code "c" then
        let g := atoi text in
        let g := if g <? 1 then 4 else g in
        parse_options argv rest g
      else
        eprintf "%s" [ArgS text] ;;
        eprintf usage_fmt [ArgS (argv0 argv)] ;; exit EXIT_FAILURE
  end.

(** Lines 562-566. *)
Fixpoint generate_thumbnails (W : World) (l : ImageList) : M ImageList :=
  match l with
  | [] => ret []
  | e :: rest =>
      r <- generate_thumbnail W (original_path e) (thumb_path e) ;;
      let '(status, thumb) := r in
      let e' := if status =? 0 then mkEntry (original_path e) thumb true
                else mkEntry (original_path e) thumb (generated e) in
      rest' <- generate_thumbnails W rest ;;
      ret (e' :: rest')
  end.

(** A [return] from [main] ends the process as [exit] does. *)
Definition main (W : World) (fuel : nat) (argv : list string) : M Z :=
  let argc := Z.of_nat (List.length argv) in
  grid_cols <- parse_options argv (w_getopt W) 4 ;;
  let optind := w_optind W in
  (if optind >=? argc then
     eprintf usage_fmt [ArgS (argv0 argv)] ;; exit EXIT_FAILURE
   else ret tt) ;;
  match (if optind <? 0 then None else nth_error argv (Z.to_nat optind)) with
  | None => fault
  | Some first =>
      l <- (if w_isdir W first then
              r <- load_images_from_dir W first [] ;;
              let '(status, l) := r in
              if negb (status =? 0) then
                eprintf ("Could not read directory." ++ String NL "") [] ;;
                exit 1
              else ret l
            else
              load_images_from_argv W (skipn (Z.to_nat optind) argv) []) ;;
      (if count l =? 0 then
         eprintf ("No images found." ++ String NL "") [] ;; exit 1
       else ret tt) ;;
      l <- generate_thumbnails W l ;;
      enable_raw_mode W ;;
      main_loop W fuel l grid_cols loop_start ;;
      disable_raw_mode ;;
      kitty_delete_all ;;
      remove_thumbnails l ;;
      printf clear_home [] ;;
      exit 0
  end.

(** ** Reference definitions

    What the specification names without the program defining it: the
    ceiling of a quotient, the visible row count, standard base64 and the
    shape of an inline-image control sequence.  They are written from the
    specification's words and compared with the program below. *)

(** [ceil(n / d)] *)
Definition ceil_div (n d : Z) : Z :=
  n / d + (if n mod d =? 0 then 0 else 1).

(** [visible_rows = max(1, terminal_rows / (cell_height + row_spacing))] *)
Definition visible_rows_spec (terminal_rows : Z) : Z :=
  Z.max 1 (terminal_rows / (THUMB_ROWS + SPACING_ROWS)).

Definition char_of (n : Z) : ascii := ascii_of_N (Z.to_N n).

(** The base64 alphabet [A-Z a-z 0-9 + /]. *)
Definition base64_char (k : Z) : ascii :=
  if k <? 26 then char_of (code "A" + k)
  else if k <? 52 then char_of (code "a" + (k - 26))
  else if k <? 62 then char_of (code "0" + (k - 52))
  else if k =? 62 then "+"%char
  else "/"%char.

Definition base64_value (c : ascii) : option Z :=
  let n := code c in
  if (code "A" <=? n) && (n <=? code "Z") then Some (n - code "A")
  else if (code "a" <=? n) && (n <=? code "z") then Some (n - code "a" + 26)
  else if (code "0" <=? n) && (n <=? code "9") then Some (n - code "0" + 52)
  else if n =? code "+" then Some 62
  else if n =? code "/" then Some 63
  else None.

(** Standard base64: each group of three bytes is a 24-bit number written
    as four 6-bit digits; a last group of one or two bytes is filled with
    zero bits and closed with [=] signs; no line breaks. *)
Fixpoint base64_encode (p : string) : string :=
  match p with
  | EmptyString => EmptyString
  | String a EmptyString =>
      let n := code a * 65536 in
      String (base64_char (n / 262144))
      (String (base64_char (n / 4096 mod 64)) "==")
  | String a (String b EmptyString) =>
      let n := code a * 65536 + code b * 256 in
      String (base64_char (n / 262144))
      (String (base64_char (n / 4096 mod 64))
      (String (base64_char (n / 64 mod 64)) "="))
  | String a (String b (String c rest)) =>
      let n := code a * 65536 + code b * 256 + code c in
      String (base64_char (n / 262144))
      (String (base64_char (n / 4096 mod 64))
      (String (base64_char (n / 64 mod 64))
      (String (base64_char (n mod 64)) (base64_encode rest))))
  end.

(** Standard base64 decoding; [None] on text that is not base64. *)
Fixpoint base64_decode (s : string) : option string :=
  match s with
  | EmptyString => Some EmptyString
  | String c0 (String c1 (String c2 (String c3 rest))) =>
      match base64_value c0, base64_value c1 with
      | Some v0, Some v1 =>
          if Ascii.eqb c3 "=" then
            match rest with
            | EmptyString =>
                if Ascii.eqb c2 "=" then
                  Some (String (char_of ((v0 * 64 + v1) / 16)) EmptyString)
                else
                  match base64_value c2 with
                  | Some v2 =>
                      let n := v0 * 4096 + v1 * 64 + v2 in
                      Some (String (char_of (n / 1024))
                           (String (char_of (n / 4 mod 256)) EmptyString))
                  | None => None
                  end
            | String _ _ => None
            end
          else
            match base64_value c2, base64_value c3, base64_decode rest with
            | Some v2, Some v3, Some t =>
                let n := v0 * 262144 + v1 * 4096 + v2 * 64 + v3 in
                Some (String (char_of (n / 65536))
                     (String (char_of (n / 256 mod 256))
                     (String (char_of (n mod 256)) t)))
            | _, _, _ => None
            end
      | _, _ => None
      end
  | _ => None
  end.

(** The prefix of an inline-image control sequence: [ESC _ G]. *)
Definition kitty_prefix : string := String ESC "_G".

(** [occurs pat s]: [pat] is a substring of [s]. *)
Fixpoint occurs (pat s : string) : bool :=
  prefix pat s ||
  match s with
  | EmptyString => false
  | String _ rest => occurs pat rest
  end.

(** What follows the first [c] in [s]. *)
Fixpoint after_char (c : ascii) (s : string) : option string :=
  match s with
  | EmptyString => None
  | String d rest => if Ascii.eqb d c then Some rest else after_char c rest
  end.

(** What precedes the first [c] in [s], and what follows it. *)
Fixpoint split_at_char (c : ascii) (s : string) : option (string * string) :=
  match s with
  | EmptyString => None
  | String d rest =>
      if Ascii.eqb d c then Some (EmptyString, rest)
      else match split_at_char c rest with
           | Some (before, after) => Some (String d before, after)
           | None => None
           end
  end.

(** The payload of a control sequence [ESC _ G <keys> ; <payload> ESC \]. *)
Definition kitty_payload (out : string) : option string :=
  if prefix kitty_prefix out then
    match after_char ";" out with
    | Some t =>
        match split_at_char ESC t with
        | Some (payload, String "\"%char EmptyString) => Some payload
        | _ => None
        end
    | None => None
    end
  else None.

(** A character that shows on the screen. *)
Definition visible_char (c : ascii) : bool :=
  (33 <=? code c) && (code c <=? 126).

Fixpoint all_chars (f : ascii -> bool) (s : string) : bool :=
  match s with
  | EmptyString => true
  | String c rest => f c && all_chars f rest
  end.

(** The offset that lines 363-369 leave, and the one the whole of
    [adjust_scroll_for_selection] leaves, as functions of what they read. *)
Definition clamped (total visible so : Z) : Z :=
  let so := if so <? 0 then 0 else so in
  let so := if so >? int_sub total visible then int_sub total visible else so in
  if so <? 0 then 0 else so.

Definition adjusted (total visible sel_row so : Z) : Z :=
  clamped total visible
    (if sel_row <? so then sel_row
     else if sel_row >=? int_add so visible
          then int_add (int_sub sel_row visible) 1
          else so).

(** The scroll-into-view rule of the specification, on unbounded integers. *)
Definition scroll_into_view (visible sel_row so : Z) : Z :=
  if sel_row <? so then sel_row
  else if sel_row >=? so + visible then sel_row - visible + 1
  else so.

(** The wire format of the specification:
    [ESC _ G a=T,f=100,t=f,c=<cols>,r=<rows>,C=1 ; <payload> ESC \] for a
    display and [ESC _ G a=d ESC \] for clearing every image. *)
Definition kitty_display_bytes (cols rows : Z) (payload : string) : string :=
  String ESC "_Ga=T,f=100,t=f,c=" ++ fmt_d cols ++ ",r=" ++ fmt_d rows
  ++ ",C=1;" ++ payload ++ String ESC "\".

Definition kitty_clear_bytes : string := String ESC "_Ga=d" ++ String ESC "\".

Definition not_esc (c : ascii) : bool := negb (Ascii.eqb c ESC).

(** [only_draws s s']: [s'] differs from [s] at most in what standard
    output holds and in how many allocations and window-size queries were
    made. *)
Definition only_draws (s s' : State) : Prop :=
  stderr s' = stderr s /\ scroll_offset s' = scroll_offset s /\
  raw_mode s' = raw_mode s /\ atexit_hook s' = atexit_hook s /\
  reads s' = reads s /\ systems s' = systems s /\ removed s' = removed s.

(** Every option [getopt] returned is [-c]. *)
Definition options_accepted (opts : list (Z * string)) : bool :=
  forallb (fun o => fst o =? code "c") opts.

(** [name] is listed from the directory [dir]: it is not hidden and is a
    regular file. *)
Definition shown (W : World) (dir name : string) : bool :=
  negb (is_hidden name)
  && w_isreg W (snprintf 4096 "%s/%s" [ArgS dir; ArgS name]).

(** The process ended before any user interface: the exit status is
    [status], standard error holds [msg], nothing is on standard output, the
    terminal mode is untouched. *)
Definition exits_with (r : Res Z) (status : Z) (msg : string) : Prop :=
  exists s',
    r = Exit status s' /\ stderr s' = msg /\
    stdout s' = "" /\ raw_mode s' = false.

(** ** Notions of the further properties

    What the statements on loading, thumbnails, termination and the
    drawn frame are written with. *)

(** A byte other than ['/']. *)
Definition not_slash (c : ascii) : bool := negb (Ascii.eqb c "/").

(** The columns option [-c optarg] selects (lines 525-527). *)
Definition columns_of (optarg : string) : Z :=
  if atoi optarg <? 1 then 4 else atoi optarg.

(** The column count the option loop leaves (lines 519-533). *)
Definition chosen_columns (opts : list (Z * string)) : Z :=
  match opts with
  | [] => 4
  | _ => columns_of (snd (last opts (0, "")))
  end.

(** The entry [add_image_entry] appends for [path] (lines 115-117). *)
Definition fresh_entry (path : string) : ImageEntry := mkEntry path None false.

(** The path of a directory entry (line 146). *)
Definition dir_entry_path (dir name : string) : string :=
  snprintf 4096 "%s/%s" [ArgS dir; ArgS name].

(** The thumbnail file of an image (line 182). *)
Definition thumb_tmp (orig : string) : string :=
  snprintf 4096 "%s/iv_%s.thumb.png" [ArgS TMP_DIR; ArgS (file_name orig)].

(** The focus image of an image (line 213). *)
Definition focus_tmp (orig : string) : string :=
  snprintf 4096 "%s/iv_%s.focus.png" [ArgS TMP_DIR; ArgS (file_name orig)].

(** What the thumbnail loop may leave of an entry [e]: a generated
    thumbnail, the entry as it was (the converter failed), or no thumbnail
    (the path could not be duplicated). *)
Definition thumb_outcome (e e' : ImageEntry) : Prop :=
  original_path e' = original_path e /\
  ((generated e' = true /\ thumb_path e' = Some (thumb_tmp (original_path e))) \/
   (generated e' = generated e /\ thumb_path e' = thumb_path e) \/
   (generated e' = generated e /\ thumb_path e' = None)).

(** The thumbnails [remove_thumbnails] removes (line 507). *)
Definition owned_thumbs (l : ImageList) : list string :=
  flat_map (fun e => match generated e, thumb_path e with
                     | true, Some p => [p]
                     | _, _ => []
                     end) l.

(** The terminal is in its original mode, or [disable_raw_mode] is
    registered to restore it. *)
Definition tty_ok (s : State) : Prop :=
  atexit_hook s = true \/ raw_mode s = false.

(** [c] leaves the terminal restorable when it returns and restored when it
    ends the process. *)
Definition restores {A : Type} (c : M A) : Prop :=
  forall s, tty_ok s ->
    match c s with
    | Ret _ s' => tty_ok s'
    | Exit _ s' => raw_mode s' = false
    | Fault _ => True
    | OutOfFuel => True
    end.

(** [c] ends the process with no status but [EXIT_FAILURE]. *)
Definition fails_only {A : Type} (c : M A) : Prop :=
  forall s status s', c s = Exit status s' -> status = EXIT_FAILURE.

(** A bound on the turns of the main loop still to come when standard input
    ends after [N] reads. *)
Definition turns_left (N : nat) (v : LoopVars) (s : State) : nat :=
  if running v =? 0 then 1
  else 3 * (N - reads s)
       + match mode v with MODE_FOCUS => 2 | MODE_GRID => 0 end + 2.

(** The parts one after the other. *)
Definition join (parts : list string) : string := fold_right append "" parts.

(** [ESC [ row ; col H] *)
Definition cursor_bytes (row col : Z) : string :=
  String ESC "[" ++ fmt_d row ++ ";" ++ fmt_d col ++ "H".

(** What [display_thumbnail_kitty] writes when the path is encoded. *)
Definition thumb_bytes (thumb : option string) : string :=
  match thumb with
  | Some path => kitty_display_bytes THUMB_COLS THUMB_ROWS (base64_encode path)
  | None => "[?]"
  end.

(** Item [i]: the cursor at the top left of its cell, its thumbnail, and a
    star in the spacing row below when it is the selected one. *)
Definition cell_bytes (l : ImageList) (grid_cols selected start_row i : Z)
    : string :=
  let screen_row :=
    (i / grid_cols - start_row) * (THUMB_ROWS + SPACING_ROWS) + 1 in
  let screen_col := (i mod grid_cols) * (THUMB_COLS + SPACING_COLS) + 1 in
  cursor_bytes screen_row screen_col
  ++ thumb_bytes (match entry_at l i with
                  | Some e => thumb_path e
                  | None => None
                  end)
  ++ (if i =? selected
      then cursor_bytes (screen_row + THUMB_ROWS)
                        (screen_col + THUMB_COLS / 2) ++ "*"
      else "").

(** [first], [first + 1], ..., [last - 1] *)
Definition indices (first last : Z) : list Z :=
  map (fun k => first + Z.of_nat k) (seq 0 (Z.to_nat (last - first))).

(** What one call of [render_grid] writes, for a terminal of [ws_row] rows
    and a scroll offset [so] before the call. *)
Definition frame_bytes (l : ImageList) (grid_cols selected ws_row so : Z)
    : string :=
  let visible := visible_rows_spec ws_row in
  let total := ceil_div (count l) grid_cols in
  let start_row := Z.max 0 (Z.min so (total - visible)) in
  let end_row := Z.min total (start_row + visible) in
  clear_home
  ++ join (map (cell_bytes l grid_cols selected start_row)
               (indices (start_row * grid_cols)
                        (Z.min (count l) (end_row * grid_cols))))
  ++ cursor_bytes (Z.min (visible * (THUMB_ROWS + SPACING_ROWS) + 1) ws_row) 1
  ++ match entry_at l selected with
     | Some e => "Selected: " ++ original_path e
     | None => ""
     end
  ++ String NL ""
  ++ "[h/l/j/k: move | Enter=focus | q=quit]" ++ String NL "".

(** ** Sample inputs *)

(** Standard input holding the bytes of [ks], then end of input. *)
Definition keys (ks : string) : nat -> option ascii := fun n => String.get n ks.

(** A world whose terminal has [rows] rows and 80 columns, whose converter
    exits with [status], and whose keyboard sends [ks]. *)
Definition sample_world (ks : string) (rows status : Z) : World :=
  mkWorld [] 1 (fun _ => false) (fun _ => None) (fun _ => true)
          "No such file or directory" true true
          (fun _ _ => status) (keys ks) (fun _ => Some (rows, 80))
          (fun _ => true).

Definition sample_entry : ImageEntry :=
  mkEntry "pics/a.png" (Some "/tmp/iv_a.png.thumb.png") true.

Definition sample_list (n : nat) : ImageList := repeat sample_entry n.

(** A world where the first argument names a directory that cannot be
    opened. *)
Definition unreadable_dir_world : World :=
  mkWorld [] 1 (fun _ => true) (fun _ => None) (fun _ => true)
          "Permission denied" true true
          (fun _ _ => 0) (keys "q") (fun _ => Some (24, 80)) (fun _ => true).

(** A world where the first argument names a directory that holds no
    image: hidden entries and a subdirectory. *)
Definition empty_dir_world : World :=
  mkWorld [] 1 (fun _ => true) (fun _ => Some [".."; ".git"; "sub"])
          (fun _ => false)
          "" true true
          (fun _ _ => 0) (keys "q") (fun _ => Some (24, 80)) (fun _ => true).

(** A world where only the first allocation succeeds. *)
Definition scarce_memory_world : World :=
  mkWorld [] 1 (fun _ => false) (fun _ => None) (fun _ => true)
          "Cannot allocate memory" true true
          (fun _ _ => 0) (keys "q") (fun _ => Some (24, 80))
          (fun n => Nat.eqb n 0).

(** A world whose directories hold two images, a hidden file, the parent
    entry and a subdirectory. *)
Definition listing_world : World :=
  mkWorld [] 1 (fun _ => true)
          (fun _ => Some [".."; "b.png"; ".hidden"; "sub"; "a.png"])
          (fun p => negb (String.eqb p "pics/sub"))
          "" true true (fun _ _ => 0) (keys "q") (fun _ => Some (24, 80))
          (fun _ => true).

(** A world whose converter fails on its second run only. *)
Definition flaky_converter_world : World :=
  mkWorld [] 1 (fun _ => false) (fun _ => None) (fun _ => true)
          "" true true (fun n _ => if Nat.eqb n 1 then 1 else 0)
          (keys "q") (fun _ => Some (24, 80)) (fun _ => true).

(** A world whose standard input is no terminal. *)
Definition no_terminal_world : World :=
  mkWorld [] 1 (fun _ => false) (fun _ => None) (fun _ => true)
          "Inappropriate ioctl for device" false true
          (fun _ _ => 0) (keys "") (fun _ => Some (24, 80)) (fun _ => true).

(** The run [iv -c 2147483647 a.png b.png] with the keys ['l'], ['j'] and
    Enter. *)
Definition overflow_world : World :=
  mkWorld [(code "c", "2147483647")] 3 (fun _ => false) (fun _ => None)
          (fun _ => true) "" true true
          (fun _ _ => 0) (keys ("lj" ++ String NL "")) (fun _ => Some (24, 80))
          (fun _ => true).

(** * Proofs *)

(** ** C integers *)

Ltac int_range := unfold is_int, INT_MIN, INT_MAX in *; lia.

Ltac no_if t :=
  lazymatch t with
  | context [if _ then _ else _] => fail
  | _ => idtac
  end.

(** Case analysis on the comparisons that guard the conditionals of the
    goal, innermost first. *)
Ltac split_ifs :=
  repeat (cbv beta iota zeta;
          match goal with
          | |- context [?a >? ?b] => rewrite (Z.gtb_ltb a b)
          | |- context [?a >=? ?b] => rewrite (Z.geb_leb a b)
          | |- context [if ?a <? ?b then _ else _] =>
              no_if a; no_if b; destruct (Z.ltb_spec a b)
          | |- context [if ?a <=? ?b then _ else _] =>
              no_if a; no_if b; destruct (Z.leb_spec a b)
          | |- context [if ?a =? ?b then _ else _] =>
              no_if a; no_if b; destruct (Z.eqb_spec a b)
          end).

Lemma to_int_id z : is_int z -> to_int z = z.
Proof.
  unfold is_int, INT_MIN, INT_MAX, to_int. intros H.
  rewrite Z.mod_small by lia. lia.
Qed.

Lemma to_int_above z :
  INT_MAX < z <= INT_MAX + 4294967296 -> to_int z = z - 4294967296.
Proof.
  unfold INT_MAX, to_int. intros H.
  replace (z + 2147483648) with (z - 2147483648 + 1 * 4294967296) by lia.
  rewrite Z.mod_add by lia. rewrite Z.mod_small by lia. lia.
Qed.

Lemma to_int_range z : is_int (to_int z).
Proof.
  unfold is_int, INT_MIN, INT_MAX, to_int.
  pose proof (Z.mod_pos_bound (z + 2147483648) 4294967296). lia.
Qed.

Lemma to_size_t_id z : 0 <= z < 18446744073709551616 -> to_size_t z = z.
Proof. intros H. unfold to_size_t. now rewrite Z.mod_small. Qed.

Lemma to_ushort_range z : 0 <= to_ushort z < 65536.
Proof. unfold to_ushort. apply Z.mod_pos_bound. lia. Qed.

(** ** Grid geometry *)

Lemma ws_row_of_range a : 0 <= ws_row_of a < 65536.
Proof.
  destruct a as [[r c]|]; simpl; [apply to_ushort_range | lia].
Qed.

Lemma visible_rows_eq r :
  0 <= r < 65536 -> visible_rows r = visible_rows_spec r.
Proof.
  intros H. unfold visible_rows, visible_rows_spec, THUMB_ROWS, SPACING_ROWS.
  change (int_add 5 1) with 6. change (5 + 1) with 6.
  change (6 <? 1) with false. cbv iota.
  unfold int_div. rewrite Z.quot_div_nonneg by lia.
  assert (0 <= r / 6 < 10923).
  { split; [apply Z.div_pos; lia | apply Z.div_lt_upper_bound; lia]. }
  rewrite to_int_id by int_range.
  destruct (Z.ltb_spec (r / 6) 1); lia.
Qed.

Lemma visible_rows_range r : 0 <= r < 65536 -> 1 <= visible_rows r <= 10922.
Proof.
  intros H. rewrite visible_rows_eq by assumption. unfold visible_rows_spec.
  change (THUMB_ROWS + SPACING_ROWS) with 6.
  assert (0 <= r / 6 < 10923).
  { split; [apply Z.div_pos; lia | apply Z.div_lt_upper_bound; lia]. }
  lia.
Qed.

Lemma ceil_div_sum n d : 0 <= n -> 0 < d -> (n + d - 1) / d = ceil_div n d.
Proof.
  intros Hn Hd. unfold ceil_div.
  pose proof (Z.div_mod n d ltac:(lia)) as E.
  pose proof (Z.mod_pos_bound n d Hd) as B.
  destruct (Z.eqb_spec (n mod d) 0) as [Z0|NZ].
  - symmetry. apply Z.div_unique with (r := d - 1); lia.
  - symmetry. apply Z.div_unique with (r := n mod d - 1); lia.
Qed.

Lemma ceil_div_bounds n d :
  0 <= n -> 0 < d -> (ceil_div n d - 1) * d < n <= ceil_div n d * d.
Proof.
  intros Hn Hd. unfold ceil_div.
  pose proof (Z.div_mod n d ltac:(lia)) as E.
  pose proof (Z.mod_pos_bound n d Hd) as B.
  destruct (Z.eqb_spec (n mod d) 0); nia.
Qed.

Lemma ceil_div_range n d : 0 <= n -> 0 < d -> 0 <= ceil_div n d <= n.
Proof.
  intros Hn Hd. pose proof (ceil_div_bounds n d Hn Hd).
  split; nia.
Qed.

Lemma count_nonneg l : 0 <= count l.
Proof. unfold count. lia. Qed.

Lemma total_rows_eq l cols :
  0 < cols <= INT_MAX -> count l <= INT_MAX ->
  total_rows l cols = ceil_div (count l) cols.
Proof.
  intros Hc Hn. pose proof (count_nonneg l) as H0.
  unfold INT_MAX in *. unfold total_rows.
  rewrite (to_size_t_id cols) by lia.
  rewrite (to_size_t_id (count l + cols)) by lia.
  rewrite to_size_t_id by lia.
  rewrite ceil_div_sum by lia.
  apply to_int_id. pose proof (ceil_div_range (count l) cols H0 ltac:(lia)).
  int_range.
Qed.

Lemma total_rows_range l cols :
  0 < cols <= INT_MAX -> count l <= INT_MAX ->
  0 <= total_rows l cols <= INT_MAX.
Proof.
  intros Hc Hn. rewrite total_rows_eq by assumption.
  pose proof (ceil_div_range (count l) cols (count_nonneg l) ltac:(lia)). lia.
Qed.

Lemma row_of_eq i cols :
  0 <= i <= INT_MAX -> 0 < cols -> row_of i cols = i / cols.
Proof.
  intros Hi Hc. unfold row_of, int_div. rewrite Z.quot_div_nonneg by lia.
  apply to_int_id. unfold is_int, INT_MIN, INT_MAX in *.
  split; [pose proof (Z.div_pos i cols); lia|].
  assert (i / cols <= i) by (apply Z.div_le_upper_bound; nia). lia.
Qed.

Lemma col_of_eq i cols :
  0 <= i <= INT_MAX -> 0 < cols -> col_of i cols = i mod cols.
Proof.
  intros Hi Hc. unfold col_of, int_rem. rewrite Z.rem_mod_nonneg by lia.
  apply to_int_id. pose proof (Z.mod_pos_bound i cols Hc).
  assert (i mod cols <= i) by (apply Z.mod_le; lia). int_range.
Qed.

Lemma row_below_total n d i :
  0 < d -> 0 <= i < n -> 0 <= i / d < ceil_div n d.
Proof.
  intros Hd Hi. pose proof (ceil_div_bounds n d ltac:(lia) Hd) as B.
  split; [apply Z.div_pos; lia|].
  apply Z.div_lt_upper_bound; [lia|]. nia.
Qed.

(** ** Scrolling *)

Lemma clamp_scroll_run total visible s :
  clamp_scroll total visible s
  = Ret tt (set_scroll_offset (clamped total visible (scroll_offset s)) s).
Proof.
  unfold clamp_scroll, clamped, bind, get_scroll, put_scroll, ret.
  destruct s as [o e so r a rd io sy al rm]; cbn.
  destruct (so <? 0); cbn;
    repeat match goal with
           | |- context [if ?b then _ else _] => destruct b; cbn
           end; reflexivity.
Qed.

Lemma adjust_scroll_run W l selected grid_cols s :
  adjust_scroll_for_selection W l selected grid_cols s
  = Ret tt
      (set_scroll_offset
         (adjusted (total_rows l grid_cols)
                   (visible_rows (ws_row_of (w_ioctl W (ioctls s))))
                   (row_of selected grid_cols) (scroll_offset s))
         (set_ioctls (S (ioctls s)) s)).
Proof.
  unfold adjust_scroll_for_selection, adjusted.
  unfold bind at 1. unfold sys_ioctl. unfold bind at 1. unfold get_scroll at 1.
  cbn [scroll_offset set_ioctls].
  set (vis := visible_rows _). set (tot := total_rows _ _).
  set (sr := row_of _ _).
  unfold bind.
  destruct (sr <? scroll_offset s);
    [|destruct (sr >=? int_add (scroll_offset s) vis)];
    cbn [put_scroll ret]; rewrite clamp_scroll_run; destruct s; reflexivity.
Qed.

Lemma clamped_eq total visible x :
  0 <= total <= INT_MAX -> 1 <= visible <= 10922 ->
  clamped total visible x = Z.max 0 (Z.min x (total - visible)).
Proof.
  intros Ht Hv. unfold clamped, int_sub.
  rewrite (to_int_id (total - visible)) by int_range.
  split_ifs; lia.
Qed.

Lemma adjusted_eq total visible sel_row so :
  0 <= total <= INT_MAX -> 1 <= visible <= 10922 ->
  is_int sel_row -> is_int so -> so + visible <= INT_MAX ->
  adjusted total visible sel_row so
  = Z.max 0 (Z.min (scroll_into_view visible sel_row so) (total - visible)).
Proof.
  intros Ht Hv Hs Hso Hsum. unfold adjusted. rewrite clamped_eq by assumption.
  unfold scroll_into_view, int_add, int_sub.
  rewrite (to_int_id (so + visible)) by int_range.
  destruct (Z.ltb_spec sel_row so); [reflexivity|].
  rewrite Z.geb_leb. destruct (Z.leb_spec (so + visible) sel_row); [|reflexivity].
  rewrite (to_int_id (sel_row - visible)) by int_range.
  rewrite (to_int_id (sel_row - visible + 1)) by int_range.
  reflexivity.
Qed.

Lemma adjusted_range total visible sel_row so :
  0 <= total <= INT_MAX -> 1 <= visible <= 10922 ->
  0 <= adjusted total visible sel_row so <= Z.max 0 (total - visible).
Proof.
  intros Ht Hv. unfold adjusted. rewrite clamped_eq by assumption. lia.
Qed.

Lemma adjusted_invariant total visible sel_row so :
  0 <= total <= INT_MAX -> 1 <= visible <= 10922 -> 0 <= sel_row < total ->
  is_int so ->
  let so' := adjusted total visible sel_row so in
  0 <= so' <= Z.max 0 (total - visible) /\ so' <= sel_row < so' + visible.
Proof.
  intros Ht Hv Hs Hso. cbv zeta. unfold adjusted.
  rewrite clamped_eq by assumption. unfold int_add, int_sub.
  destruct (Z.ltb_spec sel_row so) as [H1|H1]; [int_range|].
  rewrite Z.geb_leb.
  destruct (Z_le_gt_dec (so + visible) INT_MAX) as [Hle|Hgt].
  - rewrite (to_int_id (so + visible)) by int_range.
    destruct (Z.leb_spec (so + visible) sel_row) as [H2|H2]; [|int_range].
    rewrite (to_int_id (sel_row - visible)) by int_range.
    rewrite (to_int_id (sel_row - visible + 1)) by int_range.
    int_range.
  - rewrite (to_int_above (so + visible)) by int_range.
    destruct (Z.leb_spec (so + visible - 4294967296) sel_row) as [H2|H2];
      [|int_range].
    rewrite (to_int_id (sel_row - visible)) by int_range.
    rewrite (to_int_id (sel_row - visible + 1)) by int_range.
    int_range.
Qed.

Lemma adjusted_idempotent total visible sel_row so :
  0 <= total <= INT_MAX -> 1 <= visible <= 10922 -> is_int sel_row ->
  is_int so ->
  adjusted total visible sel_row (adjusted total visible sel_row so)
  = adjusted total visible sel_row so.
Proof.
  intros Ht Hv Hs Hso.
  pose proof (adjusted_range total visible sel_row so Ht Hv) as R.
  rewrite adjusted_eq by int_range.
  revert R. unfold adjusted at 1 2 3 4. rewrite clamped_eq by assumption.
  unfold int_add, int_sub, scroll_into_view.
  destruct (Z.ltb_spec sel_row so) as [H1|H1].
  { intros R. split_ifs; lia. }
  rewrite Z.geb_leb.
  destruct (Z_le_gt_dec (so + visible) INT_MAX) as [Hle|Hgt].
  - rewrite (to_int_id (so + visible)) by int_range.
    destruct (Z.leb_spec (so + visible) sel_row) as [H2|H2].
    + rewrite (to_int_id (sel_row - visible)) by int_range.
      rewrite (to_int_id (sel_row - visible + 1)) by int_range.
      intros R. split_ifs; lia.
    + intros R. split_ifs; lia.
  - rewrite (to_int_above (so + visible)) by int_range.
    destruct (Z.leb_spec (so + visible - 4294967296) sel_row) as [H2|H2];
      [|int_range].
    rewrite (to_int_id (sel_row - visible)) by int_range.
    rewrite (to_int_id (sel_row - visible + 1)) by int_range.
    intros R. split_ifs; lia.
Qed.

(** ** Claims on the layout

    Throughout, item counts and column counts fit an [int], the type the
    program gives them. *)

(** C1.  For every item count, column count above zero, valid selected
    index, terminal height and prior scroll offset,
    [adjust_scroll_for_selection] returns, and afterwards
    [0 <= scroll_offset <= max(0, total_rows - visible_rows)] and the row of
    the selected item lies in
    [[scroll_offset, scroll_offset + visible_rows)]. *)
Theorem scroll_invariant (W : World) (l : ImageList) (selected grid_cols : Z)
    (s : State) :
  0 < grid_cols <= INT_MAX ->
  count l <= INT_MAX ->
  0 <= selected < count l ->
  is_int (scroll_offset s) ->
  exists s',
    adjust_scroll_for_selection W l selected grid_cols s = Ret tt s' /\
    let visible := visible_rows_spec (ws_row_of (w_ioctl W (ioctls s))) in
    let total := ceil_div (count l) grid_cols in
    let sel_row := selected / grid_cols in
    0 <= scroll_offset s' <= Z.max 0 (total - visible) /\
    scroll_offset s' <= sel_row < scroll_offset s' + visible.
Proof.
  intros Hc Hn Hsel Hso. eexists. split; [apply adjust_scroll_run|].
  cbv zeta. destruct s as [o e so r a rd io sy al rm]; cbn in *.
  pose proof (ws_row_of_range (w_ioctl W io)) as Hr.
  rewrite <- visible_rows_eq by assumption.
  rewrite <- total_rows_eq by assumption.
  rewrite <- row_of_eq by lia.
  apply adjusted_invariant.
  - apply total_rows_range; assumption.
  - apply visible_rows_range; assumption.
  - rewrite row_of_eq by lia. rewrite total_rows_eq by assumption.
    apply row_below_total; lia.
  - assumption.
Qed.

Lemma scroll_invariant_witness :
  exists s',
    adjust_scroll_for_selection (sample_world "" 13 0) (sample_list 10) 9 4
      initial_state = Ret tt s' /\
    0 <= scroll_offset s' <= 1 /\ scroll_offset s' <= 2 < scroll_offset s' + 2.
Proof.
  destruct (scroll_invariant (sample_world "" 13 0) (sample_list 10) 9 4
              initial_state) as [s' [E H]].
  - unfold INT_MAX; lia.
  - vm_compute; discriminate.
  - vm_compute; split; [discriminate | reflexivity].
  - vm_compute; split; discriminate.
  - exists s'. split; [exact E | exact H].
Defined.

(** C2.  [adjust_scroll_for_selection] follows the minimal-scroll rule:
    with [sel_row = selected / columns], the offset moves to [sel_row] when
    [sel_row < scroll_offset], to [sel_row - visible_rows + 1] when
    [sel_row >= scroll_offset + visible_rows], and stays otherwise; the
    result is that value clamped into [[0, max(0, total - visible)]].  With
    10 items, 4 columns, item 9 selected, 2 visible rows and offset 0 the
    new offset is 1.  The prior offset is one whose sum with the visible
    rows fits an [int]. *)
Theorem scroll_minimal_rule (W : World) (l : ImageList)
    (selected grid_cols : Z) (s : State) :
  let so := scroll_offset s in
  let visible := visible_rows_spec (ws_row_of (w_ioctl W (ioctls s))) in
  let total := ceil_div (count l) grid_cols in
  let sel_row := selected / grid_cols in
  0 < grid_cols <= INT_MAX ->
  count l <= INT_MAX ->
  0 <= selected <= INT_MAX ->
  INT_MIN <= so /\ so + visible <= INT_MAX ->
  exists moved s',
    (sel_row < so -> moved = sel_row) /\
    (so + visible <= sel_row -> moved = sel_row - visible + 1) /\
    (so <= sel_row < so + visible -> moved = so) /\
    adjust_scroll_for_selection W l selected grid_cols s = Ret tt s' /\
    scroll_offset s' = Z.max 0 (Z.min moved (total - visible)) /\
    (count l = 10 -> grid_cols = 4 -> selected = 9 -> visible = 2 -> so = 0 ->
     scroll_offset s' = 1).
Proof.
  intros so visible total sel_row Hc Hn Hsel Hso.
  exists (scroll_into_view visible sel_row so). eexists.
  assert (Hv : 1 <= visible <= 10922).
  { unfold visible. rewrite <- visible_rows_eq by apply ws_row_of_range.
    apply visible_rows_range, ws_row_of_range. }
  assert (Hrun : scroll_offset
            (set_scroll_offset
               (adjusted (total_rows l grid_cols)
                  (visible_rows (ws_row_of (w_ioctl W (ioctls s))))
                  (row_of selected grid_cols) (scroll_offset s))
               (set_ioctls (S (ioctls s)) s))
          = Z.max 0 (Z.min (scroll_into_view visible sel_row so) (total - visible))).
  { cbn [scroll_offset set_scroll_offset].
    rewrite visible_rows_eq by apply ws_row_of_range.
    rewrite total_rows_eq by assumption. rewrite row_of_eq by lia.
    apply adjusted_eq.
    - pose proof (ceil_div_range (count l) grid_cols (count_nonneg l)
                    ltac:(lia)). fold total. lia.
    - exact Hv.
    - fold sel_row. pose proof (Z.div_pos selected grid_cols).
      assert (selected / grid_cols <= selected)
        by (apply Z.div_le_upper_bound; nia). int_range.
    - fold so visible. int_range.
    - fold so visible. lia. }
  repeat split.
  - unfold scroll_into_view. intros H. split_ifs; lia.
  - unfold scroll_into_view. intros H. split_ifs; lia.
  - unfold scroll_into_view. intros H. split_ifs; lia.
  - apply adjust_scroll_run.
  - exact Hrun.
  - intros E1 E2 E3 E4 E5. rewrite Hrun. unfold total, sel_row.
    rewrite E1, E2, E3, E4, E5. reflexivity.
Qed.

Lemma scroll_minimal_rule_witness :
  exists s',
    adjust_scroll_for_selection (sample_world "" 13 0) (sample_list 10) 9 4
      initial_state = Ret tt s' /\
    scroll_offset s' = 1.
Proof.
  destruct (scroll_minimal_rule (sample_world "" 13 0) (sample_list 10) 9 4
              initial_state) as [moved [s' [_ [_ [_ [E [_ A]]]]]]].
  - unfold INT_MAX; lia.
  - vm_compute; discriminate.
  - unfold INT_MAX; lia.
  - vm_compute; split; discriminate.
  - exists s'. split; [exact E | apply A; reflexivity].
Defined.

(** C8.  [adjust_scroll_for_selection] is idempotent: a second call with
    the same items, columns, selection and terminal height leaves the
    offset of the first call, and a call changes nothing but the offset
    (and the number of window-size queries made). *)
Theorem scroll_idempotent (W : World) (l : ImageList)
    (selected grid_cols : Z) (s : State) :
  0 < grid_cols <= INT_MAX ->
  count l <= INT_MAX ->
  is_int (scroll_offset s) ->
  ws_row_of (w_ioctl W (S (ioctls s))) = ws_row_of (w_ioctl W (ioctls s)) ->
  exists s1 s2,
    adjust_scroll_for_selection W l selected grid_cols s = Ret tt s1 /\
    adjust_scroll_for_selection W l selected grid_cols s1 = Ret tt s2 /\
    scroll_offset s2 = scroll_offset s1 /\
    s1 = set_scroll_offset (scroll_offset s1) (set_ioctls (S (ioctls s)) s).
Proof.
  intros Hc Hn Hso Hws. eexists. eexists.
  split; [apply adjust_scroll_run|].
  split; [apply adjust_scroll_run|].
  split; [|reflexivity].
  cbn [scroll_offset ioctls set_scroll_offset set_ioctls].
  rewrite Hws. apply adjusted_idempotent.
  - apply total_rows_range; assumption.
  - apply visible_rows_range, ws_row_of_range.
  - apply to_int_range.
  - assumption.
Qed.

Lemma scroll_idempotent_witness :
  exists s1 s2,
    adjust_scroll_for_selection (sample_world "" 13 0) (sample_list 10) 9 4
      initial_state = Ret tt s1 /\
    adjust_scroll_for_selection (sample_world "" 13 0) (sample_list 10) 9 4
      s1 = Ret tt s2 /\
    scroll_offset s2 = scroll_offset s1.
Proof.
  destruct (scroll_idempotent (sample_world "" 13 0) (sample_list 10) 9 4
              initial_state) as [s1 [s2 [E1 [E2 [E3 _]]]]].
  - unfold INT_MAX; lia.
  - vm_compute; discriminate.
  - vm_compute; split; discriminate.
  - reflexivity.
  - exists s1, s2. repeat split; assumption.
Defined.

(** C4.  For every item count and every column count above zero,
    [total_rows] is the ceiling of [item_count / columns], and every item
    index [i] has the position [(i / columns, i % columns)], which is inside
    the grid, is mapped back to [i] by [row * columns + col], and is the
    only position that is. *)
Theorem grid_geometry (l : ImageList) (grid_cols : Z) :
  0 < grid_cols <= INT_MAX ->
  count l <= INT_MAX ->
  let total := total_rows l grid_cols in
  total = ceil_div (count l) grid_cols /\
  (total - 1) * grid_cols < count l <= total * grid_cols /\
  forall i, 0 <= i < count l ->
    let row := row_of i grid_cols in
    let col := col_of i grid_cols in
    row = i / grid_cols /\ col = i mod grid_cols /\
    0 <= row < total /\ 0 <= col < grid_cols /\
    grid_index row grid_cols col = i /\
    row * grid_cols + col = i /\
    forall r c, 0 <= c < grid_cols -> r * grid_cols + c = i ->
                r = row /\ c = col.
Proof.
  intros Hc Hn total.
  assert (Et : total = ceil_div (count l) grid_cols)
    by (apply total_rows_eq; assumption).
  pose proof (ceil_div_bounds (count l) grid_cols (count_nonneg l) ltac:(lia))
    as B.
  split; [exact Et|]. split; [rewrite Et; exact B|].
  intros i Hi row col. unfold row, col.
  rewrite row_of_eq, col_of_eq by lia.
  pose proof (Z.div_mod i grid_cols ltac:(lia)) as E.
  pose proof (Z.mod_pos_bound i grid_cols ltac:(lia)) as M.
  pose proof (row_below_total (count l) grid_cols i ltac:(lia) Hi) as R.
  split; [reflexivity|]. split; [reflexivity|].
  split; [rewrite Et; exact R|]. split; [exact M|].
  assert (Hmul : 0 <= i / grid_cols * grid_cols <= i) by nia.
  split.
  { unfold grid_index, int_add, int_mul.
    rewrite (to_int_id (i / grid_cols * grid_cols)) by int_range.
    rewrite to_int_id by int_range. lia. }
  split; [lia|].
  intros r c Hcc Hrc. split.
  - apply Z.div_unique with (r := c); lia.
  - apply Z.mod_unique with (q := r); lia.
Qed.

Lemma grid_geometry_witness :
  total_rows (sample_list 10) 4 = 3 /\
  row_of 9 4 = 2 /\ col_of 9 4 = 1 /\ grid_index 2 4 1 = 9.
Proof.
  destruct (grid_geometry (sample_list 10) 4) as [E [_ H]].
  - unfold INT_MAX; lia.
  - vm_compute; discriminate.
  - split; [exact E|].
    destruct (H 9) as [_ [_ [_ [_ [G _]]]]].
    + vm_compute; split; [discriminate | reflexivity].
    + split; [reflexivity|]. split; [reflexivity|]. exact G.
Defined.

(** ** Navigation *)

Lemma same_row_left i cols :
  0 <= i -> 0 < cols -> 0 < i mod cols -> (i - 1) / cols = i / cols.
Proof.
  intros Hi Hc Hm. symmetry.
  pose proof (Z.div_mod i cols ltac:(lia)).
  pose proof (Z.mod_pos_bound i cols Hc).
  apply Z.div_unique with (r := i mod cols - 1); lia.
Qed.

Lemma same_row_right i cols :
  0 <= i -> 0 < cols -> i mod cols < cols - 1 -> (i + 1) / cols = i / cols.
Proof.
  intros Hi Hc Hm. symmetry.
  pose proof (Z.div_mod i cols ltac:(lia)).
  pose proof (Z.mod_pos_bound i cols Hc).
  apply Z.div_unique with (r := i mod cols + 1); lia.
Qed.

(** The navigation laws of the grid keys.  They hold for every key; for
    ['j'] they need the sum [selected + grid_cols] of line 597 to fit an
    [int]. *)
Lemma grid_key_laws (l : ImageList) (grid_cols ch : Z) (v : LoopVars) :
  0 < grid_cols <= INT_MAX ->
  count l <= INT_MAX ->
  0 <= selected v < count l ->
  (ch = code "j" -> selected v + grid_cols <= INT_MAX) ->
  let v' := grid_key l grid_cols ch v in
  0 <= selected v' < count l /\
  (selected v = 0 -> ch = code "h" \/ ch = code "k" -> v' = v) /\
  (selected v = count l - 1 -> ch = code "l" \/ ch = code "j" -> v' = v) /\
  (ch = code "h" \/ ch = code "l" ->
   selected v' / grid_cols = selected v / grid_cols).
Proof.
  intros Hc Hn Hs Hj. destruct v as [m sel run]. cbn [selected] in *.
  cbv zeta. unfold grid_key. cbn [selected mode running].
  rewrite (to_int_id (count l)) by int_range.
  rewrite col_of_eq by int_range.
  pose proof (Z.mod_pos_bound sel grid_cols ltac:(lia)) as Hm.
  unfold int_sub, int_add.
  rewrite (to_int_id (sel - 1)) by int_range.
  rewrite (to_int_id (sel + 1)) by int_range.
  rewrite (to_int_id (grid_cols - 1)) by int_range.
  rewrite (to_int_id (sel - grid_cols)) by int_range.
  change (code "q") with 113. change (code "h") with 104.
  change (code "l") with 108. change (code "k") with 107.
  change (code "j") with 106 in *. unfold EOF.
  destruct (Z.eqb_spec ch (-1)); [cbn; repeat split; intros; lia|].
  destruct (Z.eqb_spec ch 113); [cbn; repeat split; intros; lia|].
  destruct (Z.eqb_spec ch 104).
  { destruct (Z.ltb_spec 0 (sel mod grid_cols)) as [H|H];
      rewrite Z.gtb_ltb;
      [ apply Z.ltb_lt in H | apply Z.ltb_ge in H ]; rewrite H; cbn [selected].
    - apply Z.ltb_lt in H.
      assert (sel <> 0) by (intros ->; rewrite Z.mod_0_l in H; lia).
      repeat split; intros; try lia.
      apply same_row_left; lia.
    - repeat split; intros; lia. }
  destruct (Z.eqb_spec ch 108).
  { destruct (Z.ltb_spec (sel + 1) (count l)) as [H1|H1]; cbn [andb].
    - destruct (Z.ltb_spec (sel mod grid_cols) (grid_cols - 1)) as [H2|H2];
        cbn [selected].
      + repeat split; intros; try lia. apply same_row_right; lia.
      + repeat split; intros; lia.
    - cbn [selected]. repeat split; intros; lia. }
  destruct (Z.eqb_spec ch 107).
  { rewrite Z.geb_leb.
    destruct (Z.leb_spec 0 (sel - grid_cols)); cbn [selected];
      repeat split; intros; lia. }
  destruct (Z.eqb_spec ch 106).
  { rewrite (to_int_id (sel + grid_cols)) by (specialize (Hj e); int_range).
    destruct (Z.ltb_spec (sel + grid_cols) (count l)); cbn [selected];
      repeat split; intros; lia. }
  destruct ((ch =? 10) || (ch =? 13)); cbn [selected];
    repeat split; intros; lia.
Qed.

(** ** Base64 *)

Lemma code_range c : 0 <= code c < 256.
Proof. unfold code. pose proof (N_ascii_bounded c). lia. Qed.

Lemma char_of_code c : char_of (code c) = c.
Proof. unfold char_of, code. rewrite N2Z.id. apply ascii_N_embedding. Qed.

(** Every number below 64 is one of 0 .. 63. *)
Lemma below_64 (P : Z -> Prop) :
  (forall n : nat, (n < 64)%nat -> P (Z.of_nat n)) ->
  forall k, 0 <= k < 64 -> P k.
Proof.
  intros H k Hk. rewrite <- (Z2Nat.id k) by lia. apply H. lia.
Qed.

Ltac each_below_64 :=
  intros k Hk; pattern k; apply below_64; [|exact Hk];
  clear k Hk; intros n Hn;
  do 64 (destruct n as [|n]; [vm_compute; reflexivity|]); lia.

Lemma tbl_at_alphabet : forall k, 0 <= k < 64 -> tbl_at k = base64_char k.
Proof. each_below_64. Qed.

Lemma base64_value_char :
  forall k, 0 <= k < 64 -> base64_value (base64_char k) = Some k.
Proof. each_below_64. Qed.

Lemma base64_char_not_pad :
  forall k, 0 <= k < 64 -> Ascii.eqb (base64_char k) "=" = false.
Proof. each_below_64. Qed.

Lemma base64_char_not_esc :
  forall k, 0 <= k < 64 -> Ascii.eqb (base64_char k) ESC = false.
Proof. each_below_64. Qed.

Lemma lor_low_byte v x :
  0 <= v -> 0 <= x < 256 -> Z.lor (Z.shiftl v 8) x = v * 256 + x.
Proof.
  intros Hv Hx. rewrite Z.shiftl_mul_pow2 by lia. change (2 ^ 8) with 256.
  assert (Hdisjoint : Z.land (v * 256) x = 0).
  { apply Z.bits_inj'. intros n Hn. rewrite Z.land_spec, Z.bits_0.
    destruct (Z_lt_ge_dec n 8).
    - change 256 with (2 ^ 8). rewrite Z.mul_pow2_bits_low by lia.
      reflexivity.
    - rewrite andb_comm.
      destruct (Z.eq_dec x 0) as [->|]; [now rewrite Z.bits_0|].
      rewrite (Z.bits_above_log2 x n); [reflexivity|lia|].
      apply Z.log2_lt_pow2; [lia|].
      apply Z.lt_le_trans with (2 ^ 8); [simpl; lia|].
      apply Z.pow_le_mono_r; lia. }
  rewrite <- Z.lxor_lor by exact Hdisjoint.
  symmetry. apply Z.add_nocarry_lxor, Hdisjoint.
Qed.

Lemma feed_some v pad c :
  0 <= v < 16777216 ->
  feed (v, pad) (Some c) = (v * 256 + code c, pad).
Proof.
  intros Hv. unfold feed. f_equal.
  assert (E : to_uint (Z.shiftl v 8) = Z.shiftl v 8).
  { unfold to_uint. apply Z.mod_small. rewrite Z.shiftl_mul_pow2 by lia.
    change (2 ^ 8) with 256. lia. }
  rewrite E. apply lor_low_byte; [lia | apply code_range].
Qed.

Lemma feed_none v pad :
  0 <= v < 16777216 -> is_int (pad + 1) ->
  feed (v, pad) None = (v * 256, pad + 1).
Proof.
  intros Hv Hp. unfold feed, int_add. rewrite to_int_id by assumption.
  f_equal. unfold to_uint. rewrite Z.shiftl_mul_pow2 by lia.
  change (2 ^ 8) with 256. apply Z.mod_small. lia.
Qed.

Lemma sextet v n :
  0 <= n -> Z.land (Z.shiftr v n) 63 = v / 2 ^ n mod 64.
Proof.
  intros Hn. rewrite Z.shiftr_div_pow2 by assumption.
  change 63 with (Z.ones 6). rewrite Z.land_ones by lia. reflexivity.
Qed.

Lemma quad_eq v pad :
  0 <= v < 16777216 ->
  quad (v, pad)
  = String (base64_char (v / 262144))
      (String (base64_char (v / 4096 mod 64))
         (String (if pad <? 2 then base64_char (v / 64 mod 64) else "="%char)
            (String (if pad <? 1 then base64_char (v mod 64) else "="%char)
               EmptyString))).
Proof.
  intros Hv. unfold quad.
  rewrite !sextet by lia.
  replace (Z.land v 63) with (v mod 64)
    by (change 63 with (Z.ones 6); now rewrite Z.land_ones by lia).
  change (2 ^ 18) with 262144. change (2 ^ 12) with 4096.
  change (2 ^ 6) with 64.
  assert (0 <= v / 262144 < 64)
    by (split; [apply Z.div_pos; lia | apply Z.div_lt_upper_bound; lia]).
  rewrite (Z.mod_small (v / 262144)) by assumption.
  rewrite !tbl_at_alphabet
    by (assumption || (apply Z.mod_pos_bound; lia)).
  reflexivity.
Qed.

Lemma string_ind3 (P : string -> Prop) :
  P "" ->
  (forall a, P (String a "")) ->
  (forall a b, P (String a (String b ""))) ->
  (forall a b c rest, P rest -> P (String a (String b (String c rest)))) ->
  forall p, P p.
Proof.
  intros H0 H1 H2 H3.
  fix IH 1. intros [|a [|b [|c rest]]].
  - exact H0.
  - apply H1.
  - apply H2.
  - apply H3, IH.
Qed.

Lemma b64_groups_standard p : b64_groups p = base64_encode p.
Proof.
  induction p as [|a|a b|a b c rest IH] using string_ind3;
    cbn [b64_groups base64_encode].
  - reflexivity.
  - pose proof (code_range a).
    rewrite feed_some by lia. rewrite feed_none by (int_range || lia).
    rewrite feed_none by (int_range || lia).
    rewrite quad_eq by lia.
    replace ((0 * 256 + code a) * 256 * 256) with (code a * 65536) by lia.
    reflexivity.
  - pose proof (code_range a). pose proof (code_range b).
    rewrite feed_some by lia. rewrite feed_some by lia.
    rewrite feed_none by (int_range || lia).
    rewrite quad_eq by lia.
    replace (((0 * 256 + code a) * 256 + code b) * 256)
      with (code a * 65536 + code b * 256) by lia.
    reflexivity.
  - pose proof (code_range a). pose proof (code_range b).
    pose proof (code_range c).
    rewrite feed_some by lia. rewrite feed_some by lia.
    rewrite feed_some by lia.
    rewrite quad_eq by lia.
    replace (((0 * 256 + code a) * 256 + code b) * 256 + code c)
      with (code a * 65536 + code b * 256 + code c) by lia.
    rewrite IH. reflexivity.
Qed.

Ltac digits_of n :=
  assert (0 <= n / 262144 < 64)
    by (unfold n; split; [apply Z.div_pos; lia
                         | apply Z.div_lt_upper_bound; lia]);
  assert (0 <= n / 4096 mod 64 < 64) by (apply Z.mod_pos_bound; lia);
  assert (0 <= n / 64 mod 64 < 64) by (apply Z.mod_pos_bound; lia);
  assert (0 <= n mod 64 < 64) by (apply Z.mod_pos_bound; lia).

Ltac euclid := Z.to_euclidean_division_equations; lia.

Lemma base64_roundtrip p : base64_decode (base64_encode p) = Some p.
Proof.
  induction p as [|a|a b|a b c rest IH] using string_ind3.
  - reflexivity.
  - pose proof (code_range a) as Ha.
    cbn [base64_encode]. cbv zeta.
    set (n := code a * 65536). digits_of n.
    cbn [base64_decode].
    rewrite !base64_value_char by assumption.
    change (Ascii.eqb "=" "=") with true. cbv iota.
    replace ((n / 262144 * 64 + n / 4096 mod 64) / 16) with (code a)
      by (unfold n; clear - Ha; euclid).
    now rewrite char_of_code.
  - pose proof (code_range a) as Ha. pose proof (code_range b) as Hb.
    cbn [base64_encode]. cbv zeta.
    set (n := code a * 65536 + code b * 256). digits_of n.
    cbn [base64_decode].
    rewrite !base64_value_char by assumption.
    change (Ascii.eqb "=" "=") with true. cbv iota.
    rewrite base64_char_not_pad by assumption. cbv zeta.
    set (m := n / 262144 * 4096 + n / 4096 mod 64 * 64 + n / 64 mod 64).
    replace (m / 1024) with (code a)
      by (unfold m, n; clear - Ha Hb; euclid).
    replace (m / 4 mod 256) with (code b)
      by (unfold m, n; clear - Ha Hb; euclid).
    now rewrite !char_of_code.
  - pose proof (code_range a) as Ha. pose proof (code_range b) as Hb.
    pose proof (code_range c) as Hc.
    cbn [base64_encode]. cbv zeta.
    set (n := code a * 65536 + code b * 256 + code c). digits_of n.
    cbn [base64_decode].
    rewrite !base64_value_char by assumption.
    rewrite base64_char_not_pad by assumption.
    fold base64_decode. rewrite IH. cbv zeta.
    set (m := n / 262144 * 262144 + n / 4096 mod 64 * 4096
              + n / 64 mod 64 * 64 + n mod 64).
    assert (E : m = n) by (unfold m; clear; euclid).
    rewrite E.
    replace (n / 65536) with (code a) by (unfold n; clear - Ha Hb Hc; euclid).
    replace (n / 256 mod 256) with (code b)
      by (unfold n; clear - Ha Hb Hc; euclid).
    replace (n mod 256) with (code c) by (unfold n; clear - Ha Hb Hc; euclid).
    now rewrite !char_of_code.
Qed.

(** ** The kitty protocol *)

Lemma sprintf_display cols rows b :
  sprintf kitty_display_fmt [ArgD cols; ArgD rows; ArgS b]
  = kitty_display_bytes cols rows b.
Proof.
  unfold kitty_display_fmt, kitty_display_bytes. simpl.
  reflexivity.
Qed.


Lemma base64_encode_no_esc p : all_chars not_esc (base64_encode p) = true.
Proof.
  induction p as [|a|a b|a b c rest IH] using string_ind3.
  - reflexivity.
  - pose proof (code_range a). cbn [base64_encode]. cbv zeta.
    set (n := code a * 65536). digits_of n.
    cbn [all_chars]. unfold not_esc at 1 2.
    rewrite !base64_char_not_esc by assumption. reflexivity.
  - pose proof (code_range a). pose proof (code_range b).
    cbn [base64_encode]. cbv zeta.
    set (n := code a * 65536 + code b * 256). digits_of n.
    cbn [all_chars]. unfold not_esc at 1 2 3.
    rewrite !base64_char_not_esc by assumption. reflexivity.
  - pose proof (code_range a). pose proof (code_range b).
    pose proof (code_range c).
    cbn [base64_encode]. cbv zeta.
    set (n := code a * 65536 + code b * 256 + code c). digits_of n.
    cbn [all_chars]. unfold not_esc at 1 2 3 4.
    rewrite !base64_char_not_esc by assumption. rewrite IH. reflexivity.
Qed.

Lemma split_at_char_app c x y :
  all_chars (fun d => negb (Ascii.eqb d c)) x = true ->
  split_at_char c (x ++ String c y) = Some (x, y).
Proof.
  induction x as [|d x IH]; simpl.
  - intros _. now rewrite Ascii.eqb_refl.
  - intros H. apply andb_true_iff in H. destruct H as [H1 H2].
    apply negb_true_iff in H1. rewrite H1. now rewrite IH.
Qed.

Lemma kitty_payload_display cols rows b :
  (cols = THUMB_COLS /\ rows = THUMB_ROWS) \/ (cols = 80 /\ rows = 24) ->
  all_chars not_esc b = true ->
  kitty_payload (kitty_display_bytes cols rows b) = Some b.
Proof.
  intros [[-> ->]|[-> ->]] H; unfold kitty_display_bytes, kitty_payload;
    simpl; rewrite (split_at_char_app ESC b "\" H); reflexivity.
Qed.

Lemma display_thumbnail_run W path s :
  w_alloc W (allocs s) = true ->
  display_thumbnail_kitty W (Some path) s
  = Ret tt (set_stdout
              (stdout s ++ kitty_display_bytes THUMB_COLS THUMB_ROWS
                             (base64_encode path))
              (set_allocs (S (allocs s)) s)).
Proof.
  intros H. unfold display_thumbnail_kitty, b64encode_path, bind, sys_alloc.
  rewrite H. unfold ret, printf. rewrite sprintf_display.
  rewrite b64_groups_standard. reflexivity.
Qed.

Lemma display_focus_run W path s :
  w_alloc W (allocs s) = true ->
  display_focus_kitty W (Some path) s
  = Ret tt (set_stdout
              (stdout s ++ kitty_display_bytes 80 24 (base64_encode path))
              (set_allocs (S (allocs s)) s)).
Proof.
  intros H. unfold display_focus_kitty, b64encode_path, bind, sys_alloc.
  rewrite H. unfold ret, printf. rewrite sprintf_display.
  rewrite b64_groups_standard. reflexivity.
Qed.

(** ** Claims on the protocol encoder *)

(** C5.  For every path that is not absent, once the encoder has its
    buffer, the payload of the sequence that [display_thumbnail_kitty] (and
    likewise [display_focus_kitty]) writes decodes, as standard base64, to
    the path byte for byte.  For an absent path [display_thumbnail_kitty]
    writes the three visible characters [[?]], which do not contain the
    control-sequence prefix [ESC _ G]. *)
Theorem kitty_payload_roundtrip (W : World) (path : string) (s : State) :
  w_alloc W (allocs s) = true ->
  (exists out s',
      display_thumbnail_kitty W (Some path) s = Ret tt s' /\
      stdout s' = stdout s ++ out /\
      exists payload,
        kitty_payload out = Some payload /\
        base64_decode payload = Some path) /\
  (exists out s',
      display_focus_kitty W (Some path) s = Ret tt s' /\
      stdout s' = stdout s ++ out /\
      exists payload,
        kitty_payload out = Some payload /\
        base64_decode payload = Some path) /\
  (exists out s',
      display_thumbnail_kitty W None s = Ret tt s' /\
      stdout s' = stdout s ++ out /\
      out = "[?]" /\
      occurs kitty_prefix out = false /\
      all_chars visible_char out = true).
Proof.
  intros H. split; [|split].
  - eexists. eexists. split; [apply display_thumbnail_run, H|].
    split; [reflexivity|]. exists (base64_encode path). split.
    + apply kitty_payload_display; [now left | apply base64_encode_no_esc].
    + apply base64_roundtrip.
  - eexists. eexists. split; [apply display_focus_run, H|].
    split; [reflexivity|]. exists (base64_encode path). split.
    + apply kitty_payload_display; [now right | apply base64_encode_no_esc].
    + apply base64_roundtrip.
  - exists "[?]". eexists. split; [reflexivity|].
    split; [reflexivity|]. split; [reflexivity|]. split; reflexivity.
Qed.

Lemma kitty_payload_roundtrip_witness :
  exists out s',
    display_thumbnail_kitty (sample_world "" 24 0)
      (Some "/tmp/iv_a.png.thumb.png") initial_state = Ret tt s' /\
    stdout s' = out /\
    exists payload,
      kitty_payload out = Some payload /\
      base64_decode payload = Some "/tmp/iv_a.png.thumb.png".
Proof.
  destruct (kitty_payload_roundtrip (sample_world "" 24 0)
              "/tmp/iv_a.png.thumb.png" initial_state)
    as [[out [s' [E [O P]]]] _].
  - reflexivity.
  - exists out, s'. split; [exact E|]. split; [exact O | exact P].
Defined.

(** C6.  The display output for a path is exactly
    [ESC _ G a=T,f=100,t=f,c=<cols>,r=<rows>,C=1 ; <base64(path)> ESC \],
    with 10 columns and 5 rows for a thumbnail and 80 and 24 for the focus
    view, [<base64(path)>] being standard base64; clearing writes exactly
    [ESC _ G a=d ESC \]; and two encodings of one path, in whatever worlds
    and states, write the same bytes. *)
Theorem kitty_wire_format (W1 W2 : World) (path : string) (s1 s2 : State) :
  w_alloc W1 (allocs s1) = true ->
  w_alloc W2 (allocs s2) = true ->
  let thumb := kitty_display_bytes 10 5 (base64_encode path) in
  let focus := kitty_display_bytes 80 24 (base64_encode path) in
  display_thumbnail_kitty W1 (Some path) s1
  = Ret tt (set_stdout (stdout s1 ++ thumb) (set_allocs (S (allocs s1)) s1)) /\
  display_thumbnail_kitty W2 (Some path) s2
  = Ret tt (set_stdout (stdout s2 ++ thumb) (set_allocs (S (allocs s2)) s2)) /\
  display_focus_kitty W1 (Some path) s1
  = Ret tt (set_stdout (stdout s1 ++ focus) (set_allocs (S (allocs s1)) s1)) /\
  display_focus_kitty W2 (Some path) s2
  = Ret tt (set_stdout (stdout s2 ++ focus) (set_allocs (S (allocs s2)) s2)) /\
  kitty_delete_all s1 = Ret tt (set_stdout (stdout s1 ++ kitty_clear_bytes) s1) /\
  b64_groups path = base64_encode path.
Proof.
  intros H1 H2 thumb focus.
  split; [apply display_thumbnail_run, H1|].
  split; [apply display_thumbnail_run, H2|].
  split; [apply display_focus_run, H1|].
  split; [apply display_focus_run, H2|].
  split; [reflexivity | apply b64_groups_standard].
Qed.

Lemma kitty_wire_format_witness :
  display_thumbnail_kitty (sample_world "" 24 0) (Some "Man") initial_state
  = Ret tt (set_stdout (String ESC "_Ga=T,f=100,t=f,c=10,r=5,C=1;TWFu"
                        ++ String ESC "\")
              (set_allocs 1 initial_state)).
Proof.
  destruct (kitty_wire_format (sample_world "" 24 0) (sample_world "q" 30 1)
              "Man" initial_state initial_state) as [E _].
  - reflexivity.
  - reflexivity.
  - exact E.
Defined.

(** ** Rendering

    With item and column counts that fit an [int], [render_grid] reads no
    entry outside the list: it returns, having only drawn. *)

Lemma bind_ret {A B} (c : M A) (k : A -> M B) s a s' :
  c s = Ret a s' -> bind c k s = k a s'.
Proof. intros H. unfold bind. now rewrite H. Qed.

Lemma only_draws_refl s : only_draws s s.
Proof. repeat split. Qed.

Lemma only_draws_trans s1 s2 s3 :
  only_draws s1 s2 -> only_draws s2 s3 -> only_draws s1 s3.
Proof.
  unfold only_draws. intros H1 H2.
  repeat match goal with H : _ /\ _ |- _ => destruct H end.
  repeat split; congruence.
Qed.

Lemma printf_draws fmt args s :
  exists s', printf fmt args s = Ret tt s' /\ only_draws s s'.
Proof. eexists. split; [reflexivity|]. repeat split. Qed.

Lemma display_thumbnail_draws W thumb s :
  exists s', display_thumbnail_kitty W thumb s = Ret tt s' /\ only_draws s s'.
Proof.
  unfold display_thumbnail_kitty, b64encode_path, bind, sys_alloc.
  destruct thumb as [p|]; [|apply printf_draws].
  destruct (w_alloc W (allocs s)); eexists; (split; [reflexivity|]);
    repeat split.
Qed.

Lemma entry_at_some l i : 0 <= i < count l -> exists e, entry_at l i = Some e.
Proof.
  intros H. unfold entry_at, count in *.
  destruct (Z.ltb_spec i 0); [lia|].
  destruct (nth_error l (Z.to_nat i)) as [e|] eqn:E; [now exists e|].
  apply nth_error_None in E. lia.
Qed.

(** Chaining a step that only draws. *)
Ltac step_draws H :=
  let s1 := fresh "s" in
  let E := fresh "E" in
  let D := fresh "D" in
  destruct H as [s1 [E D]]; rewrite (bind_ret _ _ _ _ _ E).

Lemma render_cols_draws W n l grid_cols selected start_row rh cw row :
  0 < grid_cols <= INT_MAX -> count l <= INT_MAX -> 0 <= row * grid_cols ->
  forall col s,
    0 <= col -> row * grid_cols + col <= count l ->
    exists s',
      render_cols W n l grid_cols selected start_row rh cw row col s
      = Ret tt s' /\ only_draws s s'.
Proof.
  intros Hc Hn Hr. induction n as [|n IH]; intros col s H0 Hle.
  - exists s. split; [reflexivity | apply only_draws_refl].
  - cbn [render_cols].
    destruct (Z.ltb_spec col grid_cols) as [Hlt|Hge];
      [|exists s; split; [reflexivity | apply only_draws_refl]].
    assert (Ei : grid_index row grid_cols col = row * grid_cols + col).
    { unfold grid_index, int_add, int_mul.
      rewrite (to_int_id (row * grid_cols)) by int_range.
      apply to_int_id. int_range. }
    rewrite Ei. rewrite (to_int_id (count l))
      by (pose proof (count_nonneg l); int_range).
    rewrite Z.geb_leb.
    destruct (Z.leb_spec (count l) (row * grid_cols + col)) as [Hbr|Hin];
      [exists s; split; [reflexivity | apply only_draws_refl]|].
    destruct (entry_at_some l (row * grid_cols + col) ltac:(lia)) as [e Ee].
    rewrite Ee. cbv zeta.
    pose proof (printf_draws cursor_fmt
      [ArgD (int_add (int_mul (int_sub row start_row) rh) 1);
       ArgD (int_add (int_mul col cw) 1)] s) as P1.
    step_draws P1.
    pose proof (display_thumbnail_draws W (thumb_path e) s0) as P2.
    step_draws P2.
    assert (P3 : exists s',
      (if row * grid_cols + col =? selected
       then printf (cursor_fmt ++ "*")
              [ArgD (int_add (int_add (int_mul (int_sub row start_row) rh) 1)
                             THUMB_ROWS);
               ArgD (int_add (int_add (int_mul col cw) 1)
                             (int_div THUMB_COLS 2))]
       else ret tt) s1 = Ret tt s' /\ only_draws s1 s').
    { destruct (row * grid_cols + col =? selected);
        [apply printf_draws|].
      exists s1. split; [reflexivity | apply only_draws_refl]. }
    step_draws P3.
    unfold int_add at 1. rewrite (to_int_id (col + 1)) by int_range.
    destruct (IH (col + 1) s2 ltac:(lia) ltac:(lia)) as [s' [E' D']].
    exists s'. split; [exact E'|].
    eauto using only_draws_trans.
Qed.

Lemma render_rows_draws W n l grid_cols selected start_row end_row rh cw :
  0 < grid_cols <= INT_MAX -> count l <= INT_MAX ->
  end_row <= total_rows l grid_cols ->
  forall row s,
    0 <= row ->
    exists s',
      render_rows W n l grid_cols selected start_row end_row rh cw row s
      = Ret tt s' /\ only_draws s s'.
Proof.
  intros Hc Hn He. induction n as [|n IH]; intros row s H0.
  - exists s. split; [reflexivity | apply only_draws_refl].
  - cbn [render_rows].
    destruct (Z.ltb_spec row end_row) as [Hlt|Hge];
      [|exists s; split; [reflexivity | apply only_draws_refl]].
    pose proof (total_rows_range l grid_cols Hc Hn) as Ht.
    rewrite total_rows_eq in He, Ht by assumption.
    pose proof (ceil_div_bounds (count l) grid_cols (count_nonneg l)
                  ltac:(lia)) as B.
    assert (Hm : 0 <= row * grid_cols < count l) by nia.
    pose proof (render_cols_draws W (Z.to_nat grid_cols) l grid_cols selected
                  start_row rh cw row Hc Hn ltac:(lia) 0 s ltac:(lia)
                  ltac:(lia)) as P1.
    step_draws P1.
    unfold int_add. rewrite (to_int_id (row + 1)) by int_range.
    destruct (IH (row + 1) s0 ltac:(lia)) as [s' [E' D']].
    exists s'. split; [exact E'|]. eauto using only_draws_trans.
Qed.

Lemma render_grid_draws W l grid_cols selected s :
  0 < grid_cols <= INT_MAX -> count l <= INT_MAX ->
  exists s',
    render_grid W l grid_cols selected s = Ret tt s' /\
    only_draws
      (set_scroll_offset
         (clamped (total_rows l grid_cols)
                  (visible_rows (ws_row_of (w_ioctl W (ioctls s))))
                  (scroll_offset s)) s) s'.
Proof.
  intros Hc Hn. unfold render_grid.
  unfold bind at 1. unfold sys_ioctl.
  set (answer := w_ioctl W (ioctls s)).
  change (if int_div match answer with
                     | Some (r, _) => to_ushort r
                     | None => 24
                     end (int_add THUMB_ROWS SPACING_ROWS) <? 1
          then 1
          else int_div match answer with
                       | Some (r, _) => to_ushort r
                       | None => 24
                       end (int_add THUMB_ROWS SPACING_ROWS))
    with (visible_rows (ws_row_of answer)).
  set (vis := visible_rows (ws_row_of answer)).
  set (tot := total_rows l grid_cols).
  assert (Hv : 1 <= vis <= 10922)
    by apply visible_rows_range, ws_row_of_range.
  pose proof (total_rows_range l grid_cols Hc Hn) as Ht. fold tot in Ht.
  rewrite (bind_ret _ _ _ _ _ (clamp_scroll_run tot vis _)).
  cbn [scroll_offset set_ioctls].
  set (so := clamped tot vis (scroll_offset s)).
  assert (Hso : 0 <= so <= Z.max 0 (tot - vis))
    by (unfold so; rewrite clamped_eq by assumption; lia).
  set (s1 := set_scroll_offset so (set_ioctls (S (ioctls s)) s)).
  assert (D1 : only_draws (set_scroll_offset so s) s1) by (repeat split).
  pose proof (printf_draws clear_home [] s1) as P. step_draws P.
  unfold bind at 1. unfold get_scroll.
  assert (Eso : scroll_offset s0 = so).
  { destruct D as [_ [D _]]. rewrite D. reflexivity. }
  rewrite Eso.
  replace (int_add so vis) with (so + vis)
    by (unfold int_add; symmetry; apply to_int_id; int_range).
  set (end_row := if so + vis >? tot then tot else so + vis).
  assert (He : end_row <= tot).
  { unfold end_row. rewrite Z.gtb_ltb.
    destruct (Z.ltb_spec tot (so + vis)); lia. }
  pose proof (render_rows_draws W (Z.to_nat (end_row - so)) l grid_cols
                selected so end_row (int_add THUMB_ROWS SPACING_ROWS)
                (int_add THUMB_COLS SPACING_COLS) Hc Hn He so s0
                ltac:(lia)) as P.
  step_draws P.
  match goal with
  | |- context [bind (if ?c then ?a else ?b) _ _] =>
      assert (P : exists s', (if c then a else b) s2 = Ret tt s'
                             /\ only_draws s2 s')
        by (destruct c; apply printf_draws)
  end.
  step_draws P.
  match goal with
  | |- context [bind ?c _ s3] =>
      assert (P : exists s', c s3 = Ret tt s' /\ only_draws s3 s')
  end.
  { rewrite (to_int_id (count l))
      by (pose proof (count_nonneg l); int_range).
    rewrite Z.geb_leb.
    destruct (Z.leb_spec 0 selected); cbn [andb]; [|apply printf_draws].
    destruct (Z.ltb_spec selected (count l)); [|apply printf_draws].
    destruct (entry_at_some l selected ltac:(lia)) as [e Ee]. rewrite Ee.
    apply printf_draws. }
  step_draws P.
  destruct (printf_draws
              ("[h/l/j/k: move | Enter=focus | q=quit]" ++ String NL "") []
              s4) as [s' [E' D']].
  exists s'. split; [exact E'|].
  eauto 10 using only_draws_trans.
Qed.

(** ** Focus view and the main loop *)

Lemma read_keypress_run W s :
  read_keypress W s
  = Ret (key_of (w_read W (reads s))) (set_reads (S (reads s)) s).
Proof. reflexivity. Qed.

(** [focus_wait] returns at the first exit key, if one comes within the
    fuel, and runs out of fuel otherwise. *)
Lemma focus_wait_cases W fuel :
  forall s,
    (exists n, (n < fuel)%nat /\
       (forall k, (k < n)%nat ->
          focus_exit_key (key_of (w_read W (reads s + k))) = false) /\
       focus_exit_key (key_of (w_read W (reads s + n))) = true /\
       focus_wait W fuel s = Ret tt (set_reads (S (reads s + n)) s)) \/
    ((forall k, (k < fuel)%nat ->
        focus_exit_key (key_of (w_read W (reads s + k))) = false) /\
     focus_wait W fuel s = OutOfFuel).
Proof.
  induction fuel as [|fuel IH]; intros s.
  - right. split; [intros k Hk; lia | reflexivity].
  - cbn [focus_wait]. rewrite (bind_ret _ _ _ _ _ (read_keypress_run W s)).
    destruct (focus_exit_key (key_of (w_read W (reads s)))) eqn:Ek.
    + left. exists 0%nat. split; [lia|]. split; [intros k Hk; lia|].
      rewrite Nat.add_0_r. split; [exact Ek|]. reflexivity.
    + destruct (IH (set_reads (S (reads s)) s)) as [[n [Hn [Hb [He Hr]]]]|[Hb Hr]];
        cbn [reads set_reads] in *.
      * left. exists (S n). split; [lia|]. split.
        { intros [|k] Hk; [now rewrite Nat.add_0_r|].
          replace (reads s + S k)%nat with (S (reads s) + k)%nat by lia.
          apply Hb. lia. }
        replace (reads s + S n)%nat with (S (reads s) + n)%nat by lia.
        split; [exact He|]. rewrite Hr. destruct s; reflexivity.
      * right. split; [|exact Hr].
        intros [|k] Hk; [now rewrite Nat.add_0_r|].
        replace (reads s + S k)%nat with (S (reads s) + k)%nat by lia.
        apply Hb. lia.
Qed.

(** [generate_focus] returns; it reads no key and draws nothing. *)
Lemma generate_focus_returns W orig s :
  exists st fp s1,
    generate_focus W orig None s = Ret (st, fp) s1 /\
    stdout s1 = stdout s /\ scroll_offset s1 = scroll_offset s /\
    raw_mode s1 = raw_mode s /\ atexit_hook s1 = atexit_hook s /\
    reads s1 = reads s /\ removed s1 = removed s.
Proof.
  unfold generate_focus. cbv zeta. unfold bind, sys_system, sys_alloc.
  match goal with |- context [w_system W (systems s) ?c] =>
    destruct (w_system W (systems s) c =? 0) end; cbn [negb].
  - cbn [allocs set_systems].
    destruct (w_alloc W (allocs s)); do 3 eexists;
      (split; [reflexivity|]); repeat split.
  - do 3 eexists. split; [reflexivity|]. repeat split.
Qed.

Lemma display_focus_draws W focus s :
  exists s', display_focus_kitty W focus s = Ret tt s' /\ only_draws s s'.
Proof.
  unfold display_focus_kitty, b64encode_path, bind, sys_alloc.
  destruct focus as [p|];
    [|exists s; split; [reflexivity | apply only_draws_refl]].
  destruct (w_alloc W (allocs s)); eexists; (split; [reflexivity|]);
    repeat split.
Qed.

(** The outcomes of [focus_view]. *)
Lemma focus_view_cases W fuel orig s :
  exists st fp s1,
    generate_focus W orig None s = Ret (st, fp) s1 /\
    reads s1 = reads s /\
    (st <> 0 -> focus_view W fuel orig s = Ret tt s1) /\
    (st = 0 ->
     (exists n s', (n < fuel)%nat /\
        (forall k, (k < n)%nat ->
           focus_exit_key (key_of (w_read W (reads s + k))) = false) /\
        focus_exit_key (key_of (w_read W (reads s + n))) = true /\
        focus_view W fuel orig s = Ret tt s' /\
        reads s' = S (reads s + n) /\
        scroll_offset s' = scroll_offset s /\ raw_mode s' = raw_mode s) \/
     ((forall k, (k < fuel)%nat ->
         focus_exit_key (key_of (w_read W (reads s + k))) = false) /\
      focus_view W fuel orig s = OutOfFuel)).
Proof.
  destruct (generate_focus_returns W orig s)
    as [st [fp [s1 [E [_ [Hso [Hraw [_ [Hrd _]]]]]]]]].
  exists st, fp, s1. split; [exact E|]. split; [exact Hrd|].
  unfold focus_view. rewrite (bind_ret _ _ _ _ _ E).
  split.
  - intros Hst. apply Z.eqb_neq in Hst. now rewrite Hst.
  - intros ->. cbn [Z.eqb negb].
    destruct (printf_draws clear_home [] s1) as [s2 [E2 D2]].
    rewrite (bind_ret _ _ _ _ _ E2).
    destruct (display_focus_draws W fp s2) as [s3 [E3 D3]].
    rewrite (bind_ret _ _ _ _ _ E3).
    pose proof (only_draws_trans _ _ _ D2 D3) as D.
    destruct D as [_ [Dso [Draw [_ [Drd _]]]]].
    assert (R : reads s3 = reads s) by congruence.
    destruct (focus_wait_cases W fuel s3) as [[n [Hn [Hb [He Hr]]]]|[Hb Hr]];
      rewrite R in *.
    + left. rewrite (bind_ret _ _ _ _ _ Hr).
      destruct fp as [p|]; eexists n, _;
        (split; [exact Hn|]); (split; [exact Hb|]); (split; [exact He|]);
        (split; [reflexivity|]); cbn; repeat split; congruence.
    + right. split; [exact Hb|]. unfold bind. now rewrite Hr.
Qed.

(** A turn of the loop in grid mode: adjust, draw, read one key, dispatch. *)
Lemma grid_turn W fuel l grid_cols v s :
  0 < grid_cols <= INT_MAX -> count l <= INT_MAX ->
  mode v = MODE_GRID ->
  exists s',
    loop_body W fuel l grid_cols v s
    = Ret (grid_key l grid_cols (key_of (w_read W (reads s))) v) s' /\
    reads s' = S (reads s) /\ raw_mode s' = raw_mode s /\
    stderr s' = stderr s.
Proof.
  intros Hc Hn Hm. unfold loop_body. rewrite Hm.
  rewrite (bind_ret _ _ _ _ _ (adjust_scroll_run W l (selected v) grid_cols s)).
  match goal with |- context [bind (render_grid _ _ _ _) _ ?s1] =>
    destruct (render_grid_draws W l grid_cols (selected v) s1 Hc Hn)
      as [s2 [E2 D2]]
  end.
  rewrite (bind_ret _ _ _ _ _ E2).
  rewrite (bind_ret _ _ _ _ _ (read_keypress_run W s2)).
  destruct D2 as [De [_ [Dr [_ [Drd _]]]]].
  cbn in De, Dr, Drd. rewrite Drd.
  eexists. split; [reflexivity|]. cbn. repeat split; congruence.
Qed.

Lemma grid_key_mode l grid_cols ch v :
  mode v = MODE_GRID ->
  let v' := grid_key l grid_cols ch v in
  (mode v' = MODE_FOCUS <-> ch = 10 \/ ch = 13) /\
  (mode v' = MODE_FOCUS -> selected v' = selected v /\ running v' = running v) /\
  (running v <> 0 -> (running v' = 0 <-> ch = EOF \/ ch = code "q")).
Proof.
  intros Hm. cbv zeta. unfold grid_key.
  change (code "q") with 113. change (code "h") with 104.
  change (code "l") with 108. change (code "k") with 107.
  change (code "j") with 106. unfold EOF.
  destruct v as [m sel run]. cbn [mode selected running] in *. subst m.
  destruct (Z.eqb_spec ch (-1));
    [cbn; repeat split; intros; try discriminate; lia|].
  destruct (Z.eqb_spec ch 113);
    [cbn; repeat split; intros; try discriminate; lia|].
  destruct (Z.eqb_spec ch 104).
  { destruct (col_of sel grid_cols >? 0); cbn;
      repeat split; intros; try discriminate; lia. }
  destruct (Z.eqb_spec ch 108).
  { destruct ((int_add sel 1 <? to_int (count l)) &&
              (col_of sel grid_cols <? int_sub grid_cols 1)); cbn;
      repeat split; intros; try discriminate; lia. }
  destruct (Z.eqb_spec ch 107).
  { destruct (int_sub sel grid_cols >=? 0); cbn;
      repeat split; intros; try discriminate; lia. }
  destruct (Z.eqb_spec ch 106).
  { destruct (int_add sel grid_cols <? to_int (count l)); cbn;
      repeat split; intros; try discriminate; lia. }
  destruct (Z.eqb_spec ch 10); [cbn; repeat split; intros; lia|].
  destruct (Z.eqb_spec ch 13); [cbn; repeat split; intros; lia|].
  cbn. repeat split; intros; try discriminate; lia.
Qed.

(** ** Claims on the navigation state machine *)

(** The mode machine where the selection is a valid index.  The loop
    starts in grid mode with item 0 selected.  Under the state invariant (a
    valid selection, counts that fit an [int]) a turn of
    the loop never exits the process and never reads outside the list.  A
    turn in grid mode returns with the key dispatched.  A turn yields focus
    mode only from grid mode and on Enter; a turn in focus mode returns to
    grid mode, selection and [running] unchanged, as soon as a read yields
    ESC, ['q'] or end of input (and runs on while none does); [running] is
    cleared only in grid mode, on ['q'] or end of input. *)
Lemma mode_machine (W : World) (fuel : nat) (l : ImageList) (grid_cols : Z)
    (v : LoopVars) (s : State) :
  0 < grid_cols <= INT_MAX ->
  count l <= INT_MAX ->
  0 <= selected v < count l ->
  let ch := key_of (w_read W (reads s)) in
  let turn := loop_body W fuel l grid_cols v s in
  (mode loop_start = MODE_GRID /\ selected loop_start = 0) /\
  (mode v = MODE_GRID ->
   exists s', turn = Ret (grid_key l grid_cols ch v) s') /\
  (mode v = MODE_FOCUS ->
   (exists n, (n < fuel)%nat /\
      focus_exit_key (key_of (w_read W (reads s + n))) = true) ->
   exists s', turn = Ret (mkLoop MODE_GRID (selected v) (running v)) s') /\
  (forall st s', turn <> Exit st s') /\
  (forall s', turn <> Fault s') /\
  (turn = OutOfFuel ->
   mode v = MODE_FOCUS /\
   forall k, (k < fuel)%nat ->
     focus_exit_key (key_of (w_read W (reads s + k))) = false) /\
  (forall v' s', turn = Ret v' s' ->
     (mode v' = MODE_FOCUS ->
      mode v = MODE_GRID /\ (ch = 10 \/ ch = 13) /\
      selected v' = selected v /\ running v' = running v) /\
     (mode v = MODE_FOCUS ->
      mode v' = MODE_GRID /\ selected v' = selected v /\
      running v' = running v) /\
     (running v <> 0 -> running v' = 0 ->
      mode v = MODE_GRID /\ (ch = EOF \/ ch = code "q"))).
Proof.
  intros Hc Hn Hs ch turn.
  split; [split; reflexivity|].
  destruct (mode v) eqn:Hm.
  - (* grid mode *)
    destruct (grid_turn W fuel l grid_cols v s Hc Hn Hm) as [s1 [E _]].
    fold ch turn in E.
    pose proof (grid_key_mode l grid_cols ch v Hm) as K. cbv zeta in K.
    destruct K as [K1 [K2 K3]].
    split; [intros _; exists s1; exact E|].
    split; [discriminate|].
    split; [intros st s'; rewrite E; discriminate|].
    split; [intros s'; rewrite E; discriminate|].
    split; [rewrite E; discriminate|].
    intros v' s' Ev. rewrite E in Ev. injection Ev as <- <-.
    split; [|split].
    + intros F. split; [reflexivity|]. split; [apply K1, F | apply K2, F].
    + discriminate.
    + intros Hr H0. split; [reflexivity | apply K3; assumption].
  - (* focus mode *)
    destruct (entry_at_some l (selected v) Hs) as [e Ee].
    assert (Et : turn = bind (focus_view W fuel (original_path e))
                          (fun _ => ret (mkLoop MODE_GRID (selected v)
                                                (running v))) s).
    { unfold turn, loop_body. rewrite Hm, Ee. reflexivity. }
    destruct (focus_view_cases W fuel (original_path e) s)
      as [st [fp [s1 [Eg [Hrd [Hfail Hok]]]]]].
    assert (Cases :
      (exists s', turn = Ret (mkLoop MODE_GRID (selected v) (running v)) s') \/
      (turn = OutOfFuel /\
       forall k, (k < fuel)%nat ->
         focus_exit_key (key_of (w_read W (reads s + k))) = false)).
    { destruct (Z.eq_dec st 0) as [Z0|NZ].
      - destruct (Hok Z0) as [[n [s' [_ [_ [_ [Ev _]]]]]]|[Hb Ev]].
        + left. exists s'. rewrite Et. unfold bind. now rewrite Ev.
        + right. split; [|exact Hb]. rewrite Et. unfold bind. now rewrite Ev.
      - left. exists s1. rewrite Et. unfold bind. now rewrite (Hfail NZ). }
    split; [discriminate|].
    split.
    { intros _ [n [Hn' He]].
      destruct Cases as [C|[_ Hb]]; [exact C|].
      rewrite (Hb n Hn') in He. discriminate. }
    split; [intros st' s'; destruct Cases as [[s2 ->]|[-> _]]; discriminate|].
    split; [intros s'; destruct Cases as [[s2 ->]|[-> _]]; discriminate|].
    split.
    { intros Eo. split; [reflexivity|].
      destruct Cases as [[s2 E2]|[_ Hb]]; [|exact Hb].
      rewrite E2 in Eo. discriminate. }
    intros v' s' Ev.
    destruct Cases as [[s2 E2]|[Eo _]]; [|rewrite Eo in Ev; discriminate].
    rewrite E2 in Ev. injection Ev as <- <-. cbn [mode selected running].
    split; [discriminate|]. split; [intros _; repeat split|].
    intros Hr H0. contradiction.
Qed.

Lemma mode_machine_witness :
  exists s',
    loop_body (sample_world "xq" 24 0) 5 (sample_list 3) 4
              (mkLoop MODE_FOCUS 2 1) initial_state
    = Ret (mkLoop MODE_GRID 2 1) s'.
Proof.
  destruct (mode_machine (sample_world "xq" 24 0) 5 (sample_list 3) 4
              (mkLoop MODE_FOCUS 2 1) initial_state)
    as [_ [_ [F _]]].
  - unfold INT_MAX; lia.
  - vm_compute; discriminate.
  - vm_compute; split; [discriminate | reflexivity].
  - apply F; [reflexivity|]. exists 1%nat. split; [lia | reflexivity].
Defined.

(** C3.  Each grid-mode keystroke should leave [selected] a valid index,
    and ['j'] should change nothing at the last index.  The program started
    as [iv -c 2147483647 a.png b.png] takes [INT_MAX] columns; ['l'] moves
    the selection to the last index 1; ['j'] then adds the columns to it:
    the sum of line 597 wraps to [INT_MIN], which is below the item count,
    and [selected] becomes [INT_MIN].  ([grid_key_laws] has the laws of the
    claim wherever that sum fits an [int].) *)
Theorem grid_key_overflow :
  let W := sample_world "lj" 24 0 in
  let l := sample_list 2 in
  let last := mkLoop MODE_GRID 1 1 in
  parse_options ["iv"] [(code "c", "2147483647")] 4 initial_state
  = Ret INT_MAX initial_state /\
  (exists s1 s2,
     loop_body W 0 l INT_MAX loop_start initial_state = Ret last s1 /\
     loop_body W 0 l INT_MAX last s1 = Ret (mkLoop MODE_GRID INT_MIN 1) s2) /\
  0 <= selected last < count l /\ selected last = count l - 1 /\
  grid_key l INT_MAX (code "j") last = mkLoop MODE_GRID INT_MIN 1 /\
  ~ (0 <= selected (grid_key l INT_MAX (code "j") last) < count l).
Proof.
  cbv zeta. split; [vm_compute; reflexivity|]. split.
  { assert (Hc : 0 < INT_MAX <= INT_MAX) by (unfold INT_MAX; lia).
    assert (Hn : count (sample_list 2) <= INT_MAX) by (vm_compute; discriminate).
    destruct (grid_turn (sample_world "lj" 24 0) 0 (sample_list 2) INT_MAX
                loop_start initial_state Hc Hn eq_refl) as [s1 [E1 [R1 _]]].
    destruct (grid_turn (sample_world "lj" 24 0) 0 (sample_list 2) INT_MAX
                (mkLoop MODE_GRID 1 1) s1 Hc Hn eq_refl) as [s2 [E2 _]].
    exists s1, s2. split.
    - rewrite E1. f_equal.
    - rewrite E2. rewrite R1. f_equal. }
  split; [vm_compute; split; [discriminate|reflexivity]|].
  split; [reflexivity|]. split; [vm_compute; reflexivity|].
  vm_compute. intros [H _]. apply H. reflexivity.
Qed.

(** C10.  If generating the focus image of the selected item fails,
    [focus_view] returns at once and the turn of the loop ends in grid mode:
    no key is read, nothing is drawn or removed, the terminal mode,
    selection, [running] and scroll offset are unchanged, and the process
    does not exit.  No fuel is needed. *)
Theorem focus_failure_returns (W : World) (fuel : nat) (l : ImageList)
    (grid_cols : Z) (v : LoopVars) (s : State) (e : ImageEntry)
    (status : Z) (focus_path : option string) (s1 : State) :
  mode v = MODE_FOCUS ->
  entry_at l (selected v) = Some e ->
  generate_focus W (original_path e) None s = Ret (status, focus_path) s1 ->
  status <> 0 ->
  focus_view W fuel (original_path e) s = Ret tt s1 /\
  loop_body W fuel l grid_cols v s
  = Ret (mkLoop MODE_GRID (selected v) (running v)) s1 /\
  reads s1 = reads s /\ scroll_offset s1 = scroll_offset s /\
  stdout s1 = stdout s /\ raw_mode s1 = raw_mode s /\
  removed s1 = removed s.
Proof.
  intros Hm He Eg Hst.
  assert (Ev : focus_view W fuel (original_path e) s = Ret tt s1).
  { unfold focus_view. rewrite (bind_ret _ _ _ _ _ Eg).
    apply Z.eqb_neq in Hst. now rewrite Hst. }
  split; [exact Ev|]. split.
  { unfold loop_body. rewrite Hm, He. unfold bind. now rewrite Ev. }
  destruct (generate_focus_returns W (original_path e) s)
    as [st' [fp' [s1' [E' F]]]].
  rewrite Eg in E'. injection E' as _ _ <-.
  destruct F as [F1 [F2 [F3 [F4 [F5 F6]]]]]. repeat split; assumption.
Qed.

Lemma focus_failure_returns_witness :
  exists s1,
    loop_body (sample_world "q" 24 1) 0 (sample_list 3) 4
              (mkLoop MODE_FOCUS 2 1) initial_state
    = Ret (mkLoop MODE_GRID 2 1) s1 /\
    reads s1 = 0%nat /\ scroll_offset s1 = 0.
Proof.
  eexists.
  destruct (focus_failure_returns (sample_world "q" 24 1) 0 (sample_list 3) 4
              (mkLoop MODE_FOCUS 2 1) initial_state sample_entry (-1) None
              _ eq_refl eq_refl eq_refl) as [_ [E [R [S0 _]]]].
  - discriminate.
  - split; [exact E|]. split; [exact R | exact S0].
Defined.

(** ** Start-up errors *)

Lemma parse_options_accepted argv opts :
  options_accepted opts = true ->
  forall g s, exists g', parse_options argv opts g s = Ret g' s /\
                         (1 <= g -> 1 <= g').
Proof.
  induction opts as [|[opt optarg] rest IH]; intros H g s.
  - exists g. split; [reflexivity | auto].
  - change (options_accepted ((opt, optarg) :: rest))
      with ((opt =? code "c") && options_accepted rest) in H.
    apply andb_true_iff in H. destruct H as [H1 H2].
    cbn [parse_options]. rewrite H1.
    destruct (IH H2 (if atoi optarg <? 1 then 4 else atoi optarg) s)
      as [g' [E G]].
    exists g'. split; [exact E|]. intros _. apply G.
    destruct (Z.ltb_spec (atoi optarg) 1); lia.
Qed.

Lemma load_dir_entries_none W dir names :
  forallb (fun n => negb (shown W dir n)) names = true ->
  forall l s, load_dir_entries W dir names l s = Ret l s.
Proof.
  induction names as [|name rest IH]; intros H l s; [reflexivity|].
  cbn in H. apply andb_true_iff in H. destruct H as [H1 H2].
  cbn [load_dir_entries]. unfold shown in H1.
  destruct (is_hidden name); [apply IH, H2|].
  cbn [negb andb] in H1. apply negb_true_iff in H1. cbv zeta. rewrite H1.
  apply IH, H2.
Qed.

Lemma append_assoc (a b c : string) : (a ++ b) ++ c = a ++ (b ++ c).
Proof. induction a; simpl; [reflexivity | now rewrite IHa]. Qed.

Lemma append_nil_r (a : string) : a ++ "" = a.
Proof. induction a; simpl; [reflexivity | now rewrite IHa]. Qed.

(** C9, as amended.  With every option accepted: when the positional
    argument is missing the program writes the usage message to standard
    error and exits with [EXIT_FAILURE], a non-zero status; when the
    directory named first cannot be opened it writes the line of [perror]
    and [Could not read directory.] (not the usage message) and exits with
    status 1; when the directory lists no regular, non-hidden file it
    writes [No images found.] and exits with status 1.  In each case
    nothing has been written to standard output and the terminal mode is
    untouched. *)
Theorem startup_errors (W : World) (fuel : nat) (argv : list string) :
  options_accepted (w_getopt W) = true ->
  let argc := Z.of_nat (List.length argv) in
  let run := main W fuel argv initial_state in
  let nl := String NL "" in
  EXIT_FAILURE <> 0 /\
  (w_optind W >= argc ->
   exits_with run EXIT_FAILURE (sprintf usage_fmt [ArgS (argv0 argv)])) /\
  (forall first,
     0 <= w_optind W < argc ->
     nth_error argv (Z.to_nat (w_optind W)) = Some first ->
     w_isdir W first = true ->
     (w_opendir W first = None ->
      exits_with run 1
        ("opendir: " ++ w_strerror W ++ nl ++ "Could not read directory." ++ nl))
     /\
     (forall names,
        w_opendir W first = Some names ->
        forallb (fun n => negb (shown W first n)) names = true ->
        exits_with run 1 ("No images found." ++ nl))).
Proof.
  intros Hopt argc run nl.
  destruct (parse_options_accepted argv (w_getopt W) Hopt 4 initial_state)
    as [g [Ep _]].
  split; [discriminate|]. split.
  - intros Hmiss. unfold exits_with. eexists. split.
    + unfold run, main. rewrite (bind_ret _ _ _ _ _ Ep).
      fold argc.
      replace (w_optind W >=? argc) with true
        by (symmetry; apply Z.geb_le; lia).
      reflexivity.
    + repeat split.
  - intros first Hin Hnth Hdir.
    assert (Hge : (w_optind W >=? argc) = false).
    { rewrite Z.geb_leb. apply Z.leb_gt. lia. }
    assert (Hlt : (w_optind W <? 0) = false) by (apply Z.ltb_ge; lia).
    split.
    + intros Hopen. unfold exits_with. eexists. split.
      * unfold run, main. rewrite (bind_ret _ _ _ _ _ Ep).
        fold argc. rewrite Hge, Hlt, Hnth.
        unfold bind at 1. cbn [ret]. rewrite Hdir.
        unfold load_images_from_dir. rewrite Hopen.
        reflexivity.
      * split; [|split; reflexivity].
        cbn. rewrite ?append_assoc, ?append_nil_r. reflexivity.
    + intros names Hopen Hnone. unfold exits_with. eexists. split.
      * unfold run, main. rewrite (bind_ret _ _ _ _ _ Ep).
        fold argc. rewrite Hge, Hlt, Hnth.
        unfold bind at 1. cbn [ret]. rewrite Hdir.
        unfold load_images_from_dir. rewrite Hopen.
        unfold bind.
        rewrite (load_dir_entries_none W first names Hnone).
        reflexivity.
      * repeat split.
Qed.

Lemma startup_errors_witness :
  exits_with (main unreadable_dir_world 0 ["iv"; "pics"] initial_state) 1
    ("opendir: Permission denied" ++ String NL ""
     ++ "Could not read directory." ++ String NL "")
  /\
  exits_with (main empty_dir_world 0 ["iv"; "pics"] initial_state) 1
    ("No images found." ++ String NL "").
Proof.
  split.
  - destruct (startup_errors unreadable_dir_world 0 ["iv"; "pics"] eq_refl)
      as [_ [_ H]].
    destruct (H "pics") as [H1 _].
    + vm_compute; split; [discriminate | reflexivity].
    + reflexivity.
    + reflexivity.
    + apply H1. reflexivity.
  - destruct (startup_errors empty_dir_world 0 ["iv"; "pics"] eq_refl)
      as [_ [_ H]].
    destruct (H "pics") as [_ H2].
    + vm_compute; split; [discriminate | reflexivity].
    + reflexivity.
    + reflexivity.
    + apply (H2 [".."; ".git"; "sub"]); reflexivity.
Defined.

(** C9 as stated fails for an unreadable directory: what the program writes
    to standard error is not the usage message. *)
Lemma unreadable_directory_no_usage :
  main unreadable_dir_world 0 ["iv"; "pics"] initial_state
  = Exit 1 (set_stderr ("opendir: Permission denied" ++ String NL ""
                        ++ "Could not read directory." ++ String NL "")
                       initial_state)
  /\ occurs "Usage"
       ("opendir: Permission denied" ++ String NL ""
        ++ "Could not read directory." ++ String NL "") = false.
Proof. split; vm_compute; reflexivity. Qed.

(** * Further properties of the code *)

(** ** The base64 buffer *)

Lemma length_append (a b : string) :
  String.length (a ++ b) = (String.length a + String.length b)%nat.
Proof. induction a; simpl; [reflexivity | now rewrite IHa]. Qed.

Lemma quad_length vp : String.length (quad vp) = 4%nat.
Proof. destruct vp. reflexivity. Qed.

Lemma b64_groups_length p :
  Z.of_nat (String.length (b64_groups p))
  = 4 * ((Z.of_nat (String.length p) + 2) / 3).
Proof.
  induction p as [|a|a b|a b c rest IH] using string_ind3.
  - reflexivity.
  - cbn [b64_groups]. rewrite quad_length. reflexivity.
  - cbn [b64_groups]. rewrite quad_length. reflexivity.
  - cbn [b64_groups]. rewrite length_append, quad_length.
    cbn [String.length].
    replace (Z.of_nat (S (S (S (String.length rest)))) + 2)
      with (Z.of_nat (String.length rest) + 2 + 1 * 3) by lia.
    rewrite Z.div_add by lia. lia.
Qed.

Lemma base64_char_not_nul :
  forall k, 0 <= k < 64 -> Ascii.eqb (base64_char k) zero = false.
Proof. each_below_64. Qed.

(** X1.  [b64encode_path] always returns.  When its [calloc] succeeds the
    result holds exactly [4 * ((len + 2) / 3)] bytes, the [outlen] of line
    239, none of them NUL: the string ends where the buffer of [outlen + 1]
    bytes does.  When the [calloc] fails the result is [NULL]. *)
Theorem b64encode_path_fills_buffer (W : World) (path : string) (s : State) :
  let outlen := 4 * ((Z.of_nat (String.length path) + 2) / 3) in
  exists r s',
    b64encode_path W path s = Ret r s' /\
    match r with
    | Some out =>
        w_alloc W (allocs s) = true /\
        Z.of_nat (String.length out) = outlen /\
        all_chars (fun c => negb (Ascii.eqb c zero)) out = true
    | None => w_alloc W (allocs s) = false
    end.
Proof.
  cbv zeta. unfold b64encode_path, bind, sys_alloc.
  destruct (w_alloc W (allocs s)) eqn:E; do 2 eexists;
    (split; [reflexivity|]); cbn beta iota.
  - split; [reflexivity|]. split; [apply b64_groups_length|].
    rewrite b64_groups_standard.
    induction path as [|a|a b|a b c rest IH] using string_ind3.
    + reflexivity.
    + pose proof (code_range a). cbn [base64_encode]. cbv zeta.
      set (n := code a * 65536). digits_of n. cbn [all_chars].
      rewrite !base64_char_not_nul by assumption. reflexivity.
    + pose proof (code_range a). pose proof (code_range b).
      cbn [base64_encode]. cbv zeta.
      set (n := code a * 65536 + code b * 256). digits_of n. cbn [all_chars].
      rewrite !base64_char_not_nul by assumption. reflexivity.
    + pose proof (code_range a). pose proof (code_range b).
      pose proof (code_range c).
      cbn [base64_encode]. cbv zeta.
      set (n := code a * 65536 + code b * 256 + code c). digits_of n.
      cbn [all_chars].
      rewrite !base64_char_not_nul by assumption. rewrite IH. reflexivity.
  - reflexivity.
Qed.

(** ** Display never writes a broken sequence *)

(** X2.  Whatever the path pointer and the outcome of the allocation,
    [display_thumbnail_kitty] returns having written either one complete
    control sequence whose payload decodes to the path, or one of the
    placeholders [[?]] and [[b64-fail]], which hold no ESC and only visible
    characters; [display_focus_kitty] writes one complete sequence or
    nothing.  Neither changes anything but standard output and the count of
    allocations. *)
Theorem display_never_malformed (W : World) (thumb : option string) (s : State) :
  (exists out s',
     display_thumbnail_kitty W thumb s = Ret tt s' /\
     stdout s' = stdout s ++ out /\ only_draws s s' /\
     ((exists path payload,
         thumb = Some path /\ w_alloc W (allocs s) = true /\
         kitty_payload out = Some payload /\
         base64_decode payload = Some path) \/
      ((thumb = None \/ w_alloc W (allocs s) = false) /\
       (out = "[?]" \/ out = "[b64-fail]") /\
       occurs (String ESC "") out = false /\
       all_chars visible_char out = true))) /\
  (exists out s',
     display_focus_kitty W thumb s = Ret tt s' /\
     stdout s' = stdout s ++ out /\ only_draws s s' /\
     ((exists path payload,
         thumb = Some path /\ w_alloc W (allocs s) = true /\
         kitty_payload out = Some payload /\
         base64_decode payload = Some path) \/
      ((thumb = None \/ w_alloc W (allocs s) = false) /\ out = ""))).
Proof.
  split.
  - destruct thumb as [path|].
    + destruct (w_alloc W (allocs s)) eqn:E.
      * eexists. eexists. split; [apply display_thumbnail_run, E|].
        split; [reflexivity|]. split; [repeat split|].
        left. exists path, (base64_encode path).
        split; [reflexivity|]. split; [reflexivity|]. split.
        { apply kitty_payload_display;
            [now left | apply base64_encode_no_esc]. }
        apply base64_roundtrip.
      * exists "[b64-fail]". eexists. split.
        { unfold display_thumbnail_kitty, b64encode_path, bind, sys_alloc.
          rewrite E. reflexivity. }
        split; [reflexivity|]. split; [repeat split|].
        right. split; [now right|]. split; [now right|].
        split; reflexivity.
    + exists "[?]". eexists. split; [reflexivity|].
      split; [reflexivity|]. split; [repeat split|].
      right. split; [now left|]. split; [now left|]. split; reflexivity.
  - destruct thumb as [path|].
    + destruct (w_alloc W (allocs s)) eqn:E.
      * eexists. eexists. split; [apply display_focus_run, E|].
        split; [reflexivity|]. split; [repeat split|].
        left. exists path, (base64_encode path).
        split; [reflexivity|]. split; [reflexivity|]. split.
        { apply kitty_payload_display;
            [now right | apply base64_encode_no_esc]. }
        apply base64_roundtrip.
      * exists "". eexists. split.
        { unfold display_focus_kitty, b64encode_path, bind, sys_alloc.
          rewrite E. reflexivity. }
        split; [cbn; now rewrite append_nil_r|]. split; [repeat split|].
        right. split; [now right | reflexivity].
    + exists "". eexists. split; [reflexivity|].
      split; [now rewrite append_nil_r|]. split; [apply only_draws_refl|].
      right. split; [now left | reflexivity].
Qed.

(** ** File names and options *)

Lemma after_last_slash_none s :
  after_last_slash s = None -> all_chars not_slash s = true.
Proof.
  induction s as [|c rest IH]; [reflexivity|].
  cbn [after_last_slash all_chars].
  destruct (after_last_slash rest) as [t|]; [discriminate|].
  unfold not_slash at 1. destruct (Ascii.eqb c "/"); [discriminate|].
  intros _. now rewrite IH.
Qed.

Lemma after_last_slash_some s t :
  after_last_slash s = Some t ->
  all_chars not_slash t = true /\ exists dir, s = dir ++ String "/" t.
Proof.
  revert t. induction s as [|c rest IH]; intros t; [discriminate|].
  cbn [after_last_slash].
  destruct (after_last_slash rest) as [u|] eqn:E.
  - intros [= <-]. destruct (IH u eq_refl) as [H [dir ->]].
    split; [exact H|]. exists (String c dir). reflexivity.
  - destruct (Ascii.eqb_spec c "/") as [->|]; [|discriminate].
    intros [= <-]. split; [now apply after_last_slash_none|].
    exists "". reflexivity.
Qed.

(** X3.  The file name [generate_thumbnail] and [generate_focus] put into
    the temporary path holds no ['/']: it is the whole path when that has no
    ['/'], and what follows its last ['/'] otherwise. *)
Theorem file_name_is_base_name (orig : string) :
  all_chars not_slash (file_name orig) = true /\
  (all_chars not_slash orig = true -> file_name orig = orig) /\
  (all_chars not_slash orig = false ->
   exists dir, orig = dir ++ String "/" (file_name orig)).
Proof.
  unfold file_name. destruct (after_last_slash orig) as [t|] eqn:E.
  - destruct (after_last_slash_some orig t E) as [H [dir ->]].
    split; [exact H|]. split.
    + intros A. exfalso. clear - A.
      induction dir as [|c dir IH]; cbn in A.
      * discriminate.
      * apply andb_true_iff in A. destruct A as [_ A]. now apply IH.
    + intros _. now exists dir.
  - pose proof (after_last_slash_none orig E) as H.
    split; [exact H|]. split; [reflexivity|]. rewrite H. discriminate.
Qed.

Lemma atoi_is_int s : is_int (atoi s).
Proof.
  unfold atoi. apply to_int_range.
Qed.

Lemma parse_options_last argv opts :
  options_accepted opts = true ->
  forall g s,
    parse_options argv opts g s
    = Ret (match opts with
           | [] => g
           | _ => columns_of (snd (last opts (0, "")))
           end) s.
Proof.
  induction opts as [|[opt optarg] rest IH]; intros H g s; [reflexivity|].
  change (options_accepted ((opt, optarg) :: rest))
    with ((opt =? code "c") && options_accepted rest) in H.
  apply andb_true_iff in H. destruct H as [H1 H2].
  cbn [parse_options]. rewrite H1. rewrite (IH H2).
  destruct rest as [|o rest']; reflexivity.
Qed.

Lemma digits_value_acc (d : Decimal.uint) :
  forall acc : positive,
    digits_value (NilEmpty.string_of_uint d) (Z.pos acc)
    = Z.pos (Pos.of_uint_acc d acc).
Proof.
  induction d; intros acc; cbn [NilEmpty.string_of_uint Pos.of_uint_acc];
    [reflexivity|..];
    cbn [digits_value]; 
    match goal with |- context [isdigit ?c] =>
      change (isdigit c) with true end;
    cbv iota; rewrite <- IHd; f_equal;
    match goal with |- context [code ?c] =>
      let v := eval vm_compute in (code c) in change (code c) with v end;
    lia.
Qed.

Lemma digits_value_uint (d : Decimal.uint) :
  digits_value (NilEmpty.string_of_uint d) 0 = Z.of_N (Pos.of_uint d).
Proof.
  induction d; cbn [NilEmpty.string_of_uint Pos.of_uint]; [reflexivity|..];
    cbn [digits_value];
    match goal with |- context [isdigit ?c] =>
      change (isdigit c) with true end;
    cbv iota;
    match goal with |- context [code ?c] =>
      let v := eval vm_compute in (code c) in change (code c) with v end;
    [exact IHd | ..]; cbn [Z.mul Z.add Z.sub Z.of_N Z.pos_sub];
    apply digits_value_acc.
Qed.

(** [atoi] reads back what [%d] prints. *)
Lemma atoi_fmt_d (n : Z) : 1 <= n <= INT_MAX -> atoi (fmt_d n) = n.
Proof.
  intros Hn. destruct n as [|p|p]; try lia.
  unfold fmt_d. cbn [Z.to_int NilZero.string_of_int].
  pose proof (DecimalPos.Unsigned.to_uint_nonnil p) as Hnil.
  pose proof (DecimalPos.Unsigned.of_to p) as Hof.
  unfold NilZero.string_of_uint.
  assert (Hv : strtol (NilEmpty.string_of_uint (Pos.to_uint p)) = Z.pos p).
  { unfold strtol.
    assert (Hd : match skip_spaces (NilEmpty.string_of_uint (Pos.to_uint p)) with
                 | String "-"%char rest => - digits_value rest 0
                 | String "+"%char rest => digits_value rest 0
                 | t => digits_value t 0
                 end
                 = digits_value (NilEmpty.string_of_uint (Pos.to_uint p)) 0).
    { destruct (Pos.to_uint p); [now elim Hnil|..]; reflexivity. }
    rewrite Hd, digits_value_uint, Hof. cbn [Z.of_N].
    unfold LONG_MIN, LONG_MAX. unfold INT_MAX in Hn. lia. }
  destruct (Pos.to_uint p) eqn:E; [now elim Hnil|..];
    unfold atoi; rewrite Hv; apply to_int_id; int_range.
Qed.

(** X4.  When every option is [-c], the option loop returns a column count
    between 1 and [INT_MAX] and writes nothing: 4 without options, and
    otherwise what the last [-c] gives, which is 4 when [atoi] of its
    argument is below 1 and that number otherwise; for the decimal numeral
    of a number from 1 to [INT_MAX] it is that number.  [atoi] is the C
    library's [(int) strtol]: a numeral beyond [long] gives -1, hence 4
    columns. *)
Theorem parse_options_columns (argv : list string) (opts : list (Z * string))
    (s : State) :
  options_accepted opts = true ->
  exists g,
    parse_options argv opts 4 s = Ret g s /\
    1 <= g <= INT_MAX /\
    (opts = [] -> g = 4) /\
    (forall opt optarg rest, opts = (rest ++ [(opt, optarg)])%list ->
       (atoi optarg < 1 -> g = 4) /\ (1 <= atoi optarg -> g = atoi optarg) /\
       (forall n, 1 <= n <= INT_MAX -> optarg = fmt_d n -> g = n)).
Proof.
  intros H. eexists. split; [apply parse_options_last, H|].
  split.
  - destruct opts as [|o rest]; [int_range|].
    unfold columns_of. pose proof (atoi_is_int (snd (last (o :: rest) (0, "")))).
    destruct (Z.ltb_spec (atoi (snd (last (o :: rest) (0, "")))) 1); int_range.
  - split.
    + intros ->. reflexivity.
    + intros opt optarg rest ->.
      destruct (rest ++ [(opt, optarg)])%list eqn:E;
        [destruct rest; discriminate|].
      rewrite <- E. rewrite last_last. cbn [snd]. unfold columns_of.
      split; [|split].
      * destruct (Z.ltb_spec (atoi optarg) 1); intros; lia.
      * destruct (Z.ltb_spec (atoi optarg) 1); intros; lia.
      * intros n Hn ->. rewrite (atoi_fmt_d n Hn).
        destruct (Z.ltb_spec n 1); lia.
Qed.

Lemma parse_options_columns_witness :
  parse_options ["iv"; "-c"; "0"; "-c"; " 7x"]
    [(code "c", "0"); (code "c", " 7x")] 4 initial_state
  = Ret 7 initial_state /\
  parse_options ["iv"; "-c"; "18446744073709551621"]
    [(code "c", "18446744073709551621")] 4 initial_state
  = Ret 4 initial_state.
Proof.
  split.
  - destruct (parse_options_columns ["iv"; "-c"; "0"; "-c"; " 7x"]
                [(code "c", "0"); (code "c", " 7x")] initial_state eq_refl)
      as [g [E [_ [_ L]]]].
    destruct (L (code "c") " 7x" [(code "c", "0")] eq_refl) as [_ [L2 _]].
    rewrite E. f_equal. apply L2. vm_compute. discriminate.
  - destruct (parse_options_columns ["iv"; "-c"; "18446744073709551621"]
                [(code "c", "18446744073709551621")] initial_state eq_refl)
      as [g [E [_ [_ L]]]].
    destruct (L (code "c") "18446744073709551621" [] eq_refl) as [L1 _].
    rewrite E. f_equal. apply L1. vm_compute. reflexivity.
Defined.

(** X5.  The first option [getopt] rejects ends the process with
    [EXIT_FAILURE], whatever options come before and after it: standard
    error then holds the diagnostic [getopt] has written for it, followed by
    the usage line, and standard output is as it was. *)
Theorem parse_options_rejects (argv : list string)
    (accepted rest : list (Z * string)) (opt : Z) (diagnostic : string)
    (g : Z) (s : State) :
  options_accepted accepted = true ->
  opt <> code "c" ->
  exists s',
    parse_options argv (accepted ++ (opt, diagnostic) :: rest)%list g s
    = Exit EXIT_FAILURE s' /\
    stderr s' = stderr s ++ diagnostic ++ "Usage: " ++ argv0 argv
                ++ " [-c columns] [directory or imagefiles...]"
                ++ String NL "" /\
    stdout s' = stdout s.
Proof.
  intros H Hopt. revert g.
  induction accepted as [|[o a] acc IH]; intros g.
  - cbn [app parse_options]. apply Z.eqb_neq in Hopt. rewrite Hopt.
    unfold bind, eprintf, exit. eexists. split; [reflexivity|].
    unfold run_atexit.
    match goal with |- context [if ?b then _ else _] => destruct b end;
      cbn [stderr stdout set_stderr set_raw_mode sprintf];
      rewrite ?append_nil_r, append_assoc; split; reflexivity.
  - change (options_accepted ((o, a) :: acc))
      with ((o =? code "c") && options_accepted acc) in H.
    apply andb_true_iff in H. destruct H as [H1 H2].
    cbn [app parse_options]. rewrite H1. apply IH, H2.
Qed.

Lemma parse_options_rejects_witness :
  exists s',
    parse_options ["iv"; "-c"; "3"; "-x"]
      [(code "c", "3");
       (code "?", "iv: invalid option -- 'x'" ++ String NL "")]
      4 initial_state
    = Exit 1 s' /\
    stderr s' = "iv: invalid option -- 'x'" ++ String NL ""
                ++ "Usage: iv [-c columns] [directory or imagefiles...]"
                ++ String NL "".
Proof.
  destruct (parse_options_rejects ["iv"; "-c"; "3"; "-x"] [(code "c", "3")] []
              (code "?") ("iv: invalid option -- 'x'" ++ String NL "") 4
              initial_state eq_refl) as [s' [E [R _]]].
  - vm_compute. discriminate.
  - exists s'. split; [exact E | exact R].
Defined.

(** ** Loading *)

Lemma add_image_entry_ok W l path s :
  w_alloc W (allocs s) = true ->
  add_image_entry W l path s
  = Ret (l ++ [fresh_entry path])%list (set_allocs (S (allocs s)) s).
Proof.
  intros H. unfold add_image_entry, bind, sys_alloc. now rewrite H.
Qed.

Lemma add_image_entry_fails W l path s :
  w_alloc W (allocs s) = false ->
  add_image_entry W l path s
  = Exit EXIT_FAILURE
      (run_atexit
         (set_stderr (stderr s ++ "Out of memory." ++ String NL "")
                     (set_allocs (S (allocs s)) s))).
Proof.
  intros H. unfold add_image_entry, bind, sys_alloc. now rewrite H.
Qed.

Lemma load_images_from_argv_ok W paths :
  forall l s,
    (forall k, (k < List.length paths)%nat ->
               w_alloc W (allocs s + k) = true) ->
    load_images_from_argv W paths l s
    = Ret (l ++ map fresh_entry paths)%list
          (set_allocs (allocs s + List.length paths) s).
Proof.
  induction paths as [|p rest IH]; intros l s H.
  - cbn. rewrite app_nil_r, Nat.add_0_r. destruct s; reflexivity.
  - cbn [load_images_from_argv].
    rewrite (bind_ret _ _ _ _ _ (add_image_entry_ok W l p s
               ltac:(rewrite <- (Nat.add_0_r (allocs s)); apply H; cbn; lia))).
    rewrite IH.
    + cbn [map List.length allocs set_allocs]. rewrite <- app_assoc. cbn [app].
      f_equal. rewrite Nat.add_succ_r. destruct s; reflexivity.
    + intros k Hk. cbn [allocs set_allocs].
      replace (S (allocs s) + k)%nat with (allocs s + S k)%nat by lia.
      apply H. cbn. lia.
Qed.

Lemma load_images_from_argv_oom W paths :
  forall l s k,
    (k < List.length paths)%nat ->
    (forall j, (j < k)%nat -> w_alloc W (allocs s + j) = true) ->
    w_alloc W (allocs s + k) = false ->
    load_images_from_argv W paths l s
    = Exit EXIT_FAILURE
        (run_atexit
           (set_stderr (stderr s ++ "Out of memory." ++ String NL "")
                       (set_allocs (S (allocs s + k)) s))).
Proof.
  induction paths as [|p rest IH]; intros l s k Hk Hok Hfail;
    [cbn in Hk; lia|].
  cbn [load_images_from_argv]. destruct k as [|k].
  - rewrite Nat.add_0_r in *. unfold bind.
    now rewrite (add_image_entry_fails W l p s Hfail).
  - rewrite (bind_ret _ _ _ _ _ (add_image_entry_ok W l p s
               ltac:(rewrite <- (Nat.add_0_r (allocs s)); apply Hok; lia))).
    rewrite (IH _ _ k); cbn [allocs set_allocs stderr].
    + rewrite Nat.add_succ_r. destruct s; reflexivity.
    + cbn in Hk. lia.
    + intros j Hj. replace (S (allocs s) + j)%nat with (allocs s + S j)%nat
        by lia. apply Hok. lia.
    + now replace (S (allocs s) + k)%nat with (allocs s + S k)%nat by lia.
Qed.

(** X6.  When its allocations succeed, [load_images_from_argv] appends one
    entry per path, in the order given and keeping duplicates, each without
    thumbnail and not generated, and writes nothing. *)
Theorem load_images_from_argv_loads (W : World) (paths : list string)
    (l : ImageList) (s : State) :
  (forall k, (k < List.length paths)%nat ->
             w_alloc W (allocs s + k) = true) ->
  exists l' s',
    load_images_from_argv W paths l s = Ret l' s' /\
    l' = (l ++ map fresh_entry paths)%list /\
    count l' = count l + Z.of_nat (List.length paths) /\
    map original_path l' = (map original_path l ++ paths)%list /\
    stdout s' = stdout s /\ stderr s' = stderr s.
Proof.
  intros H. do 2 eexists. split; [apply load_images_from_argv_ok, H|].
  split; [reflexivity|]. split.
  - unfold count. rewrite length_app, length_map. lia.
  - split; [|split; reflexivity].
    rewrite map_app, map_map. cbn [fresh_entry original_path].
    now rewrite map_id.
Qed.

Lemma load_images_from_argv_loads_witness :
  exists s',
    load_images_from_argv (sample_world "" 24 0) ["b.png"; "a.png"; "b.png"]
      [] initial_state
    = Ret [fresh_entry "b.png"; fresh_entry "a.png"; fresh_entry "b.png"] s'.
Proof.
  destruct (load_images_from_argv_loads (sample_world "" 24 0)
              ["b.png"; "a.png"; "b.png"] [] initial_state)
    as [l' [s' [E [L _]]]].
  - reflexivity.
  - exists s'. rewrite E, L. reflexivity.
Defined.

(** X7.  When the allocation for the path at index [k] is the first to
    fail, [load_images_from_argv] ends the process with [EXIT_FAILURE] and
    [Out of memory.] on standard error, and nothing on standard output. *)
Theorem load_images_from_argv_out_of_memory (W : World) (paths : list string)
    (l : ImageList) (s : State) (k : nat) :
  (k < List.length paths)%nat ->
  (forall j, (j < k)%nat -> w_alloc W (allocs s + j) = true) ->
  w_alloc W (allocs s + k) = false ->
  exists s',
    load_images_from_argv W paths l s = Exit EXIT_FAILURE s' /\
    stderr s' = stderr s ++ "Out of memory." ++ String NL "" /\
    stdout s' = stdout s.
Proof.
  intros Hk Hok Hfail. eexists.
  split; [apply (load_images_from_argv_oom W paths l s k Hk Hok Hfail)|].
  unfold run_atexit.
  match goal with |- context [if ?b then _ else _] => destruct b end;
    split; reflexivity.
Qed.

Lemma load_images_from_argv_out_of_memory_witness :
  exists s',
    load_images_from_argv scarce_memory_world ["a.png"; "b.png"; "c.png"] []
      initial_state = Exit 1 s' /\
    stderr s' = "Out of memory." ++ String NL "".
Proof.
  destruct (load_images_from_argv_out_of_memory scarce_memory_world
              ["a.png"; "b.png"; "c.png"] [] initial_state 1)
    as [s' [E [R _]]].
  - cbn. lia.
  - intros [|j] Hj; [reflexivity | lia].
  - reflexivity.
  - exists s'. split; [exact E | exact R].
Defined.

Lemma load_dir_entries_ok W dir names :
  forall l s,
    (forall k, (k < List.length (filter (shown W dir) names))%nat ->
               w_alloc W (allocs s + k) = true) ->
    load_dir_entries W dir names l s
    = Ret (l ++ map (fun n => fresh_entry (dir_entry_path dir n))
                    (filter (shown W dir) names))%list
          (set_allocs (allocs s + List.length (filter (shown W dir) names)) s).
Proof.
  induction names as [|name rest IH]; intros l s H.
  - cbn. rewrite app_nil_r, Nat.add_0_r. destruct s; reflexivity.
  - cbn [load_dir_entries filter]. cbn [filter] in H.
    assert (Es : shown W dir name
                 = negb (is_hidden name) && w_isreg W (dir_entry_path dir name))
      by reflexivity.
    change (snprintf 4096 "%s/%s" [ArgS dir; ArgS name])
      with (dir_entry_path dir name).
    destruct (is_hidden name); cbn [negb andb] in Es.
    { rewrite Es in *. apply IH, H. }
    cbv zeta. destruct (w_isreg W (dir_entry_path dir name)); rewrite Es in *;
      [|apply IH, H].
    rewrite (bind_ret _ _ _ _ _ (add_image_entry_ok W l _ s
               ltac:(rewrite <- (Nat.add_0_r (allocs s)); apply H; cbn; lia))).
    rewrite IH.
    + cbn [map List.length allocs set_allocs]. rewrite <- app_assoc. cbn [app].
      f_equal. rewrite Nat.add_succ_r. destruct s; reflexivity.
    + intros k Hk. cbn [allocs set_allocs].
      replace (S (allocs s) + k)%nat with (allocs s + S k)%nat by lia.
      apply H. cbn [List.length]. lia.
Qed.

(** X8.  On a directory that opens, and with its allocations succeeding,
    [load_images_from_dir] returns 0 and appends, in the order [readdir]
    yields them, exactly the names that do not start with ['.'] and whose
    path [dir/name] is a regular file, each under that path. *)
Theorem load_images_from_dir_lists (W : World) (dir : string)
    (names : list string) (l : ImageList) (s : State) :
  w_opendir W dir = Some names ->
  (forall k, (k < List.length (filter (shown W dir) names))%nat ->
             w_alloc W (allocs s + k) = true) ->
  let listed := filter (shown W dir) names in
  load_images_from_dir W dir l s
  = Ret (0, (l ++ map (fun n => fresh_entry (dir_entry_path dir n)) listed)%list)
        (set_allocs (allocs s + List.length listed) s) /\
  Forall (fun n => is_hidden n = false /\
                   w_isreg W (dir_entry_path dir n) = true /\ In n names)
         listed.
Proof.
  intros H Ha listed. split.
  - unfold load_images_from_dir. rewrite H.
    rewrite (bind_ret _ _ _ _ _ (load_dir_entries_ok W dir names l s Ha)).
    reflexivity.
  - apply Forall_forall. intros n Hn. apply filter_In in Hn.
    destruct Hn as [Hin Hs]. unfold shown in Hs.
    apply andb_true_iff in Hs. destruct Hs as [Hh Hr].
    apply negb_true_iff in Hh. repeat split; assumption.
Qed.

Lemma load_images_from_dir_lists_witness :
  load_images_from_dir listing_world "pics" [] initial_state
  = Ret (0, [fresh_entry "pics/b.png"; fresh_entry "pics/a.png"])
        (set_allocs 2 initial_state).
Proof.
  destruct (load_images_from_dir_lists listing_world "pics"
              [".."; "b.png"; ".hidden"; "sub"; "a.png"] [] initial_state
              eq_refl) as [E _]; [reflexivity | exact E].
Defined.

(** ** Thumbnails and their removal *)

Lemma generate_thumbnail_cases W orig out s :
  exists st tp s1,
    generate_thumbnail W orig out s = Ret (st, tp) s1 /\
    ((st = 0 /\ tp = Some (thumb_tmp orig)) \/
     (st <> 0 /\ (tp = out \/ tp = None))) /\
    stdout s1 = stdout s /\ scroll_offset s1 = scroll_offset s /\
    raw_mode s1 = raw_mode s /\ atexit_hook s1 = atexit_hook s /\
    reads s1 = reads s /\ removed s1 = removed s /\
    ioctls s1 = ioctls s /\ systems s1 = S (systems s).
Proof.
  unfold generate_thumbnail. cbv zeta. unfold bind, sys_system, sys_alloc.
  match goal with |- context [w_system W (systems s) ?c] =>
    destruct (w_system W (systems s) c =? 0) end; cbn [negb].
  - cbn [allocs set_systems].
    destruct (w_alloc W (allocs s)); do 3 eexists;
      (split; [reflexivity|]).
    + split; [left; split; reflexivity|]. repeat split.
    + split; [right; split; [discriminate | now right]|]. repeat split.
  - do 3 eexists. split; [reflexivity|].
    split; [right; split; [discriminate | now left]|]. repeat split.
Qed.

Lemma generate_thumbnails_run W l :
  forall s,
    exists l' s',
      generate_thumbnails W l s = Ret l' s' /\
      Forall2 thumb_outcome l l' /\
      stdout s' = stdout s /\ scroll_offset s' = scroll_offset s /\
      raw_mode s' = raw_mode s /\ atexit_hook s' = atexit_hook s /\
      reads s' = reads s /\ removed s' = removed s /\
      ioctls s' = ioctls s /\
      systems s' = (systems s + List.length l)%nat.
Proof.
  induction l as [|e rest IH]; intros s.
  - exists [], s. split; [reflexivity|]. split; [constructor|].
    repeat split. cbn. lia.
  - cbn [generate_thumbnails].
    destruct (generate_thumbnail_cases W (original_path e) (thumb_path e) s)
      as [st [tp [s1 [E [C F]]]]].
    rewrite (bind_ret _ _ _ _ _ E). cbv beta iota.
    destruct (IH s1) as [rest' [s' [E' [F2 G]]]].
    rewrite (bind_ret _ _ _ _ _ E').
    eexists. exists s'. split; [reflexivity|]. split.
    + constructor; [|exact F2].
      destruct C as [[-> ->]|[Hst [->| ->]]].
      * split; [reflexivity|]. left. split; reflexivity.
      * apply Z.eqb_neq in Hst. rewrite Hst.
        split; [reflexivity|]. right. left. split; reflexivity.
      * apply Z.eqb_neq in Hst. rewrite Hst.
        split; [reflexivity|]. right. right. split; reflexivity.
    + destruct F as [F1 [F3 [F4 [F5 [F6 [F7 [F8 F9]]]]]]].
      destruct G as [G1 [G3 [G4 [G5 [G6 [G7 [G8 G9]]]]]]].
      repeat split; try congruence. cbn [List.length]. lia.
Qed.

Lemma prefix_nil s : prefix "" s = true.
Proof. destruct s; reflexivity. Qed.

Lemma thumb_tmp_prefix orig : prefix "/tmp/iv_" (thumb_tmp orig) = true.
Proof.
  unfold thumb_tmp, snprintf.
  change (sprintf "%s/iv_%s.thumb.png" [ArgS TMP_DIR; ArgS (file_name orig)])
    with ("/tmp/iv_" ++ (file_name orig ++ ".thumb.png")).
  change (Z.to_nat (4096 - 1)) with (8 + 4087)%nat.
  cbn [Nat.add append substring prefix].
  repeat (destruct (ascii_dec _ _) as [_|N]; [|now elim N]).
  apply prefix_nil.
Qed.

Lemma remove_thumbnails_run l :
  forall s,
    remove_thumbnails l s
    = Ret tt (set_removed (removed s ++ owned_thumbs l)%list s).
Proof.
  induction l as [|e rest IH]; intros s.
  - cbn. rewrite app_nil_r. destruct s; reflexivity.
  - cbn [remove_thumbnails owned_thumbs flat_map].
    destruct (generated e), (thumb_path e) as [p|];
      unfold bind; cbn [sys_remove ret]; rewrite IH;
      cbn [removed set_removed]; rewrite <- ?app_assoc;
      destruct s; reflexivity.
Qed.

(** X9.  The thumbnail loop of [main] always returns.  It keeps the number,
    the order and the original paths of the items; it leaves each item with
    a generated thumbnail, as it was, or without thumbnail; it runs the
    converter once per item; and it neither draws, nor changes the terminal
    mode, nor removes a file. *)
Theorem generate_thumbnails_keeps_items (W : World) (l : ImageList) (s : State) :
  exists l' s',
    generate_thumbnails W l s = Ret l' s' /\
    count l' = count l /\
    map original_path l' = map original_path l /\
    Forall2 thumb_outcome l l' /\
    systems s' = (systems s + List.length l)%nat /\
    stdout s' = stdout s /\ raw_mode s' = raw_mode s /\
    removed s' = removed s.
Proof.
  destruct (generate_thumbnails_run W l s)
    as [l' [s' [E [F [G1 [G3 [G4 [G5 [G6 [G7 [G8 G9]]]]]]]]]]].
  exists l', s'. split; [exact E|].
  assert (Hlen : List.length l' = List.length l).
  { clear - F. induction F; cbn; congruence. }
  split; [unfold count; now rewrite Hlen|].
  split.
  { clear - F. induction F as [|e e' l l' [H _] _ IH]; cbn; congruence. }
  repeat split; assumption.
Qed.

(** X10.  For a list as the loaders leave it, once the thumbnail loop has
    run [remove_thumbnails] removes exactly the thumbnail files of the items
    marked generated, in list order; every one lies under [/tmp/iv_], and an
    item is marked generated exactly when it has a thumbnail path. *)
Theorem cleanup_removes_own_thumbnails (W : World) (l l' : ImageList)
    (s s1 s2 : State) :
  Forall (fun e => thumb_path e = None /\ generated e = false) l ->
  generate_thumbnails W l s = Ret l' s1 ->
  exists gone,
    remove_thumbnails l' s2 = Ret tt (set_removed (removed s2 ++ gone)%list s2) /\
    gone = map (fun e => thumb_tmp (original_path e))
               (filter generated l') /\
    Forall (fun p => prefix "/tmp/iv_" p = true) gone /\
    (forall e', In e' l' ->
       (generated e' = true <-> thumb_path e' <> None)).
Proof.
  intros Hfresh E.
  destruct (generate_thumbnails_run W l s) as [l0 [s0 [E0 [F _]]]].
  rewrite E in E0. injection E0 as <- <-.
  assert (Hinv : Forall (fun e' =>
            (generated e' = true /\
             thumb_path e' = Some (thumb_tmp (original_path e'))) \/
            (generated e' = false /\ thumb_path e' = None)) l').
  { clear - Hfresh F. induction F as [|e e' l l' [Ho C] _ IH];
      [constructor|].
    inversion Hfresh as [|? ? [Hn Hg] Hrest]; subst.
    constructor; [|apply IH, Hrest].
    rewrite Ho. destruct C as [[C1 C2]|[[C1 C2]|[C1 C2]]].
    - left. split; assumption.
    - right. split; congruence.
    - right. split; congruence. }
  exists (owned_thumbs l'). split; [apply remove_thumbnails_run|].
  assert (Eo : owned_thumbs l'
               = map (fun e => thumb_tmp (original_path e))
                     (filter generated l')).
  { clear - Hinv. induction Hinv as [|e' l' H _ IH]; [reflexivity|].
    cbn [owned_thumbs flat_map filter].
    destruct H as [[Hg Ht]|[Hg Ht]]; rewrite Hg, ?Ht; cbn [app map];
      fold (owned_thumbs l'); now rewrite IH. }
  split; [exact Eo|]. split.
  - rewrite Eo. apply Forall_forall. intros p Hp.
    apply in_map_iff in Hp. destruct Hp as [e [<- _]].
    apply thumb_tmp_prefix.
  - intros e' Hin. rewrite Forall_forall in Hinv.
    destruct (Hinv e' Hin) as [[Hg Ht]|[Hg Ht]]; rewrite Hg, Ht;
      split; intros; congruence.
Qed.

Lemma cleanup_removes_own_thumbnails_witness :
  exists l' s1,
    generate_thumbnails flaky_converter_world
      [fresh_entry "a/x.png"; fresh_entry "y.jpg"; fresh_entry "b/z.gif"]
      initial_state = Ret l' s1 /\
    remove_thumbnails l' s1
    = Ret tt (set_removed ["/tmp/iv_x.png.thumb.png"; "/tmp/iv_z.gif.thumb.png"]
                          s1).
Proof.
  eexists. eexists. split; [lazy; reflexivity|].
  match goal with |- remove_thumbnails ?l' ?s1 = _ =>
    destruct (cleanup_removes_own_thumbnails flaky_converter_world
                [fresh_entry "a/x.png"; fresh_entry "y.jpg";
                 fresh_entry "b/z.gif"] l' initial_state s1 s1)
      as [gone [E [G _]]]
  end.
  - repeat constructor.
  - reflexivity.
  - rewrite E, G. reflexivity.
Defined.

(** ** The terminal mode at exit *)

Lemma restores_ret {A} (a : A) : restores (ret a).
Proof. intros s H. exact H. Qed.

Lemma restores_bind {A B} (c : M A) (k : A -> M B) :
  restores c -> (forall a, restores (k a)) -> restores (bind c k).
Proof.
  intros Hc Hk s H. unfold bind. specialize (Hc s H).
  destruct (c s) as [a s'| | |]; try exact Hc. apply Hk, Hc.
Qed.

Lemma restores_exit {A} status : restores (@exit A status).
Proof.
  intros s [H|H]; unfold exit, run_atexit; [now rewrite H|].
  destruct (atexit_hook s); [reflexivity | exact H].
Qed.

Lemma restores_same {A} (c : M A) :
  (forall s, exists a s', c s = Ret a s' /\ raw_mode s' = raw_mode s /\
                          atexit_hook s' = atexit_hook s) ->
  restores c.
Proof.
  intros Hc s H. destruct (Hc s) as [a [s' [E [R A0]]]]. rewrite E.
  unfold tty_ok in *. now rewrite R, A0.
Qed.

Lemma restores_printf fmt args : restores (printf fmt args).
Proof. apply restores_same. intros s. do 2 eexists. repeat split. Qed.

Lemma restores_eprintf fmt args : restores (eprintf fmt args).
Proof. apply restores_same. intros s. do 2 eexists. repeat split. Qed.

Lemma restores_perror W tag : restores (perror W tag).
Proof. apply restores_eprintf. Qed.

Lemma restores_sys_alloc W : restores (sys_alloc W).
Proof. apply restores_same. intros s. do 2 eexists. repeat split. Qed.

Lemma restores_sys_ioctl W : restores (sys_ioctl W).
Proof. apply restores_same. intros s. do 2 eexists. repeat split. Qed.

Lemma restores_sys_system W cmd : restores (sys_system W cmd).
Proof. apply restores_same. intros s. do 2 eexists. repeat split. Qed.

Lemma restores_sys_remove p : restores (sys_remove p).
Proof. apply restores_same. intros s. do 2 eexists. repeat split. Qed.

Lemma restores_read_keypress W : restores (read_keypress W).
Proof. apply restores_same. intros s. do 2 eexists. repeat split. Qed.

Lemma restores_get_scroll : restores get_scroll.
Proof. apply restores_same. intros s. do 2 eexists. repeat split. Qed.

Lemma restores_put_scroll v : restores (put_scroll v).
Proof. apply restores_same. intros s. do 2 eexists. repeat split. Qed.

Lemma restores_fault {A} : restores (@fault A).
Proof. intros s H. exact I. Qed.

Lemma restores_out_of_fuel {A} : restores (@out_of_fuel A).
Proof. intros s H. exact I. Qed.

Lemma restores_disable : restores disable_raw_mode.
Proof. intros s H. right. reflexivity. Qed.

Lemma restores_enable W : restores (enable_raw_mode W).
Proof.
  unfold enable_raw_mode.
  destruct (w_tcgetattr W); cbn [negb];
    [|apply restores_bind; [apply restores_perror | intros; apply restores_exit]].
  destruct (w_tcsetattr W); cbn [negb];
    [|apply restores_bind; [apply restores_perror | intros; apply restores_exit]].
  intros s H. left. reflexivity.
Qed.

(** Decomposes a computation built from the primitives. *)
Ltac restores_step :=
  match goal with
  | |- restores (bind _ _) => apply restores_bind; [|intros]
  | |- restores (ret _) => apply restores_ret
  | |- restores (exit _) => apply restores_exit
  | |- restores (printf _ _) => apply restores_printf
  | |- restores (eprintf _ _) => apply restores_eprintf
  | |- restores (perror _ _) => apply restores_perror
  | |- restores (sys_alloc _) => apply restores_sys_alloc
  | |- restores (sys_ioctl _) => apply restores_sys_ioctl
  | |- restores (sys_system _ _) => apply restores_sys_system
  | |- restores (sys_remove _) => apply restores_sys_remove
  | |- restores (read_keypress _) => apply restores_read_keypress
  | |- restores get_scroll => apply restores_get_scroll
  | |- restores (put_scroll _) => apply restores_put_scroll
  | |- restores fault => apply restores_fault
  | |- restores out_of_fuel => apply restores_out_of_fuel
  | |- restores disable_raw_mode => apply restores_disable
  | |- restores (enable_raw_mode _) => apply restores_enable
  | |- restores (if ?b then _ else _) => destruct b
  | |- restores (match ?x with _ => _ end) => destruct x
  | |- restores (let '(_, _) := ?x in _) => destruct x
  end.

Ltac restores_auto := repeat (cbv zeta; restores_step).

Lemma restores_clamp total visible : restores (clamp_scroll total visible).
Proof. unfold clamp_scroll. restores_auto. Qed.

Lemma restores_adjust W l selected grid_cols :
  restores (adjust_scroll_for_selection W l selected grid_cols).
Proof.
  unfold adjust_scroll_for_selection. restores_auto. apply restores_clamp.
Qed.

Lemma restores_b64 W path : restores (b64encode_path W path).
Proof. unfold b64encode_path. restores_auto. Qed.

Lemma restores_display_thumbnail W thumb :
  restores (display_thumbnail_kitty W thumb).
Proof.
  unfold display_thumbnail_kitty. destruct thumb; restores_auto.
  apply restores_b64.
Qed.

Lemma restores_display_focus W focus : restores (display_focus_kitty W focus).
Proof.
  unfold display_focus_kitty. destruct focus; restores_auto.
  apply restores_b64.
Qed.

Lemma restores_render_cols W n l gc sel sr rh cw row :
  forall col, restores (render_cols W n l gc sel sr rh cw row col).
Proof.
  induction n as [|n IH]; intros col; cbn [render_cols]; restores_auto;
    try apply restores_display_thumbnail; apply IH.
Qed.

Lemma restores_render_rows W n l gc sel sr er rh cw :
  forall row, restores (render_rows W n l gc sel sr er rh cw row).
Proof.
  induction n as [|n IH]; intros row; cbn [render_rows]; restores_auto;
    [apply restores_render_cols | apply IH].
Qed.

Lemma restores_render_grid W l gc sel : restores (render_grid W l gc sel).
Proof.
  unfold render_grid. restores_auto;
    first [apply restores_clamp | apply restores_render_rows].
Qed.

Lemma restores_generate_focus W orig out : restores (generate_focus W orig out).
Proof. unfold generate_focus. restores_auto. Qed.

Lemma restores_generate_thumbnail W orig out :
  restores (generate_thumbnail W orig out).
Proof. unfold generate_thumbnail. restores_auto. Qed.

Lemma restores_focus_wait W fuel : restores (focus_wait W fuel).
Proof.
  induction fuel as [|fuel IH]; cbn [focus_wait]; restores_auto. apply IH.
Qed.

Lemma restores_focus_view W fuel orig : restores (focus_view W fuel orig).
Proof.
  unfold focus_view. restores_auto;
    first [apply restores_generate_focus | apply restores_display_focus
          | apply restores_focus_wait].
Qed.

Lemma restores_loop_body W fuel l gc v : restores (loop_body W fuel l gc v).
Proof.
  unfold loop_body. restores_auto;
    first [apply restores_adjust | apply restores_render_grid
          | apply restores_focus_view].
Qed.

Lemma restores_main_loop W fuel l gc :
  forall v, restores (main_loop W fuel l gc v).
Proof.
  induction fuel as [|fuel IH]; intros v; cbn [main_loop]; restores_auto;
    [apply restores_loop_body | apply IH].
Qed.

Lemma restores_add_image_entry W l path : restores (add_image_entry W l path).
Proof. unfold add_image_entry. restores_auto. Qed.

Lemma restores_load_dir_entries W dir names :
  forall l, restores (load_dir_entries W dir names l).
Proof.
  induction names as [|n rest IH]; intros l; cbn [load_dir_entries];
    restores_auto; try apply restores_add_image_entry; apply IH.
Qed.

Lemma restores_load_images_from_dir W dir l :
  restores (load_images_from_dir W dir l).
Proof.
  unfold load_images_from_dir. restores_auto. apply restores_load_dir_entries.
Qed.

Lemma restores_load_images_from_argv W paths :
  forall l, restores (load_images_from_argv W paths l).
Proof.
  induction paths as [|p rest IH]; intros l; cbn [load_images_from_argv];
    restores_auto; [apply restores_add_image_entry | apply IH].
Qed.

Lemma restores_generate_thumbnails W l : restores (generate_thumbnails W l).
Proof.
  induction l as [|e rest IH]; cbn [generate_thumbnails]; restores_auto;
    [apply restores_generate_thumbnail | apply IH].
Qed.

Lemma restores_remove_thumbnails l : restores (remove_thumbnails l).
Proof.
  induction l as [|e rest IH]; cbn [remove_thumbnails]; restores_auto;
    apply IH.
Qed.

Lemma restores_parse_options argv opts :
  forall g, restores (parse_options argv opts g).
Proof.
  induction opts as [|[o a] rest IH]; intros g; cbn [parse_options];
    restores_auto. apply IH.
Qed.

Lemma restores_main W fuel argv : restores (main W fuel argv).
Proof.
  unfold main. restores_auto;
    first [ apply restores_parse_options
          | apply restores_load_images_from_dir
          | apply restores_load_images_from_argv
          | apply restores_generate_thumbnails
          | apply restores_main_loop
          | apply restores_remove_thumbnails
          | unfold kitty_delete_all; apply restores_printf ].
Qed.

(** X11.  Whenever [main] ends the process, with whatever status, the
    terminal is in its original mode. *)
Theorem exit_restores_terminal (W : World) (fuel : nat) (argv : list string)
    (status : Z) (s' : State) :
  main W fuel argv initial_state = Exit status s' ->
  raw_mode s' = false.
Proof.
  intros E. pose proof (restores_main W fuel argv initial_state) as H.
  rewrite E in H. apply H. right. reflexivity.
Qed.

Lemma exit_restores_terminal_witness :
  exists status s',
    main (sample_world "q" 24 0) 3 ["iv"; "pics/a.png"] initial_state
    = Exit status s' /\
    raw_mode s' = false.
Proof.
  destruct (main (sample_world "q" 24 0) 3 ["iv"; "pics/a.png"] initial_state)
    as [a s'|status s'|s'|] eqn:E;
    try (vm_compute in E; discriminate).
  exists status, s'. split; [reflexivity|].
  exact (exit_restores_terminal _ _ _ _ _ E).
Defined.

(** ** Moves and the window *)

Lemma div_add_cols i cols :
  0 < cols -> (i + cols) / cols = i / cols + 1 /\ (i + cols) mod cols = i mod cols.
Proof.
  intros Hc. replace (i + cols) with (i + 1 * cols) by lia.
  rewrite Z.div_add, Z.mod_add by lia. split; reflexivity.
Qed.

Lemma div_sub_cols i cols :
  0 < cols -> (i - cols) / cols = i / cols - 1 /\ (i - cols) mod cols = i mod cols.
Proof.
  intros Hc. replace (i - cols) with (i + (-1) * cols) by lia.
  rewrite Z.div_add, Z.mod_add by lia. split; [lia | reflexivity].
Qed.

(** X12.  In the grid a key moves the selection by one cell at most and
    keeps it a valid index: [h] and [l] stay in the row and move one column,
    [k] and [j] stay in the column and move one row, any other key leaves
    the selection.  It stays where it is at the edges: column 0 for [h], the
    last column or the last item for [l], row 0 for [k], no item below for
    [j].  The sum [selected + grid_cols] of line 597 is taken to fit an
    [int]. *)
Theorem grid_key_moves_one_cell (l : ImageList) (grid_cols ch : Z)
    (v : LoopVars) :
  0 < grid_cols <= INT_MAX ->
  count l <= INT_MAX ->
  0 <= selected v < count l ->
  selected v + grid_cols <= INT_MAX ->
  let sel := selected v in
  let sel' := selected (grid_key l grid_cols ch v) in
  let row := sel / grid_cols in
  let col := sel mod grid_cols in
  let row' := sel' / grid_cols in
  let col' := sel' mod grid_cols in
  0 <= sel' < count l /\
  (ch = code "h" -> row' = row /\ (col' = col - 1 \/ (col' = col /\ col = 0))) /\
  (ch = code "l" ->
   row' = row /\
   (col' = col + 1 \/
    (col' = col /\ (col = grid_cols - 1 \/ sel = count l - 1)))) /\
  (ch = code "k" -> col' = col /\ (row' = row - 1 \/ (row' = row /\ row = 0))) /\
  (ch = code "j" ->
   col' = col /\
   (row' = row + 1 \/ (row' = row /\ count l <= sel + grid_cols))) /\
  (ch <> code "h" -> ch <> code "l" -> ch <> code "k" -> ch <> code "j" ->
   sel' = sel).
Proof.
  intros Hc Hn Hs Hov. destruct v as [m sel run]. cbn [selected] in *.
  cbv zeta. unfold grid_key. cbn [selected mode running].
  rewrite (to_int_id (count l)) by int_range.
  rewrite col_of_eq by int_range.
  pose proof (Z.mod_pos_bound sel grid_cols ltac:(lia)) as Hm.
  pose proof (Z.div_mod sel grid_cols ltac:(lia)) as Hdm.
  assert (Hrow : 0 <= sel / grid_cols) by (apply Z.div_pos; lia).
  unfold int_sub, int_add.
  rewrite (to_int_id (sel - 1)) by int_range.
  rewrite (to_int_id (sel + 1)) by int_range.
  rewrite (to_int_id (grid_cols - 1)) by int_range.
  rewrite (to_int_id (sel - grid_cols)) by int_range.
  rewrite (to_int_id (sel + grid_cols)) by int_range.
  change (code "q") with 113. change (code "h") with 104.
  change (code "l") with 108. change (code "k") with 107.
  change (code "j") with 106. unfold EOF.
  destruct (Z.eqb_spec ch (-1)); [cbn; repeat split; intros; lia|].
  destruct (Z.eqb_spec ch 113); [cbn; repeat split; intros; lia|].
  destruct (Z.eqb_spec ch 104).
  { rewrite Z.gtb_ltb.
    destruct (Z.ltb_spec 0 (sel mod grid_cols)) as [H|H]; cbn [selected].
    - assert (E1 : (sel - 1) / grid_cols = sel / grid_cols)
        by (apply same_row_left; lia).
      assert (E2 : (sel - 1) mod grid_cols = sel mod grid_cols - 1).
      { symmetry. apply Z.mod_unique with (q := sel / grid_cols); lia. }
      repeat split; intros; try lia.
    - repeat split; intros; try lia. }
  destruct (Z.eqb_spec ch 108).
  { destruct (Z.ltb_spec (sel + 1) (count l)) as [H1|H1]; cbn [andb].
    - destruct (Z.ltb_spec (sel mod grid_cols) (grid_cols - 1)) as [H2|H2];
        cbn [selected].
      + assert (E1 : (sel + 1) / grid_cols = sel / grid_cols)
          by (apply same_row_right; lia).
        assert (E2 : (sel + 1) mod grid_cols = sel mod grid_cols + 1).
        { symmetry. apply Z.mod_unique with (q := sel / grid_cols); lia. }
        repeat split; intros; try lia.
      + repeat split; intros; try lia.
    - cbn [selected]. repeat split; intros; try lia. }
  destruct (Z.eqb_spec ch 107).
  { rewrite Z.geb_leb. destruct (div_sub_cols sel grid_cols ltac:(lia)) as [E1 E2].
    destruct (Z.leb_spec 0 (sel - grid_cols)); cbn [selected].
    - repeat split; intros; try lia.
    - assert (sel / grid_cols = 0) by (apply Z.div_small; lia).
      repeat split; intros; try lia. }
  destruct (Z.eqb_spec ch 106).
  { destruct (div_add_cols sel grid_cols ltac:(lia)) as [E1 E2].
    destruct (Z.ltb_spec (sel + grid_cols) (count l)); cbn [selected];
      repeat split; intros; try lia. }
  destruct ((ch =? 10) || (ch =? 13)); cbn [selected];
    repeat split; intros; lia.
Qed.

Lemma grid_key_moves_one_cell_witness :
  selected (grid_key (sample_list 10) 4 (code "j") (mkLoop MODE_GRID 5 1)) = 9 /\
  selected (grid_key (sample_list 10) 4 (code "j") (mkLoop MODE_GRID 6 1)) = 6.
Proof.
  split.
  - destruct (grid_key_moves_one_cell (sample_list 10) 4 (code "j")
                (mkLoop MODE_GRID 5 1)) as [_ [_ [_ [_ [J _]]]]];
      [unfold INT_MAX; lia | vm_compute; discriminate
      | vm_compute; split; [discriminate | reflexivity]
      | vm_compute; discriminate |].
    reflexivity.
  - reflexivity.
Defined.

(** X13.  [render_grid] returns for any selection, valid or not, and any
    scroll offset: it leaves the offset clamped into
    [[0, max(0, total_rows - visible_rows)]], reads no key, and changes
    neither standard error, nor the terminal mode, nor any file. *)
Theorem render_grid_is_safe (W : World) (l : ImageList)
    (grid_cols selected : Z) (s : State) :
  0 < grid_cols <= INT_MAX ->
  count l <= INT_MAX ->
  let visible := visible_rows_spec (ws_row_of (w_ioctl W (ioctls s))) in
  let total := ceil_div (count l) grid_cols in
  exists s',
    render_grid W l grid_cols selected s = Ret tt s' /\
    scroll_offset s' = Z.max 0 (Z.min (scroll_offset s) (total - visible)) /\
    0 <= scroll_offset s' <= Z.max 0 (total - visible) /\
    reads s' = reads s /\ stderr s' = stderr s /\ raw_mode s' = raw_mode s /\
    systems s' = systems s /\ removed s' = removed s.
Proof.
  intros Hc Hn visible total.
  destruct (render_grid_draws W l grid_cols selected s Hc Hn) as [s' [E D]].
  exists s'. split; [exact E|].
  destruct D as [D1 [D2 [D3 [D4 [D5 [D6 D7]]]]]].
  cbn [stderr scroll_offset raw_mode atexit_hook reads systems removed
       set_scroll_offset] in *.
  assert (Eso : scroll_offset s'
                = Z.max 0 (Z.min (scroll_offset s) (total - visible))).
  { rewrite D2. rewrite clamped_eq.
    - rewrite total_rows_eq by assumption.
      rewrite visible_rows_eq by apply ws_row_of_range. reflexivity.
    - apply total_rows_range; assumption.
    - apply visible_rows_range, ws_row_of_range. }
  split; [exact Eso|]. split; [lia|]. repeat split; assumption.
Qed.

Lemma render_grid_is_safe_witness :
  exists s',
    render_grid (sample_world "" 13 0) (sample_list 10) 4 (-7)
      (set_scroll_offset 99 initial_state) = Ret tt s' /\
    scroll_offset s' = 1.
Proof.
  destruct (render_grid_is_safe (sample_world "" 13 0) (sample_list 10) 4 (-7)
              (set_scroll_offset 99 initial_state)) as [s' [E [S0 _]]].
  - unfold INT_MAX; lia.
  - vm_compute; discriminate.
  - exists s'. split; [exact E | exact S0].
Defined.

(** X14.  In a grid turn where the terminal height is the same at both
    window-size queries, [render_grid] keeps the offset
    [adjust_scroll_for_selection] chose, and the row of the selected item
    lies inside the window that is drawn. *)
Theorem grid_turn_shows_selection (W : World) (fuel : nat) (l : ImageList)
    (grid_cols : Z) (v : LoopVars) (s : State) :
  0 < grid_cols <= INT_MAX ->
  count l <= INT_MAX ->
  0 <= selected v < count l ->
  is_int (scroll_offset s) ->
  mode v = MODE_GRID ->
  ws_row_of (w_ioctl W (S (ioctls s))) = ws_row_of (w_ioctl W (ioctls s)) ->
  let visible := visible_rows_spec (ws_row_of (w_ioctl W (ioctls s))) in
  let total := ceil_div (count l) grid_cols in
  let sel_row := selected v / grid_cols in
  exists s1 s',
    adjust_scroll_for_selection W l (selected v) grid_cols s = Ret tt s1 /\
    loop_body W fuel l grid_cols v s
    = Ret (grid_key l grid_cols (key_of (w_read W (reads s))) v) s' /\
    scroll_offset s' = scroll_offset s1 /\
    0 <= scroll_offset s' <= sel_row /\
    sel_row < scroll_offset s' + visible /\
    sel_row < total.
Proof.
  intros Hc Hn Hs Hso Hm Hws visible total sel_row.
  eexists. 
  pose proof (adjust_scroll_run W l (selected v) grid_cols s) as Ea.
  unfold loop_body. rewrite Hm. rewrite (bind_ret _ _ _ _ _ Ea).
  match goal with |- context [bind (render_grid _ _ _ _) _ ?s1] =>
    destruct (render_grid_draws W l grid_cols (selected v) s1 Hc Hn)
      as [s2 [E2 D2]]
  end.
  rewrite (bind_ret _ _ _ _ _ E2).
  rewrite (bind_ret _ _ _ _ _ (read_keypress_run W s2)).
  destruct D2 as [_ [Dso [_ [_ [Drd _]]]]].
  cbn [stderr scroll_offset raw_mode atexit_hook reads systems removed ioctls
       set_scroll_offset set_ioctls] in *.
  rewrite Drd. eexists. split; [exact Ea|]. split; [reflexivity|].
  cbn [scroll_offset set_reads set_scroll_offset].
  pose proof (total_rows_range l grid_cols Hc Hn) as Ht.
  pose proof (ws_row_of_range (w_ioctl W (ioctls s))) as Hr.
  pose proof (visible_rows_range _ Hr) as Hv.
  assert (Hsr : 0 <= row_of (selected v) grid_cols < total_rows l grid_cols).
  { rewrite row_of_eq by lia. rewrite total_rows_eq by assumption.
    apply row_below_total; lia. }
  pose proof (adjusted_invariant (total_rows l grid_cols)
                (visible_rows (ws_row_of (w_ioctl W (ioctls s))))
                (row_of (selected v) grid_cols) (scroll_offset s)
                Ht Hv Hsr Hso) as I.
  cbv zeta in I. rewrite Dso, Hws.
  set (a := adjusted _ _ _ _) in *.
  rewrite clamped_eq by assumption.
  unfold visible, total, sel_row.
  rewrite <- visible_rows_eq by assumption.
  rewrite <- total_rows_eq by assumption.
  rewrite <- row_of_eq by lia.
  split; [lia|]. split; [lia|]. split; lia.
Qed.

Lemma grid_turn_shows_selection_witness :
  exists s',
    loop_body (sample_world "j" 13 0) 0 (sample_list 10) 4
      (mkLoop MODE_GRID 9 1) initial_state
    = Ret (mkLoop MODE_GRID 9 1) s' /\
    scroll_offset s' = 1.
Proof.
  destruct (grid_turn_shows_selection (sample_world "j" 13 0) 0
              (sample_list 10) 4 (mkLoop MODE_GRID 9 1) initial_state)
    as [s1 [s' [Ea [E [S0 I]]]]].
  - unfold INT_MAX; lia.
  - vm_compute; discriminate.
  - vm_compute; split; [discriminate | reflexivity].
  - vm_compute; split; discriminate.
  - reflexivity.
  - reflexivity.
  - exists s'. split; [exact E|]. rewrite S0.
    vm_compute in Ea. injection Ea as <-. reflexivity.
Defined.

(** ** The focus view *)

Lemma generate_focus_path W orig out s st fp s1 :
  generate_focus W orig out s = Ret (st, fp) s1 ->
  st = 0 -> fp = Some (focus_tmp orig) /\ allocs s1 = S (allocs s) /\
            stderr s1 = stderr s.
Proof.
  unfold generate_focus. cbv zeta. unfold bind, sys_system, sys_alloc.
  match goal with |- context [w_system W (systems s) ?c] =>
    destruct (w_system W (systems s) c =? 0) end; cbn [negb].
  - cbn [allocs set_systems]. destruct (w_alloc W (allocs s)).
    + intros [= <- <- <-] _. repeat split.
    + intros [= <- _ _]. discriminate.
  - intros [= <- _ _]. discriminate.
Qed.

(** X15.  When the focus image is generated and its path encoded,
    [focus_view] clears the screen, writes the 80x24 sequence of the focus
    file, consumes the keys up to and including the first ESC, [q] or end of
    input, removes the focus file and returns, leaving the scroll offset and
    the terminal mode as they were. *)
Theorem focus_view_shows_and_cleans (W : World) (fuel n : nat) (orig : string)
    (s s1 : State) (fp : option string) :
  generate_focus W orig None s = Ret (0, fp) s1 ->
  w_alloc W (allocs s1) = true ->
  (n < fuel)%nat ->
  (forall k, (k < n)%nat ->
     focus_exit_key (key_of (w_read W (reads s + k))) = false) ->
  focus_exit_key (key_of (w_read W (reads s + n))) = true ->
  exists s',
    focus_view W fuel orig s = Ret tt s' /\
    stdout s' = stdout s ++ clear_home
                ++ kitty_display_bytes 80 24 (base64_encode (focus_tmp orig)) /\
    reads s' = S (reads s + n) /\
    removed s' = (removed s ++ [focus_tmp orig])%list /\
    scroll_offset s' = scroll_offset s /\ raw_mode s' = raw_mode s.
Proof.
  intros Eg Ha Hn Hb He.
  destruct (generate_focus_path W orig None s 0 fp s1 Eg eq_refl) as [-> _].
  destruct (generate_focus_returns W orig s)
    as [st' [fp' [s1' [E' [G1 [G2 [G3 [G4 [G5 G6]]]]]]]]].
  rewrite Eg in E'. injection E' as _ _ <-.
  unfold focus_view. rewrite (bind_ret _ _ _ _ _ Eg). cbn [Z.eqb negb].
  unfold bind at 1. cbn [printf].
  set (s2 := set_stdout (stdout s1 ++ sprintf clear_home []) s1).
  rewrite (bind_ret _ _ _ _ _ (display_focus_run W (focus_tmp orig) s2 Ha)).
  match goal with |- context [bind (focus_wait W fuel) _ ?s3] =>
    destruct (focus_wait_cases W fuel s3) as [[m [Hm [Hb' [He' Hr]]]]|[Hb' _]];
    cbn [reads set_stdout set_allocs] in *; unfold s2 in *;
    cbn [reads set_stdout set_allocs] in *; rewrite G5 in *
  end.
  - assert (m = n).
    { destruct (Nat.lt_trichotomy m n) as [L|[L|L]]; [|exact L|].
      - rewrite (Hb m L) in He'. discriminate.
      - rewrite (Hb' n L) in He. discriminate. }
    subst m. rewrite (bind_ret _ _ _ _ _ Hr). cbn [sys_remove].
    eexists. split; [reflexivity|]. cbn.
    rewrite ?G1, ?G2, ?G3, ?G5, ?G6. rewrite ?append_assoc.
    repeat split.
  - rewrite ?G5 in Hb'. rewrite (Hb' n Hn) in He. discriminate.
Qed.

Lemma focus_view_shows_and_cleans_witness :
  exists s',
    focus_view (sample_world "zq" 24 0) 3 "pics/a.png" initial_state
    = Ret tt s' /\
    reads s' = 2%nat /\ removed s' = ["/tmp/iv_a.png.focus.png"].
Proof.
  destruct (focus_view_shows_and_cleans (sample_world "zq" 24 0) 3 1
              "pics/a.png" initial_state _ _ eq_refl eq_refl)
    as [s' [E [_ [R [Rm _]]]]].
  - lia.
  - intros [|k] Hk; [reflexivity | lia].
  - reflexivity.
  - exists s'. split; [exact E|]. split; [exact R | exact Rm].
Defined.

(** ** The main loop at the end of input *)

Lemma focus_turn W fuel l grid_cols v s n :
  mode v = MODE_FOCUS ->
  0 <= selected v < count l ->
  (n < fuel)%nat ->
  focus_exit_key (key_of (w_read W (reads s + n))) = true ->
  exists s',
    loop_body W fuel l grid_cols v s
    = Ret (mkLoop MODE_GRID (selected v) (running v)) s' /\
    (reads s <= reads s')%nat.
Proof.
  intros Hm Hs Hn He. unfold loop_body. rewrite Hm.
  destruct (entry_at_some l (selected v) Hs) as [e Ee]. rewrite Ee.
  destruct (focus_view_cases W fuel (original_path e) s)
    as [st [fp [s1 [Eg [Hrd [Hfail Hok]]]]]].
  destruct (Z.eq_dec st 0) as [Z0|NZ].
  - destruct (Hok Z0) as [[m [s' [_ [_ [_ [Ev [R _]]]]]]]|[Hb _]].
    + exists s'. unfold bind. rewrite Ev. split; [reflexivity | lia].
    + rewrite (Hb n Hn) in He. discriminate.
  - exists s1. unfold bind. rewrite (Hfail NZ). split; [reflexivity | lia].
Qed.

Lemma main_loop_ends W l grid_cols N :
  0 < grid_cols <= INT_MAX ->
  count l + grid_cols - 1 <= INT_MAX ->
  (forall n, (N <= n)%nat -> w_read W n = None) ->
  forall fuel v s,
    0 <= selected v < count l ->
    (turns_left N v s <= fuel)%nat ->
    exists v' s',
      main_loop W fuel l grid_cols v s = Ret v' s' /\
      running v' = 0 /\ 0 <= selected v' < count l /\
      (running v <> 0 -> mode v' = MODE_GRID).
Proof.
  intros Hc' Hov Heof.
  induction fuel as [|fuel IH]; intros v s Hs Hb.
  - unfold turns_left in Hb. destruct (running v =? 0); lia.
  - cbn [main_loop]. unfold turns_left in Hb.
    destruct (Z.eqb_spec (running v) 0) as [R0|Rn].
    + exists v, s. split; [reflexivity|]. split; [exact R0|].
      split; [exact Hs | contradiction].
    + assert (Hn : count l <= INT_MAX) by lia.
      destruct (mode v) eqn:Hm.
      * (* a grid turn *)
        destruct (grid_turn W fuel l grid_cols v s Hc' Hn Hm)
          as [s1 [E [Hr _]]].
        rewrite (bind_ret _ _ _ _ _ E).
        set (ch := key_of (w_read W (reads s))) in *.
        pose proof (grid_key_laws l grid_cols ch v Hc' Hn Hs
                      ltac:(intros _; lia)) as [Hv1 _].
        pose proof (grid_key_mode l grid_cols ch v Hm) as [K1 [_ K3]].
        cbv zeta in Hv1, K1, K3. specialize (K3 Rn).
        set (v1 := grid_key l grid_cols ch v) in *.
        assert (Hm1 : running v1 = 0 -> mode v1 = MODE_GRID).
        { intros R1. destruct (mode v1) eqn:M1; [reflexivity|].
          destruct K1 as [K1 _]. specialize (K1 eq_refl).
          apply K3 in R1. unfold EOF in R1.
          change (code "q") with 113 in R1. lia. }
        assert (Hb1 : (turns_left N v1 s1 <= fuel)%nat).
        { unfold turns_left. destruct (Z.eqb_spec (running v1) 0) as [|R1];
            [lia|].
          destruct (Nat.le_gt_cases N (reads s)) as [L|L].
          - exfalso. apply R1, K3. left. unfold ch.
            now rewrite (Heof _ L).
          - rewrite Hr. destruct (mode v1); lia. }
        destruct (IH v1 s1 Hv1 Hb1) as [v' [s' [E' [R' [S' M']]]]].
        exists v', s'. split; [exact E'|]. split; [exact R'|].
        split; [exact S'|]. intros _.
        destruct (Z.eq_dec (running v1) 0) as [R1|R1]; [|apply M', R1].
        (* the loop stops at once *)
        destruct fuel as [|fuel']; [discriminate|].
        cbn [main_loop] in E'. apply Z.eqb_eq in R1. rewrite R1 in E'.
        injection E' as <- _. apply Hm1. now apply Z.eqb_eq.
      * (* a focus turn *)
        destruct (focus_turn W fuel l grid_cols v s (N - reads s) Hm Hs
                    ltac:(lia)) as [s1 [E Hr]].
        { rewrite (Heof (reads s + (N - reads s))%nat ltac:(lia)).
          reflexivity. }
        rewrite (bind_ret _ _ _ _ _ E).
        destruct (IH (mkLoop MODE_GRID (selected v) (running v)) s1 Hs)
          as [v' [s' [E' [R' [S' M']]]]].
        { unfold turns_left. cbn [running mode].
          destruct (running v =? 0); lia. }
        exists v', s'. split; [exact E'|]. split; [exact R'|].
        split; [exact S'|]. intros _. apply M'. exact Rn.
Qed.

(** X16.  The main loop stops once standard input has ended: when every
    read from the [N]-th on fails, and the fuel covers the turns up to
    there, [main_loop] returns with [running = 0] and a valid selection, in
    grid mode if it ran at all. *)
Theorem main_loop_ends_at_eof (W : World) (l : ImageList) (grid_cols : Z)
    (N fuel : nat) (v : LoopVars) (s : State) :
  0 < grid_cols <= INT_MAX ->
  count l + grid_cols - 1 <= INT_MAX ->
  0 <= selected v < count l ->
  (forall n, (N <= n)%nat -> w_read W n = None) ->
  (3 * (N - reads s) + 4 <= fuel)%nat ->
  exists v' s',
    main_loop W fuel l grid_cols v s = Ret v' s' /\
    running v' = 0 /\ 0 <= selected v' < count l /\
    (running v <> 0 -> mode v' = MODE_GRID).
Proof.
  intros Hc Hov Hs Heof Hf.
  apply (main_loop_ends W l grid_cols N Hc Hov Heof fuel v s Hs).
  unfold turns_left. destruct (running v =? 0); destruct (mode v); lia.
Qed.

Lemma main_loop_ends_at_eof_witness :
  exists v' s',
    main_loop (sample_world "lj" 24 1) 10 (sample_list 10) 4 loop_start
      initial_state = Ret v' s' /\
    running v' = 0.
Proof.
  destruct (main_loop_ends_at_eof (sample_world "lj" 24 1) (sample_list 10) 4
              2 10 loop_start initial_state) as [v' [s' [E [R _]]]].
  - unfold INT_MAX; lia.
  - vm_compute; discriminate.
  - vm_compute; split; [discriminate | reflexivity].
  - intros n Hn. unfold sample_world, keys; cbn [w_read].
    do 2 (destruct n as [|n]; [lia|]). reflexivity.
  - cbn. lia.
  - exists v', s'. split; [exact E | exact R].
Defined.

(** ** The exit status *)

Lemma fails_only_ret {A} (a : A) : fails_only (ret a).
Proof. intros s st s' E. discriminate. Qed.

Lemma fails_only_bind {A B} (c : M A) (k : A -> M B) :
  fails_only c -> (forall a, fails_only (k a)) -> fails_only (bind c k).
Proof.
  intros Hc Hk s st s' E. unfold bind in E.
  destruct (c s) as [a s1|st1 s1|s1|] eqn:Ec; try discriminate.
  - exact (Hk a s1 st s' E).
  - injection E as <- <-. exact (Hc s st1 s1 Ec).
Qed.

Lemma fails_only_exit {A} : fails_only (@exit A EXIT_FAILURE).
Proof. intros s st s' [= <- _]. reflexivity. Qed.

Lemma fails_only_returns {A} (c : M A) :
  (forall s, exists a s', c s = Ret a s') -> fails_only c.
Proof.
  intros Hc s st s' E. destruct (Hc s) as [a [s1 E1]]. congruence.
Qed.

Lemma fails_only_fault {A} : fails_only (@fault A).
Proof. intros s st s' E. discriminate. Qed.

Lemma fails_only_out_of_fuel {A} : fails_only (@out_of_fuel A).
Proof. intros s st s' E. discriminate. Qed.

Ltac returns := apply fails_only_returns; intros; do 2 eexists; reflexivity.

Lemma fails_only_enable W : fails_only (enable_raw_mode W).
Proof.
  unfold enable_raw_mode. destruct (w_tcgetattr W); cbn [negb].
  - destruct (w_tcsetattr W); cbn [negb]; [returns|].
    apply fails_only_bind; [returns | intros; apply fails_only_exit].
  - apply fails_only_bind; [returns | intros; apply fails_only_exit].
Qed.

Ltac fails_only_step :=
  match goal with
  | |- fails_only (bind _ _) => apply fails_only_bind; [|intros]
  | |- fails_only (ret _) => apply fails_only_ret
  | |- fails_only (exit EXIT_FAILURE) => apply fails_only_exit
  | |- fails_only (exit 1) => apply fails_only_exit
  | |- fails_only fault => apply fails_only_fault
  | |- fails_only out_of_fuel => apply fails_only_out_of_fuel
  | |- fails_only (enable_raw_mode _) => apply fails_only_enable
  | |- fails_only (printf _ _) => returns
  | |- fails_only (eprintf _ _) => returns
  | |- fails_only (perror _ _) => returns
  | |- fails_only (sys_alloc _) => returns
  | |- fails_only (sys_ioctl _) => returns
  | |- fails_only (sys_system _ _) => returns
  | |- fails_only (sys_remove _) => returns
  | |- fails_only (read_keypress _) => returns
  | |- fails_only get_scroll => returns
  | |- fails_only (put_scroll _) => returns
  | |- fails_only disable_raw_mode => returns
  | |- fails_only (if ?b then _ else _) => destruct b
  | |- fails_only (match ?x with _ => _ end) => destruct x
  end.

Ltac fails_only_auto := repeat (cbv zeta; fails_only_step).

Lemma fails_only_clamp total visible : fails_only (clamp_scroll total visible).
Proof. unfold clamp_scroll. fails_only_auto. Qed.

Lemma fails_only_adjust W l selected grid_cols :
  fails_only (adjust_scroll_for_selection W l selected grid_cols).
Proof.
  unfold adjust_scroll_for_selection. fails_only_auto. apply fails_only_clamp.
Qed.

Lemma fails_only_b64 W path : fails_only (b64encode_path W path).
Proof. unfold b64encode_path. fails_only_auto. Qed.

Lemma fails_only_display_thumbnail W thumb :
  fails_only (display_thumbnail_kitty W thumb).
Proof.
  unfold display_thumbnail_kitty. destruct thumb; fails_only_auto.
  apply fails_only_b64.
Qed.

Lemma fails_only_display_focus W focus :
  fails_only (display_focus_kitty W focus).
Proof.
  unfold display_focus_kitty. destruct focus; fails_only_auto.
  apply fails_only_b64.
Qed.

Lemma fails_only_render_cols W n l gc sel sr rh cw row :
  forall col, fails_only (render_cols W n l gc sel sr rh cw row col).
Proof.
  induction n as [|n IH]; intros col; cbn [render_cols]; fails_only_auto;
    try apply fails_only_display_thumbnail; apply IH.
Qed.

Lemma fails_only_render_rows W n l gc sel sr er rh cw :
  forall row, fails_only (render_rows W n l gc sel sr er rh cw row).
Proof.
  induction n as [|n IH]; intros row; cbn [render_rows]; fails_only_auto;
    [apply fails_only_render_cols | apply IH].
Qed.

Lemma fails_only_render_grid W l gc sel : fails_only (render_grid W l gc sel).
Proof.
  unfold render_grid. fails_only_auto;
    first [apply fails_only_clamp | apply fails_only_render_rows].
Qed.

Lemma fails_only_generate_focus W orig out :
  fails_only (generate_focus W orig out).
Proof. unfold generate_focus. fails_only_auto. Qed.

Lemma fails_only_generate_thumbnail W orig out :
  fails_only (generate_thumbnail W orig out).
Proof. unfold generate_thumbnail. fails_only_auto. Qed.

Lemma fails_only_focus_wait W fuel : fails_only (focus_wait W fuel).
Proof.
  induction fuel as [|fuel IH]; cbn [focus_wait]; fails_only_auto. apply IH.
Qed.

Lemma fails_only_focus_view W fuel orig : fails_only (focus_view W fuel orig).
Proof.
  unfold focus_view. fails_only_auto;
    first [apply fails_only_generate_focus | apply fails_only_display_focus
          | apply fails_only_focus_wait].
Qed.

Lemma fails_only_loop_body W fuel l gc v : fails_only (loop_body W fuel l gc v).
Proof.
  unfold loop_body. fails_only_auto;
    first [apply fails_only_adjust | apply fails_only_render_grid
          | apply fails_only_focus_view].
Qed.

Lemma fails_only_main_loop W fuel l gc :
  forall v, fails_only (main_loop W fuel l gc v).
Proof.
  induction fuel as [|fuel IH]; intros v; cbn [main_loop]; fails_only_auto;
    [apply fails_only_loop_body | apply IH].
Qed.

Lemma fails_only_add_image_entry W l path :
  fails_only (add_image_entry W l path).
Proof. unfold add_image_entry. fails_only_auto. Qed.

Lemma fails_only_load_dir_entries W dir names :
  forall l, fails_only (load_dir_entries W dir names l).
Proof.
  induction names as [|n rest IH]; intros l; cbn [load_dir_entries];
    fails_only_auto; try apply fails_only_add_image_entry; apply IH.
Qed.

Lemma fails_only_load_images_from_dir W dir l :
  fails_only (load_images_from_dir W dir l).
Proof.
  unfold load_images_from_dir. fails_only_auto.
  apply fails_only_load_dir_entries.
Qed.

Lemma fails_only_load_images_from_argv W paths :
  forall l, fails_only (load_images_from_argv W paths l).
Proof.
  induction paths as [|p rest IH]; intros l; cbn [load_images_from_argv];
    fails_only_auto; [apply fails_only_add_image_entry | apply IH].
Qed.

Lemma fails_only_generate_thumbnails W l :
  fails_only (generate_thumbnails W l).
Proof.
  induction l as [|e rest IH]; cbn [generate_thumbnails]; fails_only_auto;
    [apply fails_only_generate_thumbnail | apply IH].
Qed.

Lemma fails_only_parse_options argv opts :
  forall g, fails_only (parse_options argv opts g).
Proof.
  induction opts as [|[o a] rest IH]; intros g; cbn [parse_options];
    fails_only_auto. apply IH.
Qed.

(** A bind that ends with a status other than [EXIT_FAILURE] got past its
    first part. *)
Lemma bind_exit_inv {A B} (c : M A) (k : A -> M B) s st s' :
  fails_only c -> bind c k s = Exit st s' -> st <> EXIT_FAILURE ->
  exists a s1, c s = Ret a s1 /\ k a s1 = Exit st s'.
Proof.
  intros Hc E Hst. unfold bind in E.
  destruct (c s) as [a s1|st1 s1|s1|] eqn:Ec; try discriminate.
  - now exists a, s1.
  - injection E as <- <-. elim Hst. exact (Hc s st1 s1 Ec).
Qed.

Lemma parse_options_returns argv opts :
  forall g s g' s',
    parse_options argv opts g s = Ret g' s' ->
    s' = s /\ (1 <= g <= INT_MAX -> 1 <= g' <= INT_MAX).
Proof.
  induction opts as [|[o a] rest IH]; intros g s g' s' E.
  - injection E as <- <-. split; [reflexivity | auto].
  - cbn [parse_options] in E. destruct (o =? code "c"); [|discriminate].
    destruct (IH _ _ _ _ E) as [-> H]. split; [reflexivity|].
    intros _. apply H. pose proof (atoi_is_int a).
    destruct (Z.ltb_spec (atoi a) 1); int_range.
Qed.

Lemma main_loop_returns_stopped W fuel l gc :
  forall v s v' s',
    main_loop W fuel l gc v s = Ret v' s' -> running v' = 0.
Proof.
  induction fuel as [|fuel IH]; intros v s v' s' E; [discriminate|].
  cbn [main_loop] in E. destruct (Z.eqb_spec (running v) 0) as [R|R].
  - injection E as <- _. exact R.
  - unfold bind in E.
    destruct (loop_body W fuel l gc v s) as [v1 s1| | |]; try discriminate.
    exact (IH _ _ _ _ E).
Qed.

(** X17.  [main] ends the process with status 0 or 1 only, and status 0
    means a whole session: the column count was positive and the list not
    empty, raw mode was entered with its restoring hook registered, the main
    loop returned with [running = 0], and after it the program wrote the
    clear-all sequence and the clear-screen, removed the thumbnails it had
    generated, wrote nothing more to standard error and restored the
    terminal. *)
Theorem exit_status_of_main (W : World) (fuel : nat) (argv : list string)
    (status : Z) (s' : State) :
  main W fuel argv initial_state = Exit status s' ->
  (status = 0 \/ status = 1) /\
  (status = 0 ->
   exists grid_cols l v s_raw s_loop,
     1 <= grid_cols <= INT_MAX /\ 0 < count l /\
     raw_mode s_raw = true /\ atexit_hook s_raw = true /\
     main_loop W fuel l grid_cols loop_start s_raw = Ret v s_loop /\
     running v = 0 /\
     stdout s' = stdout s_loop ++ kitty_clear_bytes ++ clear_home /\
     removed s' = (removed s_loop ++ owned_thumbs l)%list /\
     stderr s' = stderr s_loop /\
     raw_mode s' = false).
Proof.
  intros E.
  destruct (Z.eq_dec status EXIT_FAILURE) as [->|Hst];
    [split; [now right | discriminate]|].
  unfold main in E.
  apply bind_exit_inv in E; [|apply fails_only_parse_options|exact Hst].
  destruct E as [g [s1 [Ep E]]].
  destruct (parse_options_returns _ _ _ _ _ _ Ep) as [-> Hg].
  specialize (Hg ltac:(unfold INT_MAX; lia)).
  apply bind_exit_inv in E; [|fails_only_auto|exact Hst].
  destruct E as [[] [s2 [E2 E]]].
  assert (s2 = initial_state) as ->.
  { destruct (w_optind W >=? _) in E2.
    - unfold bind, eprintf, exit in E2. discriminate.
    - now injection E2 as <-. }
  destruct (if w_optind W <? 0 then None
            else nth_error argv (Z.to_nat (w_optind W))) as [first|];
    [|discriminate].
  apply bind_exit_inv in E;
    [|fails_only_auto;
      first [apply fails_only_load_images_from_dir
            | apply fails_only_load_images_from_argv]
     |exact Hst].
  destruct E as [l0 [s3 [El0 E]]].
  apply bind_exit_inv in E; [|fails_only_auto|exact Hst].
  destruct E as [[] [s4 [E4 E]]].
  assert (Hcount : count l0 <> 0 /\ s4 = s3).
  { destruct (Z.eqb_spec (count l0) 0).
    - unfold bind, eprintf, exit in E4. discriminate.
    - split; [assumption | now injection E4 as <-]. }
  destruct Hcount as [Hcount ->].
  apply bind_exit_inv in E; [|apply fails_only_generate_thumbnails|exact Hst].
  destruct E as [l [s5 [Et E]]].
  apply bind_exit_inv in E; [|apply fails_only_enable|exact Hst].
  destruct E as [[] [s6 [Ee E]]].
  apply bind_exit_inv in E; [|apply fails_only_main_loop|exact Hst].
  destruct E as [v [s7 [El E]]].
  rewrite (bind_ret _ _ _ _ _ (eq_refl : disable_raw_mode s7 = Ret tt _)) in E.
  unfold kitty_delete_all in E. unfold bind at 1 in E. cbn [printf] in E.
  rewrite (bind_ret _ _ _ _ _ (remove_thumbnails_run l _)) in E.
  unfold bind, printf, exit in E. injection E as <- <-.
  split; [now left|]. intros _.
  destruct (generate_thumbnails_run W l0 s3) as [l' [s5' [Et' [F _]]]].
  rewrite Et in Et'. injection Et' as <- <-.
  assert (Hlen : count l = count l0).
  { unfold count. f_equal. clear - F. induction F; cbn; congruence. }
  assert (Hraw : raw_mode s6 = true /\ atexit_hook s6 = true).
  { unfold enable_raw_mode in Ee.
    destruct (w_tcgetattr W); cbn [negb] in Ee;
      [|unfold bind, perror, eprintf, exit in Ee; discriminate].
    destruct (w_tcsetattr W); cbn [negb] in Ee;
      [|unfold bind, perror, eprintf, exit in Ee; discriminate].
    injection Ee as <-. split; reflexivity. }
  exists g, l, v, s6, s7.
  split; [exact Hg|]. split; [pose proof (count_nonneg l0); lia|].
  split; [apply Hraw|]. split; [apply Hraw|]. split; [exact El|].
  split; [exact (main_loop_returns_stopped _ _ _ _ _ _ _ _ El)|].
  unfold run_atexit.
  match goal with |- context [if ?b then _ else _] => destruct b end;
    cbn; rewrite ?append_assoc; repeat split.
Qed.

Lemma exit_status_of_main_witness :
  exists s',
    main (sample_world "q" 24 0) 3 ["iv"; "pics/a.png"] initial_state
    = Exit 0 s' /\
    removed s' = ["/tmp/iv_a.png.thumb.png"] /\ raw_mode s' = false.
Proof.
  destruct (main (sample_world "q" 24 0) 3 ["iv"; "pics/a.png"] initial_state)
    as [a s'|st s'|s'|] eqn:E;
    try (vm_compute in E; discriminate).
  destruct (exit_status_of_main _ _ _ _ _ E) as [_ H].
  assert (st = 0) as -> by (vm_compute in E; now injection E as <- _).
  exists s'. split; [reflexivity|].
  destruct (H eq_refl) as [g [l [v [s1 [s2 [_ [_ [_ [_ [_ [_ [_ [_ [_ R]]]]]]]]]]]]]].
  split; [|exact R].
  vm_compute in E. injection E as <-. reflexivity.
Defined.

(** ** The frame *)

Lemma join_app a b : join (a ++ b) = join a ++ join b.
Proof.
  induction a as [|x a IH]; [reflexivity|].
  cbn [join app fold_right] in *. fold (join (a ++ b)). fold (join a).
  rewrite IH. now rewrite append_assoc.
Qed.

Lemma indices_nil first last : last <= first -> indices first last = [].
Proof.
  intros H. unfold indices. replace (Z.to_nat (last - first)) with 0%nat by lia.
  reflexivity.
Qed.

Lemma indices_cons first last :
  first < last -> indices first last = first :: indices (first + 1) last.
Proof.
  intros H. unfold indices.
  replace (Z.to_nat (last - first)) with (S (Z.to_nat (last - (first + 1))))
    by lia.
  cbn [seq map]. f_equal; [lia|].
  rewrite <- seq_shift, map_map. apply map_ext. intros k. lia.
Qed.

Lemma indices_shift first mid a n :
  mid = first + Z.of_nat a ->
  forall c,
    map (fun k => first + Z.of_nat k) (seq (a + c) n)
    = map (fun k => mid + Z.of_nat k) (seq c n).
Proof.
  intros ->. induction n as [|n IH]; intros c; [reflexivity|].
  cbn [seq map]. f_equal; [lia|].
  replace (S (a + c)) with (a + S c)%nat by lia. apply IH.
Qed.

Lemma indices_app first mid last :
  first <= mid <= last ->
  indices first last = (indices first mid ++ indices mid last)%list.
Proof.
  intros [H1 H2]. unfold indices.
  replace (Z.to_nat (last - first))
    with (Z.to_nat (mid - first) + Z.to_nat (last - mid))%nat by lia.
  rewrite seq_app, map_app. f_equal.
  rewrite <- (Nat.add_0_r (0 + Z.to_nat (mid - first))).
  apply indices_shift. lia.
Qed.

Lemma sprintf_cursor row col :
  sprintf cursor_fmt [ArgD row; ArgD col] = cursor_bytes row col.
Proof. unfold cursor_fmt, cursor_bytes. simpl. reflexivity. Qed.

Lemma sprintf_star row col :
  sprintf (cursor_fmt ++ "*") [ArgD row; ArgD col] = cursor_bytes row col ++ "*".
Proof.
  unfold cursor_fmt, cursor_bytes. simpl. do 2 f_equal.
  rewrite append_assoc. f_equal. cbn [append]. f_equal.
  now rewrite append_assoc.
Qed.

Lemma display_thumbnail_bytes W thumb s :
  w_alloc W (allocs s) = true ->
  exists s',
    display_thumbnail_kitty W thumb s = Ret tt s' /\
    stdout s' = stdout s ++ thumb_bytes thumb /\
    (allocs s <= allocs s' <= S (allocs s))%nat.
Proof.
  intros H. destruct thumb as [p|].
  - eexists. split; [apply display_thumbnail_run, H|].
    split; [reflexivity|]. cbn. lia.
  - eexists. split; [reflexivity|]. split; [reflexivity|]. cbn. lia.
Qed.

Section Frame.

Variables (W : World) (l : ImageList) (grid_cols selected start_row : Z).
Hypothesis Hc : 0 < grid_cols <= INT_MAX.
Hypothesis Hn : count l <= INT_MAX.
Hypothesis Hw : 12 * Z.min grid_cols (count l) <= INT_MAX.

Lemma render_cols_frame row :
  0 <= row * grid_cols -> 0 <= row - start_row <= 10922 ->
  forall n col s,
    0 <= col <= grid_cols -> row * grid_cols + col <= count l ->
    (Z.to_nat (grid_cols - col) <= n)%nat ->
    (forall k, (allocs s <= k)%nat -> w_alloc W k = true) ->
    exists s',
      render_cols W n l grid_cols selected start_row 6 12 row col s
      = Ret tt s' /\
      stdout s' = stdout s
                  ++ join (map (cell_bytes l grid_cols selected start_row)
                            (indices (row * grid_cols + col)
                               (Z.min (count l) ((row + 1) * grid_cols)))) /\
      (allocs s <= allocs s')%nat.
Proof.
  intros Hr Hrs. induction n as [|n IH]; intros col s H0 Hle Hfuel Ha.
  - exists s. split; [reflexivity|]. rewrite indices_nil by lia.
    cbn. rewrite append_nil_r. split; [reflexivity | lia].
  - cbn [render_cols].
    destruct (Z.ltb_spec col grid_cols) as [Hlt|Hge].
    2:{ exists s. split; [reflexivity|]. rewrite indices_nil by lia.
        cbn. rewrite append_nil_r. split; [reflexivity | lia]. }
    assert (Ei : grid_index row grid_cols col = row * grid_cols + col).
    { unfold grid_index, int_add, int_mul.
      rewrite (to_int_id (row * grid_cols)) by int_range.
      apply to_int_id. int_range. }
    rewrite Ei. rewrite (to_int_id (count l))
      by (pose proof (count_nonneg l); int_range).
    rewrite Z.geb_leb.
    destruct (Z.leb_spec (count l) (row * grid_cols + col)) as [Hbr|Hin].
    { exists s. split; [reflexivity|]. rewrite indices_nil by lia.
      cbn. rewrite append_nil_r. split; [reflexivity | lia]. }
    set (i := row * grid_cols + col) in *.
    destruct (entry_at_some l i ltac:(lia)) as [e Ee].
    rewrite Ee. cbv zeta.
    assert (Hrow : i / grid_cols = row)
      by (symmetry; apply Z.div_unique with (r := col); unfold i; lia).
    assert (Hcol : i mod grid_cols = col)
      by (symmetry; apply Z.mod_unique with (q := row); unfold i; lia).
    assert (Esr : int_add (int_mul (int_sub row start_row) 6) 1
                  = (row - start_row) * 6 + 1).
    { unfold int_add, int_mul, int_sub.
      rewrite (to_int_id (row - start_row)) by int_range.
      rewrite (to_int_id ((row - start_row) * 6)) by int_range.
      apply to_int_id. int_range. }
    assert (Esc : int_add (int_mul col 12) 1 = col * 12 + 1).
    { unfold int_add, int_mul.
      rewrite (to_int_id (col * 12)) by int_range.
      apply to_int_id. int_range. }
    rewrite Esr, Esc.
    change (int_div THUMB_COLS 2) with 5. change THUMB_ROWS with 5.
    assert (Est : int_add ((row - start_row) * 6 + 1) 5
                  = (row - start_row) * 6 + 1 + 5)
      by (unfold int_add; apply to_int_id; int_range).
    assert (Esc2 : int_add (col * 12 + 1) 5 = col * 12 + 1 + 5)
      by (unfold int_add; apply to_int_id; int_range).
    rewrite Est, Esc2.
    unfold bind at 1. cbn [printf]. rewrite sprintf_cursor.
    match goal with |- context [bind (display_thumbnail_kitty W _) _ ?s1] =>
      destruct (display_thumbnail_bytes W (thumb_path e) s1
                  ltac:(apply Ha; cbn; lia)) as [s2 [E2 [O2 A2]]]
    end.
    rewrite (bind_ret _ _ _ _ _ E2). cbn [stdout set_stdout allocs] in O2, A2.
    assert (P3 : exists s3,
      (if i =? selected
       then printf (cursor_fmt ++ "*")
              [ArgD ((row - start_row) * 6 + 1 + 5); ArgD (col * 12 + 1 + 5)]
       else ret tt) s2 = Ret tt s3 /\
      stdout s3 = stdout s2
                  ++ (if i =? selected
                      then cursor_bytes ((row - start_row) * 6 + 1 + 5)
                                        (col * 12 + 1 + 5) ++ "*"
                      else "") /\
      allocs s3 = allocs s2).
    { destruct (i =? selected).
      - eexists. split; [reflexivity|]. cbn [stdout set_stdout allocs].
        rewrite sprintf_star. split; reflexivity.
      - exists s2. split; [reflexivity|]. rewrite append_nil_r.
        split; reflexivity. }
    destruct P3 as [s3 [E3 [O3 A3]]]. rewrite (bind_ret _ _ _ _ _ E3).
    unfold int_add at 1. rewrite (to_int_id (col + 1)) by int_range.
    destruct (IH (col + 1) s3 ltac:(lia) ltac:(lia) ltac:(lia)) as [s' [E' [O' A']]].
    { intros k Hk. apply Ha. lia. }
    exists s'. split; [exact E'|]. split; [|lia].
    rewrite O', O3, O2. rewrite (indices_cons i) by lia.
    cbn [map join fold_right].
    replace (row * grid_cols + (col + 1)) with (i + 1) by (unfold i; lia).
    unfold cell_bytes at 2. cbv zeta. rewrite Hrow, Hcol, Ee.
    rewrite ?append_assoc. reflexivity.
Qed.

Lemma render_rows_frame end_row :
  end_row <= ceil_div (count l) grid_cols ->
  0 <= start_row -> end_row - start_row <= 10922 ->
  forall n row s,
    start_row <= row ->
    (Z.to_nat (end_row - row) <= n)%nat ->
    (forall k, (allocs s <= k)%nat -> w_alloc W k = true) ->
    exists s',
      render_rows W n l grid_cols selected start_row end_row 6 12 row s
      = Ret tt s' /\
      stdout s' = stdout s
                  ++ join (map (cell_bytes l grid_cols selected start_row)
                            (indices (row * grid_cols)
                               (Z.min (count l) (end_row * grid_cols)))) /\
      (allocs s <= allocs s')%nat.
Proof.
  intros He Hs Hv. induction n as [|n IH]; intros row s H0 Hfuel Ha.
  - exists s. split; [reflexivity|]. rewrite indices_nil by nia.
    cbn. rewrite append_nil_r. split; [reflexivity | lia].
  - cbn [render_rows].
    destruct (Z.ltb_spec row end_row) as [Hlt|Hge].
    2:{ exists s. split; [reflexivity|]. rewrite indices_nil by nia.
        cbn. rewrite append_nil_r. split; [reflexivity | lia]. }
    pose proof (ceil_div_bounds (count l) grid_cols (count_nonneg l)
                  ltac:(lia)) as B.
    assert (Hm : 0 <= row * grid_cols < count l) by nia.
    destruct (render_cols_frame row ltac:(lia) ltac:(lia)
                (Z.to_nat grid_cols) 0 s ltac:(lia) ltac:(lia) ltac:(lia) Ha)
      as [s1 [E1 [O1 A1]]].
    rewrite (bind_ret _ _ _ _ _ E1).
    unfold int_add. rewrite (to_int_id (row + 1)) by int_range.
    destruct (IH (row + 1) s1 ltac:(lia) ltac:(lia)) as [s' [E' [O' A']]].
    { intros k Hk. apply Ha. lia. }
    exists s'. split; [exact E'|]. split; [|lia].
    rewrite O', O1. rewrite Z.add_0_r. rewrite append_assoc. f_equal.
    rewrite <- join_app, <- map_app. do 2 f_equal.
    destruct (Z.le_gt_cases ((row + 1) * grid_cols) (count l)) as [L|G].
    + rewrite (Z.min_r (count l) ((row + 1) * grid_cols)) by lia.
      symmetry. apply indices_app. nia.
    + rewrite (Z.min_l (count l) ((row + 1) * grid_cols)) by lia.
      rewrite (Z.min_l (count l) (end_row * grid_cols)) by nia.
      rewrite (indices_nil ((row + 1) * grid_cols)) by lia.
      now rewrite app_nil_r.
Qed.

End Frame.

(** X18.  What [render_grid] writes, byte for byte, when the path
    encodings are allocated and the cell columns fit an [int]: the
    clear-screen; for each item of the rows in the window, in index order,
    the cursor at its cell, its thumbnail and, under the selected item only,
    a star; then the cursor at the status line, the selected path and the
    help line. *)
Theorem render_grid_frame (W : World) (l : ImageList)
    (grid_cols selected : Z) (s : State) :
  0 < grid_cols <= INT_MAX ->
  count l <= INT_MAX ->
  12 * Z.min grid_cols (count l) <= INT_MAX ->
  (forall k, (allocs s <= k)%nat -> w_alloc W k = true) ->
  exists s',
    render_grid W l grid_cols selected s = Ret tt s' /\
    stdout s' = stdout s
                ++ frame_bytes l grid_cols selected
                     (ws_row_of (w_ioctl W (ioctls s))) (scroll_offset s).
Proof.
  intros Hc Hn Hw Ha. unfold render_grid.
  unfold bind at 1. unfold sys_ioctl.
  set (answer := w_ioctl W (ioctls s)).
  change (int_add THUMB_ROWS SPACING_ROWS) with 6.
  change (int_add THUMB_COLS SPACING_COLS) with 12.
  change (match answer with Some (r, _) => to_ushort r | None => 24 end)
    with (ws_row_of answer).
  change (if int_div (ws_row_of answer) 6 <? 1 then 1
          else int_div (ws_row_of answer) 6)
    with (visible_rows (ws_row_of answer)).
  pose proof (ws_row_of_range answer) as Hws.
  set (ws_row := ws_row_of answer) in *.
  set (vis := visible_rows ws_row).
  set (tot := total_rows l grid_cols).
  assert (Hv : 1 <= vis <= 10922) by (apply visible_rows_range, Hws).
  pose proof (total_rows_range l grid_cols Hc Hn) as Ht. fold tot in Ht.
  rewrite (bind_ret _ _ _ _ _ (clamp_scroll_run tot vis _)).
  cbn [scroll_offset set_ioctls].
  set (so := clamped tot vis (scroll_offset s)).
  assert (Eso : so = Z.max 0 (Z.min (scroll_offset s) (tot - vis)))
    by (apply clamped_eq; assumption).
  unfold bind at 1. cbn [printf sprintf].
  unfold bind at 1. unfold get_scroll. cbn [scroll_offset set_stdout
    set_scroll_offset].
  replace (int_add so vis) with (so + vis)
    by (unfold int_add; symmetry; apply to_int_id; int_range).
  set (end_row := if so + vis >? tot then tot else so + vis).
  assert (He : end_row = Z.min tot (so + vis)).
  { unfold end_row. rewrite Z.gtb_ltb.
    destruct (Z.ltb_spec tot (so + vis)); lia. }
  assert (Et : tot = ceil_div (count l) grid_cols)
    by (apply total_rows_eq; assumption).
  match goal with |- context [bind (render_rows _ _ _ _ _ _ _ _ _ _) _ ?s1] =>
    destruct (render_rows_frame W l grid_cols selected so Hc Hn Hw end_row
                ltac:(lia) ltac:(lia) ltac:(lia)
                (Z.to_nat (end_row - so)) so s1 ltac:(lia) ltac:(lia))
      as [s2 [E2 [O2 _]]]
  end.
  { intros k Hk. apply Ha. cbn in Hk. lia. }
  rewrite (bind_ret _ _ _ _ _ E2).
  cbn [stdout set_stdout] in O2.
  replace (int_add (int_mul vis 6) 1) with (vis * 6 + 1).
  2:{ unfold int_add, int_mul. rewrite (to_int_id (vis * 6)) by int_range.
      symmetry. apply to_int_id. int_range. }
  assert (P1 : exists s3,
    (if vis * 6 + 1 <? ws_row
     then printf (String ESC "[%d;1H") [ArgD (vis * 6 + 1)]
     else printf (String ESC "[%d;1H") [ArgD ws_row]) s2 = Ret tt s3 /\
    stdout s3 = stdout s2 ++ cursor_bytes (Z.min (vis * 6 + 1) ws_row) 1).
  { destruct (Z.ltb_spec (vis * 6 + 1) ws_row).
    - rewrite Z.min_l by lia. eexists. split; reflexivity.
    - rewrite Z.min_r by lia. eexists. split; reflexivity. }
  destruct P1 as [s3 [E3 O3]]. rewrite (bind_ret _ _ _ _ _ E3).
  rewrite (to_int_id (count l)) by (pose proof (count_nonneg l); int_range).
  assert (P2 : exists s4,
    (if (selected >=? 0) && (selected <? count l)
     then match entry_at l selected with
          | Some e =>
              printf ("Selected: %s" ++ String NL "") [ArgS (original_path e)]
          | None => fault
          end
     else printf (String NL "") []) s3 = Ret tt s4 /\
    stdout s4 = stdout s3
                ++ match entry_at l selected with
                   | Some e => "Selected: " ++ original_path e
                   | None => ""
                   end ++ String NL "").
  { rewrite Z.geb_leb.
    destruct (Z.leb_spec 0 selected) as [L0|L0];
      [destruct (Z.ltb_spec selected (count l)) as [L1|L1]|]; cbn [andb].
    - destruct (entry_at_some l selected ltac:(lia)) as [e Ee]. rewrite Ee.
      eexists. split; [reflexivity|]. cbn. rewrite ?append_assoc.
      reflexivity.
    - assert (En : entry_at l selected = None).
      { unfold entry_at. destruct (Z.ltb_spec selected 0); [reflexivity|].
        apply nth_error_None. unfold count in L1. lia. }
      rewrite En. eexists. split; reflexivity.
    - assert (En : entry_at l selected = None).
      { unfold entry_at. destruct (Z.ltb_spec selected 0); [reflexivity|lia]. }
      rewrite En. eexists. split; reflexivity. }
  destruct P2 as [s4 [E4 O4]]. rewrite (bind_ret _ _ _ _ _ E4).
  eexists. split; [reflexivity|].
  cbn [stdout set_stdout printf]. rewrite O4, O3, O2.
  unfold frame_bytes. cbv zeta.
  rewrite <- (visible_rows_eq ws_row) by exact Hws. fold vis.
  rewrite <- Et, <- Eso, <- He.
  cbn [sprintf]. rewrite ?append_assoc. reflexivity.
Qed.

Lemma render_grid_frame_witness :
  exists s',
    render_grid (sample_world "" 13 0) (sample_list 10) 4 9
      (set_scroll_offset 99 initial_state) = Ret tt s' /\
    stdout s'
    = frame_bytes (sample_list 10) 4 9 13 99.
Proof.
  destruct (render_grid_frame (sample_world "" 13 0) (sample_list 10) 4 9
              (set_scroll_offset 99 initial_state)) as [s' [E O]].
  - unfold INT_MAX; lia.
  - vm_compute; discriminate.
  - vm_compute; discriminate.
  - reflexivity.
  - exists s'. split; [exact E | exact O].
Defined.

(** ** A whole session *)

Lemma chosen_columns_range opts : 1 <= chosen_columns opts <= INT_MAX.
Proof.
  unfold chosen_columns. destruct opts as [|o rest]; [int_range|].
  unfold columns_of. pose proof (atoi_is_int (snd (last (o :: rest) (0, "")))).
  destruct (Z.ltb_spec (atoi (snd (last (o :: rest) (0, "")))) 1); int_range.
Qed.

(** X19.  A session over a list of files ends with its input, as long as
    the number of arguments plus the column count fits an [int] (so that
    the sum of line 597 cannot wrap): when moreover the options are
    accepted, the first argument is no directory, the entries are
    allocated, raw mode can be entered and every read from the [N]-th on
    fails, [main] exits with status 0, the terminal restored, the last bytes
    written being the clear-all sequence and the clear-screen. *)
Theorem main_ends_at_eof (W : World) (fuel N : nat) (argv : list string)
    (first : string) :
  options_accepted (w_getopt W) = true ->
  0 <= w_optind W ->
  nth_error argv (Z.to_nat (w_optind W)) = Some first ->
  w_isdir W first = false ->
  (forall k, (k < List.length argv)%nat -> w_alloc W k = true) ->
  w_tcgetattr W = true -> w_tcsetattr W = true ->
  Z.of_nat (List.length argv) + chosen_columns (w_getopt W) <= INT_MAX ->
  (forall n, (N <= n)%nat -> w_read W n = None) ->
  (3 * N + 4 <= fuel)%nat ->
  exists s',
    main W fuel argv initial_state = Exit 0 s' /\
    raw_mode s' = false /\
    (exists shown, stdout s' = shown ++ kitty_clear_bytes ++ clear_home).
Proof.
  intros Hopts H0 Hfirst Hdir Ha Hg Hs Hsize Heof Hfuel.
  assert (Hlt : (Z.to_nat (w_optind W) < List.length argv)%nat)
    by (apply nth_error_Some; congruence).
  unfold main.
  rewrite (bind_ret _ _ _ _ _ (parse_options_last argv (w_getopt W) Hopts 4
                                 initial_state)).
  fold (chosen_columns (w_getopt W)).
  pose proof (chosen_columns_range (w_getopt W)) as Hc.
  set (g := chosen_columns (w_getopt W)) in *.
  destruct (Z.geb_spec (w_optind W) (Z.of_nat (List.length argv))); [lia|].
  unfold bind at 1. cbn [ret].
  destruct (Z.ltb_spec (w_optind W) 0); [lia|].
  rewrite Hfirst, Hdir.
  set (paths := skipn (Z.to_nat (w_optind W)) argv).
  assert (Hlen : (0 < List.length paths <= List.length argv)%nat)
    by (unfold paths; rewrite length_skipn; lia).
  rewrite (bind_ret _ _ _ _ _
             (load_images_from_argv_ok W paths [] initial_state
                ltac:(intros k Hk; apply Ha; cbn; lia))).
  cbn [app].
  set (l0 := map fresh_entry paths).
  assert (Hl0 : count l0 = Z.of_nat (List.length paths))
    by (unfold count, l0; now rewrite length_map).
  destruct (Z.eqb_spec (count l0) 0); [lia|].
  unfold bind at 1. cbn [ret].
  match goal with |- context [bind (generate_thumbnails W l0) _ ?s0] =>
    destruct (generate_thumbnails_run W l0 s0)
      as [l [s1 [Et [F [_ [_ [_ [_ [Hr _]]]]]]]]]
  end.
  rewrite (bind_ret _ _ _ _ _ Et).
  assert (Hl : count l = count l0).
  { unfold count. f_equal. clear - F. induction F; cbn; congruence. }
  unfold enable_raw_mode. rewrite Hg, Hs. cbn [negb].
  unfold bind at 1.
  match goal with |- context [bind (main_loop W fuel l g loop_start) _ ?s2] =>
    destruct (main_loop_ends W l g N ltac:(lia) ltac:(lia) Heof fuel
                loop_start s2) as [v [s3 [El _]]]
  end.
  { cbn [selected loop_start]. lia. }
  { unfold turns_left. cbn [running loop_start mode reads set_raw_mode
      set_atexit_hook Z.eqb]. rewrite Hr. cbn [reads set_allocs initial_state].
    lia. }
  rewrite (bind_ret _ _ _ _ _ El).
  rewrite (bind_ret _ _ _ _ _ (eq_refl : disable_raw_mode s3 = Ret tt _)).
  unfold kitty_delete_all. unfold bind at 1. cbn [printf].
  rewrite (bind_ret _ _ _ _ _ (remove_thumbnails_run l _)).
  unfold bind, printf, exit. eexists. split; [reflexivity|].
  unfold run_atexit.
  match goal with |- context [if ?b then _ else _] => destruct b end;
    (split; [reflexivity|]); exists (stdout s3);
    cbn [stdout set_stdout set_removed set_raw_mode];
    now rewrite append_assoc.
Qed.

Lemma main_ends_at_eof_witness :
  exists s',
    main (sample_world "jl" 24 0) 10 ["iv"; "a.png"; "b.png"] initial_state
    = Exit 0 s'.
Proof.
  destruct (main_ends_at_eof (sample_world "jl" 24 0) 10 2
              ["iv"; "a.png"; "b.png"] "a.png") as [s' [E _]].
  - reflexivity.
  - vm_compute; discriminate.
  - reflexivity.
  - reflexivity.
  - reflexivity.
  - reflexivity.
  - reflexivity.
  - vm_compute; discriminate.
  - intros n Hn. unfold sample_world, keys; cbn [w_read].
    do 2 (destruct n as [|n]; [lia|]). reflexivity.
  - lia.
  - exists s'. exact E.
Defined.

(** ** No read out of bounds *)

Lemma bind_fault_inv {A B} (c : M A) (k : A -> M B) s s' :
  bind c k s = Fault s' ->
  c s = Fault s' \/ exists a s1, c s = Ret a s1 /\ k a s1 = Fault s'.
Proof.
  unfold bind. destruct (c s) as [a s1|st s1|s1|]; intros E;
    try discriminate.
  - right. now exists a, s1.
  - left. now injection E as <-.
Qed.

Lemma main_loop_in_bounds W l grid_cols :
  0 < grid_cols <= INT_MAX ->
  count l + grid_cols - 1 <= INT_MAX ->
  forall fuel v s,
    0 <= selected v < count l ->
    (exists v' s',
       main_loop W fuel l grid_cols v s = Ret v' s' /\
       running v' = 0 /\ 0 <= selected v' < count l) \/
    main_loop W fuel l grid_cols v s = OutOfFuel.
Proof.
  intros Hc Hov. assert (Hn : count l <= INT_MAX) by lia.
  induction fuel as [|fuel IH]; intros v s Hs; [now right|].
  cbn [main_loop]. destruct (Z.eqb_spec (running v) 0) as [R0|Rn].
  { left. exists v, s. repeat split; [exact R0 | lia | lia]. }
  destruct (mode v) eqn:Hm.
  - destruct (grid_turn W fuel l grid_cols v s Hc Hn Hm) as [s1 [E _]].
    rewrite (bind_ret _ _ _ _ _ E).
    apply IH.
    apply (grid_key_laws l grid_cols _ v Hc Hn Hs). intros _. lia.
  - unfold loop_body. rewrite Hm.
    destruct (entry_at_some l (selected v) Hs) as [e Ee]. rewrite Ee.
    destruct (focus_view_cases W fuel (original_path e) s)
      as [st [fp [s1 [_ [_ [Hfail Hok]]]]]].
    destruct (Z.eq_dec st 0) as [Z0|NZ].
    + destruct (Hok Z0) as [[n [s' [_ [_ [_ [Ev _]]]]]]|[_ Ev]].
      * rewrite (bind_ret _ _ _ _ _
                   (bind_ret _ _ _ _ _ Ev : bind _ (fun _ => ret _) s = _)).
        apply IH. exact Hs.
      * right. unfold bind. now rewrite Ev.
    + rewrite (bind_ret _ _ _ _ _
                 (bind_ret _ _ _ _ _ (Hfail NZ)
                  : bind _ (fun _ => ret _) s = _)).
      apply IH. exact Hs.
Qed.

Lemma parse_options_no_fault argv opts :
  forall g s s', parse_options argv opts g s <> Fault s'.
Proof.
  induction opts as [|[o a] rest IH]; intros g s s'; [discriminate|].
  cbn [parse_options]. destruct (o =? code "c"); [apply IH|].
  unfold bind, eprintf, exit. discriminate.
Qed.

Lemma parse_options_ret_accepted argv opts :
  forall g s g' s',
    parse_options argv opts g s = Ret g' s' -> options_accepted opts = true.
Proof.
  induction opts as [|[o a] rest IH]; intros g s g' s' E; [reflexivity|].
  cbn [parse_options] in E.
  change (options_accepted ((o, a) :: rest))
    with ((o =? code "c") && options_accepted rest).
  destruct (o =? code "c"); [exact (IH _ _ _ _ E) | discriminate].
Qed.

Lemma add_image_entry_cases W l path s :
  (exists s', add_image_entry W l path s
              = Ret (l ++ [fresh_entry path])%list s') \/
  (exists s', add_image_entry W l path s = Exit EXIT_FAILURE s').
Proof.
  unfold add_image_entry, bind, sys_alloc.
  destruct (w_alloc W (allocs s)); [left | right]; eexists; reflexivity.
Qed.

Lemma load_images_from_argv_bounded W paths :
  forall l s,
    match load_images_from_argv W paths l s with
    | Ret l' _ => List.length l' = (List.length l + List.length paths)%nat
    | Exit _ _ => True
    | _ => False
    end.
Proof.
  induction paths as [|p rest IH]; intros l s.
  - cbn. lia.
  - cbn [load_images_from_argv]. unfold bind at 1.
    destruct (add_image_entry_cases W l p s) as [[s1 E]|[s1 E]]; rewrite E;
      [|exact I].
    specialize (IH (l ++ [fresh_entry p])%list s1).
    destruct (load_images_from_argv W rest _ s1); try exact IH.
    rewrite IH, length_app. cbn. lia.
Qed.

Lemma load_dir_entries_bounded W dir names :
  forall l s,
    match load_dir_entries W dir names l s with
    | Ret l' _ => (List.length l' <= List.length l + List.length names)%nat
    | Exit _ _ => True
    | _ => False
    end.
Proof.
  induction names as [|n rest IH]; intros l s.
  - cbn. lia.
  - cbn [load_dir_entries]. cbv zeta.
    destruct (is_hidden n).
    { specialize (IH l s). destruct (load_dir_entries W dir rest l s);
        try exact IH. cbn [List.length]. lia. }
    destruct (w_isreg W _).
    2:{ specialize (IH l s). destruct (load_dir_entries W dir rest l s);
          try exact IH. cbn [List.length]. lia. }
    unfold bind at 1.
    match goal with |- context [add_image_entry W l ?p s] =>
      destruct (add_image_entry_cases W l p s) as [[s1 E]|[s1 E]]; rewrite E;
        [|exact I];
      specialize (IH (l ++ [fresh_entry p])%list s1);
      destruct (load_dir_entries W dir rest _ s1); try exact IH
    end.
    rewrite length_app in IH. cbn [List.length] in *. lia.
Qed.

(** X20.  [main] never reads outside [argv] or outside the entries of the
    list, whatever keys arrive and however long it runs, as long as the
    number of arguments, and of names in a directory that opens, plus the
    column count fits an [int]. *)
Theorem main_never_faults (W : World) (fuel : nat) (argv : list string)
    (s' : State) :
  0 <= w_optind W ->
  Z.of_nat (List.length argv) + chosen_columns (w_getopt W) <= INT_MAX ->
  (forall dir names,
     w_opendir W dir = Some names ->
     Z.of_nat (List.length names) + chosen_columns (w_getopt W) <= INT_MAX) ->
  main W fuel argv initial_state <> Fault s'.
Proof.
  intros H0 Hfiles Hdirs F. unfold main in F.
  apply bind_fault_inv in F.
  destruct F as [F|[g [s1 [Ep F]]]]; [exact (parse_options_no_fault _ _ _ _ _ F)|].
  pose proof (parse_options_ret_accepted _ _ _ _ _ _ Ep) as Hacc.
  rewrite (parse_options_last argv _ Hacc) in Ep. injection Ep as <- <-.
  fold (chosen_columns (w_getopt W)) in F.
  pose proof (chosen_columns_range (w_getopt W)) as Hc.
  set (g := chosen_columns (w_getopt W)) in *.
  apply bind_fault_inv in F. destruct F as [F|[[] [s2 [E2 F]]]].
  { destruct (w_optind W >=? _) in F; unfold bind, eprintf, exit in F;
      discriminate. }
  destruct (Z.geb_spec (w_optind W) (Z.of_nat (List.length argv)))
    as [Hge|Hlt]; [unfold bind, eprintf, exit in E2; discriminate|].
  injection E2 as <-.
  destruct (Z.ltb_spec (w_optind W) 0); [lia|].
  destruct (nth_error argv (Z.to_nat (w_optind W))) as [first|] eqn:En.
  2:{ apply nth_error_None in En. lia. }
  apply bind_fault_inv in F.
  assert (Hload : forall l0 s3,
    (if w_isdir W first
     then r <- load_images_from_dir W first [] ;;
          (let '(status, l) := r in
           if negb (status =? 0)
           then eprintf ("Could not read directory." ++ String NL "") [] ;;
                exit 1
           else ret l)
     else load_images_from_argv W (skipn (Z.to_nat (w_optind W)) argv) [])
      initial_state = Ret l0 s3 ->
    count l0 + g - 1 <= INT_MAX).
  { intros l0 s3. destruct (w_isdir W first).
    - unfold load_images_from_dir.
      destruct (w_opendir W first) as [names|] eqn:Eo.
      + pose proof (load_dir_entries_bounded W first names [] initial_state)
          as B.
        unfold bind. 
        destruct (load_dir_entries W first names [] initial_state)
          as [l1 s4| | |]; try discriminate; try contradiction.
        cbn [ret Z.eqb negb]. intros [= <- _].
        specialize (Hdirs first names Eo). unfold count.
        cbn [List.length] in B. lia.
      + unfold bind, perror, eprintf, ret, exit. cbn [Z.eqb negb].
        discriminate.
    - pose proof (load_images_from_argv_bounded W
                    (skipn (Z.to_nat (w_optind W)) argv) [] initial_state)
        as B.
      destruct (load_images_from_argv W _ [] initial_state)
        as [l1 s4| | |]; try discriminate.
      intros [= <- _]. rewrite length_skipn in B. unfold count.
      cbn [List.length] in B. lia. }
  destruct F as [F|[l0 [s3 [El F]]]].
  { destruct (w_isdir W first).
    - unfold load_images_from_dir in F.
      destruct (w_opendir W first) as [names|].
      + pose proof (load_dir_entries_bounded W first names [] initial_state)
          as B.
        unfold bind in F.
        destruct (load_dir_entries W first names [] initial_state);
          try discriminate; try contradiction.
      + unfold bind, perror, eprintf, ret, exit in F. cbn [Z.eqb negb] in F.
        discriminate.
    - pose proof (load_images_from_argv_bounded W
                    (skipn (Z.to_nat (w_optind W)) argv) [] initial_state)
        as B.
      rewrite F in B. exact B. }
  specialize (Hload l0 s3 El).
  apply bind_fault_inv in F. destruct F as [F|[[] [s4 [E4 F]]]].
  { destruct (count l0 =? 0) in F; unfold bind, eprintf, exit in F;
      discriminate. }
  destruct (Z.eqb_spec (count l0) 0) as [|Hne];
    [unfold bind, eprintf, exit in E4; discriminate|].
  injection E4 as <-.
  destruct (generate_thumbnails_run W l0 s3) as [l [s5 [Et [Fo _]]]].
  rewrite (bind_ret _ _ _ _ _ Et) in F.
  assert (Hl : count l = count l0).
  { unfold count. f_equal. clear - Fo. induction Fo; cbn; congruence. }
  apply bind_fault_inv in F. destruct F as [F|[[] [s6 [_ F]]]].
  { unfold enable_raw_mode in F.
    destruct (w_tcgetattr W), (w_tcsetattr W); cbn [negb] in F;
      unfold bind, perror, eprintf, exit, ret in F; discriminate. }
  pose proof (count_nonneg l0) as Hpos.
  destruct (main_loop_in_bounds W l g ltac:(lia) ltac:(lia) fuel loop_start s6
              ltac:(cbn [selected loop_start]; lia))
    as [[v [s7 [El' _]]]|Eo].
  - rewrite (bind_ret _ _ _ _ _ El') in F.
    rewrite (bind_ret _ _ _ _ _ (eq_refl : disable_raw_mode s7 = Ret tt _))
      in F.
    unfold kitty_delete_all in F. unfold bind at 1 in F. cbn [printf] in F.
    rewrite (bind_ret _ _ _ _ _ (remove_thumbnails_run l _)) in F.
    unfold bind, printf, exit in F. discriminate.
  - unfold bind at 1 in F. rewrite Eo in F. discriminate.
Qed.

Lemma main_never_faults_witness :
  match main (sample_world "jjlq" 24 0) 9 ["iv"; "a.png"; "b.png"]
          initial_state with
  | Fault _ => False
  | _ => True
  end.
Proof.
  destruct (main (sample_world "jjlq" 24 0) 9 ["iv"; "a.png"; "b.png"]
              initial_state) as [a s|st s|s|] eqn:E; try exact I.
  apply (main_never_faults (sample_world "jjlq" 24 0) 9
           ["iv"; "a.png"; "b.png"] s).
  - vm_compute; discriminate.
  - vm_compute; discriminate.
  - intros dir names Eo. discriminate Eo.
  - exact E.
Defined.

(** ** Raw mode refused *)

(** X21.  When raw mode cannot be entered, a run over a list of files ends
    with [EXIT_FAILURE] and [perror]'s line for the failing call, after the
    converter ran once per file: nothing is drawn, and no thumbnail is
    removed. *)
Theorem raw_mode_failure_keeps_thumbnails (W : World) (fuel : nat)
    (argv : list string) (first : string) :
  options_accepted (w_getopt W) = true ->
  0 <= w_optind W ->
  nth_error argv (Z.to_nat (w_optind W)) = Some first ->
  w_isdir W first = false ->
  (forall k, (k < List.length argv)%nat -> w_alloc W k = true) ->
  w_tcgetattr W && w_tcsetattr W = false ->
  exists s' before,
    main W fuel argv initial_state = Exit EXIT_FAILURE s' /\
    stderr s' = before
                ++ (if w_tcgetattr W then "tcsetattr" else "tcgetattr")
                ++ ": " ++ w_strerror W ++ String NL "" /\
    systems s' = (List.length argv - Z.to_nat (w_optind W))%nat /\
    removed s' = [] /\ stdout s' = "" /\ raw_mode s' = false.
Proof.
  intros Hopts H0 Hfirst Hdir Ha Htc.
  assert (Hlt : (Z.to_nat (w_optind W) < List.length argv)%nat)
    by (apply nth_error_Some; congruence).
  unfold main.
  rewrite (bind_ret _ _ _ _ _ (parse_options_last argv (w_getopt W) Hopts 4
                                 initial_state)).
  destruct (Z.geb_spec (w_optind W) (Z.of_nat (List.length argv))); [lia|].
  unfold bind at 1. cbn [ret].
  destruct (Z.ltb_spec (w_optind W) 0); [lia|].
  rewrite Hfirst, Hdir.
  set (paths := skipn (Z.to_nat (w_optind W)) argv).
  assert (Hlen : List.length paths
                 = (List.length argv - Z.to_nat (w_optind W))%nat)
    by (unfold paths; apply length_skipn).
  rewrite (bind_ret _ _ _ _ _
             (load_images_from_argv_ok W paths [] initial_state
                ltac:(intros k Hk; apply Ha; cbn; lia))).
  cbn [app].
  set (l0 := map fresh_entry paths).
  assert (Hl0 : count l0 = Z.of_nat (List.length paths))
    by (unfold count, l0; now rewrite length_map).
  destruct (Z.eqb_spec (count l0) 0); [lia|].
  unfold bind at 1. cbn [ret].
  match goal with |- context [bind (generate_thumbnails W l0) _ ?s0] =>
    destruct (generate_thumbnails_run W l0 s0)
      as [l [s1 [Et [_ [Ho [_ [Hr [Hh [_ [Hrm [_ Hsys]]]]]]]]]]]
  end.
  rewrite (bind_ret _ _ _ _ _ Et).
  cbn [stdout raw_mode atexit_hook removed systems set_allocs initial_state]
    in Ho, Hr, Hh, Hrm, Hsys.
  unfold enable_raw_mode.
  exists (set_stderr
            (stderr s1 ++ (if w_tcgetattr W then "tcsetattr" else "tcgetattr")
             ++ ": " ++ w_strerror W ++ String NL "") s1), (stderr s1).
  assert (Hat : run_atexit
                  (set_stderr
                     (stderr s1
                      ++ (if w_tcgetattr W then "tcsetattr" else "tcgetattr")
                      ++ ": " ++ w_strerror W ++ String NL "") s1)
                = set_stderr
                    (stderr s1
                     ++ (if w_tcgetattr W then "tcsetattr" else "tcgetattr")
                     ++ ": " ++ w_strerror W ++ String NL "") s1).
  { unfold run_atexit. cbn [atexit_hook set_stderr]. now rewrite Hh. }
  split.
  - destruct (w_tcgetattr W); cbn [negb andb] in *.
    + rewrite Htc. cbn [negb]. unfold bind, perror, eprintf, exit.
      cbn [sprintf]. rewrite <- Hat. do 2 f_equal.
    + unfold bind, perror, eprintf, exit. cbn [sprintf].
      rewrite <- Hat. do 2 f_equal.
  - cbn [stderr set_stderr systems removed stdout raw_mode].
    rewrite Hrm, Ho, Hr. repeat split.
    rewrite Hsys. unfold l0. rewrite length_map, Hlen. reflexivity.
Qed.

Lemma raw_mode_failure_keeps_thumbnails_witness :
  exists s',
    main no_terminal_world 5 ["iv"; "a.png"; "b.png"] initial_state
    = Exit 1 s' /\
    systems s' = 2%nat /\ removed s' = [].
Proof.
  destruct (raw_mode_failure_keeps_thumbnails no_terminal_world 5
              ["iv"; "a.png"; "b.png"] "a.png")
    as [s' [before [E [_ [S [R _]]]]]].
  - reflexivity.
  - vm_compute; discriminate.
  - reflexivity.
  - reflexivity.
  - reflexivity.
  - reflexivity.
  - exists s'. split; [exact E|]. split; [exact S | exact R].
Defined.

(** ** Focus mode past the overflow *)

Lemma overflow_keys (l : ImageList) :
  count l = 2 ->
  grid_key l INT_MAX (code "l") loop_start = mkLoop MODE_GRID 1 1 /\
  grid_key l INT_MAX (code "j") (mkLoop MODE_GRID 1 1)
  = mkLoop MODE_GRID INT_MIN 1 /\
  grid_key l INT_MAX 10 (mkLoop MODE_GRID INT_MIN 1)
  = mkLoop MODE_FOCUS INT_MIN 1.
Proof.
  intros H. unfold grid_key. rewrite H. repeat split; vm_compute; reflexivity.
Qed.

Lemma overflow_turns (W : World) (l : ImageList) (s : State) :
  count l = 2 ->
  w_read W (reads s) = Some "l"%char ->
  w_read W (S (reads s)) = Some "j"%char ->
  w_read W (S (S (reads s))) = Some NL ->
  exists s1 s2 s3,
    loop_body W 0 l INT_MAX loop_start s = Ret (mkLoop MODE_GRID 1 1) s1 /\
    loop_body W 0 l INT_MAX (mkLoop MODE_GRID 1 1) s1
    = Ret (mkLoop MODE_GRID INT_MIN 1) s2 /\
    loop_body W 0 l INT_MAX (mkLoop MODE_GRID INT_MIN 1) s2
    = Ret (mkLoop MODE_FOCUS INT_MIN 1) s3 /\
    (forall fuel,
       loop_body W fuel l INT_MAX (mkLoop MODE_FOCUS INT_MIN 1) s3 = Fault s3) /\
    (forall fuel, (4 <= fuel)%nat ->
       main_loop W fuel l INT_MAX loop_start s = Fault s3).
Proof.
  intros Hl K1 K2 K3.
  assert (Hc : 0 < INT_MAX <= INT_MAX) by (unfold INT_MAX; lia).
  assert (Hn : count l <= INT_MAX) by (rewrite Hl; unfold INT_MAX; lia).
  destruct (overflow_keys l Hl) as [G1 [G2 G3]].
  assert (T : forall fuel v s0, mode v = MODE_GRID ->
            exists s', loop_body W fuel l INT_MAX v s0
                       = Ret (grid_key l INT_MAX (key_of (w_read W (reads s0))) v) s'
                       /\ reads s' = S (reads s0)).
  { intros fuel v s0 Hm.
    destruct (grid_turn W fuel l INT_MAX v s0 Hc Hn Hm) as [s' [E [R _]]].
    now exists s'. }
  assert (F : forall fuel s0,
            loop_body W fuel l INT_MAX (mkLoop MODE_FOCUS INT_MIN 1) s0
            = Fault s0) by reflexivity.
  destruct (T 0%nat loop_start s eq_refl) as [s1 [E1 R1]].
  rewrite K1 in E1. change (key_of (Some "l"%char)) with (code "l") in E1.
  rewrite G1 in E1.
  destruct (T 0%nat (mkLoop MODE_GRID 1 1) s1 eq_refl) as [s2 [E2 R2]].
  rewrite R1, K2 in E2. change (key_of (Some "j"%char)) with (code "j") in E2.
  rewrite G2 in E2.
  destruct (T 0%nat (mkLoop MODE_GRID INT_MIN 1) s2 eq_refl) as [s3 [E3 R3]].
  rewrite R2, R1, K3 in E3. change (key_of (Some NL)) with 10 in E3.
  rewrite G3 in E3.
  exists s1, s2, s3. split; [exact E1|]. split; [exact E2|].
  split; [exact E3|]. split; [intros fuel; apply F|].
  intros fuel Hf.
  do 4 (destruct fuel as [|fuel]; [lia|]).
  (* the turns do not depend on the fuel *)
  assert (E1' : loop_body W (S (S (S fuel))) l INT_MAX loop_start s
                = Ret (mkLoop MODE_GRID 1 1) s1) by exact E1.
  assert (E2' : loop_body W (S (S fuel)) l INT_MAX (mkLoop MODE_GRID 1 1) s1
                = Ret (mkLoop MODE_GRID INT_MIN 1) s2) by exact E2.
  assert (E3' : loop_body W (S fuel) l INT_MAX (mkLoop MODE_GRID INT_MIN 1) s2
                = Ret (mkLoop MODE_FOCUS INT_MIN 1) s3) by exact E3.
  change (main_loop W (S (S (S (S fuel)))) l INT_MAX loop_start s)
    with (bind (loop_body W (S (S (S fuel))) l INT_MAX loop_start)
               (main_loop W (S (S (S fuel))) l INT_MAX) s).
  rewrite (bind_ret _ _ _ _ _ E1').
  change (main_loop W (S (S (S fuel))) l INT_MAX (mkLoop MODE_GRID 1 1) s1)
    with (bind (loop_body W (S (S fuel)) l INT_MAX (mkLoop MODE_GRID 1 1))
               (main_loop W (S (S fuel)) l INT_MAX) s1).
  rewrite (bind_ret _ _ _ _ _ E2').
  change (main_loop W (S (S fuel)) l INT_MAX (mkLoop MODE_GRID INT_MIN 1) s2)
    with (bind (loop_body W (S fuel) l INT_MAX (mkLoop MODE_GRID INT_MIN 1))
               (main_loop W (S fuel) l INT_MAX) s2).
  rewrite (bind_ret _ _ _ _ _ E3').
  reflexivity.
Qed.

(** C7.  Every entry into focus mode should be followed by a return to grid
    mode, and the program should end only from grid mode.  The program
    started as [iv -c 2147483647 a.png b.png] takes [INT_MAX] columns; ['l']
    and ['j'] leave [selected] at [INT_MIN] through the wrapped sum of line
    597; Enter then enters focus mode, and the focus turn reads
    [list.entries[INT_MIN]] at line 607, outside the list: the run ends
    there, in focus mode, without a return to the grid, however long it may
    go on.  ([mode_machine] has the claim wherever the selection is a valid
    index.) *)
Theorem focus_entry_overflow :
  let W := overflow_world in
  let argv := ["iv"; "-c"; "2147483647"; "a.png"; "b.png"] in
  let l := sample_list 2 in
  let lost := mkLoop MODE_FOCUS INT_MIN 1 in
  parse_options argv (w_getopt W) 4 initial_state = Ret INT_MAX initial_state /\
  (exists s1 s2 s3,
     loop_body W 0 l INT_MAX loop_start initial_state
     = Ret (mkLoop MODE_GRID 1 1) s1 /\
     loop_body W 0 l INT_MAX (mkLoop MODE_GRID 1 1) s1
     = Ret (mkLoop MODE_GRID INT_MIN 1) s2 /\
     loop_body W 0 l INT_MAX (mkLoop MODE_GRID INT_MIN 1) s2 = Ret lost s3 /\
     (forall fuel, loop_body W fuel l INT_MAX lost s3 = Fault s3)) /\
  mode lost = MODE_FOCUS /\ entry_at l (selected lost) = None /\
  (forall fuel, (4 <= fuel)%nat ->
     exists s, main W fuel argv initial_state = Fault s).
Proof.
  cbv zeta. split; [vm_compute; reflexivity|]. split.
  { destruct (overflow_turns overflow_world (sample_list 2) initial_state)
      as [s1 [s2 [s3 [E1 [E2 [E3 [F _]]]]]]]; try reflexivity.
    exists s1, s2, s3. repeat split; assumption. }
  split; [reflexivity|]. split; [reflexivity|].
  intros fuel Hf. unfold main.
  rewrite (bind_ret _ _ _ _ _
             (parse_options_last _ (w_getopt overflow_world) eq_refl 4
                initial_state)).
  assert (Eg : columns_of (snd (last (w_getopt overflow_world) (0, "")))
               = INT_MAX) by (vm_compute; reflexivity).
  cbv zeta.
  change (w_optind overflow_world) with 3.
  change (3 >=? Z.of_nat (List.length ["iv"; "-c"; "2147483647"; "a.png"; "b.png"]))
    with false.
  unfold bind at 1. cbn [ret].
  change (if 3 <? 0 then None
          else nth_error ["iv"; "-c"; "2147483647"; "a.png"; "b.png"]
                 (Z.to_nat 3)) with (Some "a.png").
  cbv iota beta.
  change (w_isdir overflow_world "a.png") with false. cbv iota.
  change (skipn (Z.to_nat 3) ["iv"; "-c"; "2147483647"; "a.png"; "b.png"])
    with ["a.png"; "b.png"].
  rewrite (bind_ret _ _ _ _ _
             (load_images_from_argv_ok overflow_world ["a.png"; "b.png"] []
                initial_state ltac:(intros; reflexivity))).
  cbn [app map List.length].
  change (count [fresh_entry "a.png"; fresh_entry "b.png"] =? 0) with false.
  unfold bind at 1. cbn [ret].
  match goal with |- context [bind (generate_thumbnails _ ?l0) _ ?s0] =>
    destruct (generate_thumbnails_run overflow_world l0 s0)
      as [l [s1 [Et [Fo [_ [_ [_ [_ [Hr _]]]]]]]]]
  end.
  rewrite (bind_ret _ _ _ _ _ Et).
  assert (Hl : count l = 2).
  { unfold count. replace (List.length l) with 2%nat; [reflexivity|].
    clear - Fo. inversion Fo as [|? ? ? ? _ Fo1]; subst.
    inversion Fo1 as [|? ? ? ? _ Fo2]; subst. inversion Fo2; subst.
    reflexivity. }
  cbv iota in Eg |- *. rewrite ?Eg.
  unfold enable_raw_mode.
  change (w_tcgetattr overflow_world) with true.
  change (w_tcsetattr overflow_world) with true. cbn [negb].
  unfold bind at 1.
  match goal with |- context [bind (main_loop _ fuel l INT_MAX loop_start) _ ?s2] =>
    destruct (overflow_turns overflow_world l s2 Hl)
      as [t1 [t2 [t3 [_ [_ [_ [_ F]]]]]]]
  end.
  - cbn [reads set_atexit_hook set_raw_mode]. rewrite Hr. reflexivity.
  - cbn [reads set_atexit_hook set_raw_mode]. rewrite Hr. reflexivity.
  - cbn [reads set_atexit_hook set_raw_mode]. rewrite Hr. reflexivity.
  - exists t3. unfold bind at 1. now rewrite (F fuel Hf).
Qed.
